(** * Analysis helpers of the hit-graph tracking notebooks

    A shallow embedding of [notebooks/nb_utils.py] and [utils/data_utils.py].
    Python values live in a store of dictionaries addressed by object
    identity, exceptions are an explicit result type, numpy arrays are lists
    with numpy's index rules, and the calls into os.path, yaml, pickle,
    pandas, torch and sklearn are interfaces whose members the helpers are
    parameterised by. *)

From Stdlib Require Import ZArith QArith Qabs Qround Lqa String List Lia
  DecimalString.
From stdpp Require Import base list gmap strings.

Local Open Scope string_scope.
Local Open Scope list_scope.
Local Open Scope stdpp_scope.
Local Open Scope Z_scope.

(** ** Python: exceptions, values, dictionaries in a store *)

Module Py.

Inductive exn : Type :=
  | KeyError (key : string)
  | IndexError
  | TypeError
  | AttributeError
  | ValueError
  | LibraryError (what : string).

Inductive result (A : Type) : Type :=
  | Ok (a : A)
  | Raise (e : exn).
Arguments Ok {A} a.
Arguments Raise {A} e.

#[export] Instance result_ret : MRet result := λ A a, Ok a.
#[export] Instance result_bind : MBind result := λ A B k r,
  match r with
  | Ok a => k a
  | Raise e => Raise e
  end.

Definition raises {A} (r : result A) : Prop :=
  match r with Ok _ => False | Raise _ => True end.

(** Object identities, and the values a configuration holds.  A nested
    dictionary is held by reference, as in Python. *)
Definition loc := positive.

Inductive pyval : Type :=
  | VNone
  | VStr (s : string)
  | VInt (z : Z)
  | VRef (l : loc).

Abbreviation dict := (gmap string pyval).
Abbreviation heap := (gmap loc (gmap string pyval)).

(** [obj[key]] *)
Definition getitem (h : heap) (obj : pyval) (key : string) : result pyval :=
  match obj with
  | VRef l =>
      match h !! l with
      | Some d =>
          match d !! key with
          | Some v => Ok v
          | None => Raise (KeyError key)
          end
      | None => Raise TypeError
      end
  | _ => Raise TypeError
  end.

(** [obj.pop(key, default)]: removes the key from the dictionary object
    itself; every holder of the reference sees the removal. *)
Definition dict_pop (h : heap) (obj : pyval) (key : string) (default : pyval)
  : heap * result pyval :=
  match obj with
  | VRef l =>
      match h !! l with
      | Some d =>
          match d !! key with
          | Some v => (<[l := delete key d]> h, Ok v)
          | None => (h, Ok default)
          end
      | None => (h, Raise AttributeError)
      end
  | _ => (h, Raise AttributeError)
  end.

(** [**obj]: the keyword arguments are a fresh copy of the dictionary. *)
Definition kwargs (h : heap) (obj : pyval) : result (gmap string pyval) :=
  match obj with
  | VRef l =>
      match h !! l with
      | Some d => Ok d
      | None => Raise TypeError
      end
  | _ => Raise TypeError
  end.

(** ['%03i' % n]: at least three characters, zero padded after the sign. *)
Definition zero_pad (width : nat) (s : string) : string :=
  (String.concat "" (repeat "0" (width - String.length s)%nat) ++ s)%string.

Definition digits (n : Z) : string :=
  NilZero.string_of_uint (N.to_uint (Z.to_N n)).

Definition format_03i (n : Z) : string :=
  if n <? 0 then ("-" ++ zero_pad 2 (digits (- n)))%string
  else zero_pad 3 (digits n).

(** numpy's rule for one integer index into an axis of length [n]:
    negative indices count from the back, anything else out of range
    raises. *)
Definition np_index (n : nat) (i : Z) : result nat :=
  if decide (0 ≤ i < Z.of_nat n) then Ok (Z.to_nat i)
  else if decide (- Z.of_nat n ≤ i < 0) then Ok (Z.to_nat (Z.of_nat n + i))
  else Raise IndexError.

(** [a[i]] on a one-dimensional array. *)
Definition np_get {A} (a : list A) (i : Z) : result A :=
  k ← np_index (length a) i;
  match a !! k with
  | Some v => Ok v
  | None => Raise IndexError
  end.

(** [a[i] += v] on a one-dimensional array, in place. *)
Definition np_iadd {A} (add : A → A → A) (a : list A) (i : Z) (v : A)
  : result (list A) :=
  k ← np_index (length a) i;
  Ok (alter (λ x, add x v) k a).

(** [a[i][c] += v] on a two-dimensional array: [a[i]] is a view of row
    [i], so the row of [a] itself is updated. *)
Definition np_iadd2 {A} (add : A → A → A) (a : list (list A)) (i c : Z) (v : A)
  : result (list (list A)) :=
  k ← np_index (length a) i;
  match a !! k with
  | Some row =>
      row' ← np_iadd add row c v;
      Ok (<[k := row']> a)
  | None => Raise IndexError
  end.

(** [a[:, c]] on a two-dimensional array given by its rows. *)
Fixpoint collect {A B} (f : A → result B) (l : list A) : result (list B) :=
  match l with
  | [] => Ok []
  | a :: l' =>
      b ← f a;
      bs ← collect f l';
      Ok (b :: bs)
  end.

Definition np_column {A} (a : list (list A)) (c : Z) : result (list A) :=
  collect (λ row, np_get row c) a.

(** [for x in xs: state = body(state, x)], left when the body raises. *)
Fixpoint for_each {A S} (body : S → A → result S) (xs : list A) (s : S)
  : result S :=
  match xs with
  | [] => Ok s
  | x :: xs' =>
      s' ← body s x;
      for_each body xs' s'
  end.

(** [range(n)] *)
Definition range (n : nat) : list nat := seq 0 n.

(** [int(b)] *)
Definition int_of_bool (b : bool) : nat := if b then 1%nat else 0%nat.

(** Stateful code: a computation over the store of dictionaries that may
    raise.  The store it leaves behind is kept on the failure path too. *)
Definition st (A : Type) : Type := heap → heap * result A.

#[export] Instance st_ret : MRet st := λ A a h, (h, Ok a).
#[export] Instance st_bind : MBind st := λ A B k m h,
  match m h with
  | (h', Ok a) => k a h'
  | (h', Raise e) => (h', Raise e)
  end.

(** A computation that only reads the store. *)
Definition reading {A} (f : heap → result A) : st A := λ h, (h, f h).

(** Code that calls into the file system: every library call it makes is
    recorded, in order, next to the outcome. *)
Record file := File { file_name : string; file_mode : string }.

Inductive event : Type :=
  | EvOpen (path mode : string)
  | EvYamlLoad (f : file)
  | EvPickleLoad (f : file)
  | EvClose (f : file)
  | EvReadCsv (path : string).

Definition io (A : Type) : Type := (list event * result A)%type.

#[export] Instance io_ret : MRet io := λ A a, ([], Ok a).
#[export] Instance io_bind : MBind io := λ A B k m,
  match m with
  | (log, Ok a) => let '(log', r) := k a in (log ++ log', r)
  | (log, Raise e) => (log, Raise e)
  end.

(** One library call, recorded. *)
Definition call {A} (ev : event) (r : result A) : io A := ([ev], r).

(** Pure code inside a file-system computation. *)
Definition pure_step {A} (r : result A) : io A := ([], r).

End Py.
Import Py.

(** ** The libraries the helpers call *)

(** [os.path] *)
Class OsPath := {
  os_path_expandvars : string → string;
  os_path_join : string → list string → string;
}.

(** [os.path.expandvars(v)] on a Python value: only strings are paths. *)
Definition expandvars `{OsPath} (v : pyval) : result string :=
  match v with
  | VStr s => Ok (os_path_expandvars s)
  | _ => Raise TypeError
  end.

(** The file system with the parsers that read from it: builtin [open],
    [yaml.load], [pickle.load] and [pandas.read_csv]. *)
Class FileSystem := {
  loaded : Type;
  dataframe : Type;
  builtin_open : string → string → result unit;
  yaml_load : file → result loaded;
  pickle_load : file → result loaded;
  pd_read_csv : string → result dataframe;
}.

(** [with open(path, mode) as f: body]: the file is closed when the body
    is left, also by an exception, and the exception goes on. *)
Definition with_open `{FileSystem} {A} (path mode : string)
    (body : file → io A) : io A :=
  f ← call (EvOpen path mode)
        (_ ← builtin_open path mode; Ok (File path mode));
  let '(log, r) := body f in (log ++ [EvClose f], r).

(** The model factory and torch's checkpoint functions. *)
Class Torch := {
  model : Type;
  state_dict : Type;
  get_model : gmap string pyval → result model;
  torch_load : string → result (gmap string state_dict);
  load_state_dict : model → state_dict → result model;
}.


(** Scalars of the numeric arrays, floating point numbers in the code.
    The helpers compare them, add them up and hand them to elementwise
    functions; nothing more is assumed of them. *)
Class Scalar := {
  F : Type;
  F_lt : F → F → bool;
  F_add : F → F → F;
  F_mul : F → F → F;
  F_zero : F;
  F_half : F;
  F_one : F;
  F_square : F → F;
  F_cos : F → F;
  F_sin : F → F;
  F_sigmoid : F → F;
}.

(** [a > b] *)
Definition F_gt `{Scalar} (a b : F) : bool := F_lt b a.

(** ** numpy *)

Module np.

(** [np.zeros(n)] with the element type's zero. *)
Definition zeros {A} (zero : A) (n : nat) : list A := replicate n zero.

(** [np.concatenate(arrays)] of one-dimensional arrays. *)
Definition concatenate {A} (arrays : list (list A)) : result (list A) :=
  match arrays with
  | [] => Raise ValueError
  | _ => Ok (concat arrays)
  end.

(** [ndarray.cumsum()] *)
Fixpoint cumsum_from (acc : nat) (l : list nat) : list nat :=
  match l with
  | [] => []
  | x :: l' => (acc + x)%nat :: cumsum_from (acc + x) l'
  end.

Definition cumsum (l : list nat) : list nat := cumsum_from 0 l.

(** [ary[st:end]] for non-negative bounds. *)
Definition slice {A} (ary : list A) (st en : nat) : list A :=
  take (en - st) (drop st ary).

(** [np.array_split(ary, sections)] along axis 0, as numpy defines it:
    the first [Ntotal % Nsections] parts hold one element more. *)
Definition array_split {A} (ary : list A) (sections : Z)
  : result (list (list A)) :=
  let Ntotal := length ary in
  if decide (sections ≤ 0) then Raise ValueError
  else
    let Nsections := Z.to_nat sections in
    let Neach_section := (Ntotal / Nsections)%nat in
    let extras := (Ntotal `mod` Nsections)%nat in
    let section_sizes :=
      [0%nat] ++ replicate extras (Neach_section + 1)%nat
              ++ replicate (Nsections - extras) Neach_section in
    let div_points := cumsum section_sizes in
    Ok (map (λ i, slice ary (nth i div_points 0%nat)
                            (nth (i + 1) div_points 0%nat))
            (range Nsections)).

End np.

(** ** numpy: two-dimensional arrays, given by their rows *)

(** [bool(x)] of a scalar: whether it counts as nonzero. *)
Class Truth `{Scalar} := {
  F_bool : F → bool;
}.

Module ndarray.

(** [a.T] of an array whose rows have one length. *)
Definition T {A} (a : list (list A)) : list (list A) :=
  map (λ c, omap (λ row : list A, row !! c) a)
      (seq 0 (default 0%nat (length <$> head a))).

(** The positions, counted from [k], of the entries of a row that count
    as nonzero. *)
Fixpoint nonzero_from {A} (test : A → bool) (k : nat) (row : list A)
  : list Z :=
  match row with
  | [] => []
  | v :: row' =>
      (if test v then [Z.of_nat k] else [])
      ++ nonzero_from test (S k) row'
  end.

(** [np.where(a)[1]]: the column indices of the nonzero entries, row by
    row. *)
Definition where_columns {A} (test : A → bool) (a : list (list A))
  : list Z :=
  concat (map (nonzero_from test 0) a).

(** [a[idx]] for an array [idx] of indices. *)
Definition take {A} (a : list A) (idx : list Z) : result (list A) :=
  collect (np_get a) idx.

(** [a[j, c]] *)
Definition get2 {A} (a : list (list A)) (j c : Z) : result A :=
  row ← np_get a j;
  np_get row c.

End ndarray.

(** ** torch: tensors, datasets and data loaders *)

Module torch.

Record tensor (A : Type) := Tensor { shape : list nat; values : list A }.
Arguments Tensor {A} shape values.
Arguments shape {A} t.
Arguments values {A} t.

(** [t.squeeze(0)]: drops the leading dimension when its size is one. *)
Definition squeeze0 {A} (t : tensor A) : tensor A :=
  match shape t with
  | 1%nat :: s => Tensor s (values t)
  | _ => t
  end.

(** [torch.sigmoid(t)], elementwise. *)
Definition sigmoid `{Scalar} (t : tensor F) : tensor F :=
  Tensor (shape t) (map F_sigmoid (values t)).

(** [torch.arange(n)] *)
Definition arange (n : Z) : result (list Z) :=
  if decide (n < 0) then Raise (LibraryError "arange")
  else Ok (map Z.of_nat (range (Z.to_nat n))).

(** A map-style dataset: [len(d)] and [d[i]]. *)
Record dataset (S : Type) := Dataset {
  ds_len : nat;
  ds_getitem : Z → result S;
}.
Arguments Dataset {S} ds_len ds_getitem.
Arguments ds_len {S} d.
Arguments ds_getitem {S} d i.

(** [torch.utils.data.Subset(d, indices)] *)
Definition Subset {S} (d : dataset S) (indices : list Z) : dataset S :=
  Dataset (length indices) (λ idx, i ← np_get indices idx; ds_getitem d i).

(** [DataLoader(d, batch_size, collate_fn)]: no shuffling, no dropping. *)
Record data_loader (S B : Type) := DataLoader {
  dl_dataset : dataset S;
  dl_batch_size : nat;
  dl_collate_fn : list S → B;
}.
Arguments DataLoader {S B} dl_dataset dl_batch_size dl_collate_fn.
Arguments dl_dataset {S B} d.
Arguments dl_batch_size {S B} d.
Arguments dl_collate_fn {S B} d.

(** The batch sampler over the sequential sampler: indices are gathered
    until [batch_size] of them are there; a last, shorter batch is kept. *)
Fixpoint batch_sampler (batch_size : nat) (sampler : list nat)
    (batch : list nat) : list (list nat) :=
  match sampler with
  | [] => match batch with [] => [] | _ => [batch] end
  | idx :: rest =>
      let batch' := batch ++ [idx] in
      if decide (length batch' = batch_size)
      then batch' :: batch_sampler batch_size rest []
      else batch_sampler batch_size rest batch'
  end.

(** The index batches a loader goes through, in order. *)
Definition index_batches {S B} (dl : data_loader S B) : list (list nat) :=
  batch_sampler (dl_batch_size dl) (range (ds_len (dl_dataset dl))) [].

(** One batch: the samples are fetched and collated. *)
Definition fetch {S B} (dl : data_loader S B) (idxs : list nat) : result B :=
  samples ← collect (λ i, ds_getitem (dl_dataset dl) (Z.of_nat i)) idxs;
  Ok (dl_collate_fn dl samples).

(** [list(dl)]: every batch of one pass over the loader. *)
Definition batches {S B} (dl : data_loader S B) : result (list B) :=
  collect (fetch dl) (index_batches dl).

End torch.
Import torch.

(** The hit-graph datasets with their collate functions: the sparse one
    of [datasets.hitgraphs_sparse] with [torch_geometric]'s [Batch], and
    the dense one of [datasets.hitgraphs]. *)
Class HitGraphs `{Scalar} := {
  graph : Type;
  batch : Type;
  batch_y : batch → tensor F;
  HitGraphDataset : string → result (dataset graph);
  Batch_from_data_list : list graph → batch;
  dense_graph : Type;
  dense_inputs : Type;
  dense_HitGraphDataset : string → result (dataset dense_graph);
  dense_collate_fn : list dense_graph → dense_inputs * tensor F;
}.

(** ** sklearn.metrics *)

(** A score that is a quotient of two counts, [numer / denom]. *)
Record fraction := Fraction { numer : nat; denom : nat }.

(** [sklearn.metrics.accuracy_score(y_true, y_pred)] on boolean arrays,
    after the library's documentation: arrays of different lengths are
    refused, otherwise the score is the number of positions that agree
    over the number of positions. *)
Definition accuracy_score (y_true y_pred : list bool) : result fraction :=
  if decide (length y_true = length y_pred)
  then Ok (Fraction (length (filter (λ p, p.1 = p.2) (zip y_true y_pred)))
                    (length y_true))
  else Raise ValueError.

(** The other metric functions, by name only. *)
Class Sklearn `{Scalar} := {
  score : Type;
  curve : Type;
  precision_score : list bool → list bool → result score;
  recall_score : list bool → list bool → result score;
  precision_recall_curve : list bool → list F → result (curve * curve * curve);
  roc_curve : list bool → list F → result (curve * curve * curve);
  auc : curve → curve → result score;
}.

(** ** matplotlib: what an axes object has been asked to draw *)

Inductive artist (A : Type) : Type :=
  | Scatter (x y : list A) (s : Z) (c : string)
  | Line2D (xs ys : A * A) (fmt c : string) (alpha : option A).
Arguments Scatter {A} x y s c.
Arguments Line2D {A} xs ys fmt c alpha.

(** Lines of the doublet plots: the colour is a named one or the value
    a colour map gives, and a line width may be passed along. *)
Inductive colour (A : Type) : Type :=
  | Named (c : string)
  | Mapped (cmap : string) (v : A).
Arguments Named {A} c.
Arguments Mapped {A} cmap v.

Inductive node_artist (A : Type) : Type :=
  | NodeScatter (x y : list A) (s : Z) (c : string)
  | NodeLine (xs ys : A * A) (fmt : option string) (col : colour A)
             (lineWidth : option Z)
  | Colorbar.
Arguments NodeScatter {A} x y s c.
Arguments NodeLine {A} xs ys fmt col lineWidth.
Arguments Colorbar {A}.

(** Colour maps by name, and what the two axes of [draw_sample] are
    asked to draw: a scatter without a size, and lines in a named colour
    or in the colour a map gives a value. *)
Class Colormaps := {
  colormap : Type;
  plt_get_cmap : string → result colormap;
}.

Inductive sample_colour (A C : Type) : Type :=
  | SNamed (c : string)
  | SMapped (cmap : C) (v : A).
Arguments SNamed {A C} c.
Arguments SMapped {A C} cmap v.

Inductive sample_artist (A C : Type) : Type :=
  | SampleScatter (x y : list A) (c : string)
  | SampleLine (xs ys : A * A) (fmt : string) (col : sample_colour A C)
               (alpha : option A).
Arguments SampleScatter {A C} x y c.
Arguments SampleLine {A C} xs ys fmt col alpha.

(** What a call of [print] is given: strings and counts. *)
Inductive printed : Type :=
  | PStr (s : string)
  | PInt (n : nat).

(** Subtraction of scalars, for [1 - score]. *)
Class Subtraction `{Scalar} := {
  F_sub : F → F → F;
}.

(** ** notebooks/nb_utils.py *)

Module nb_utils.

Section config.
Context `{OsPath}.

Definition get_output_dir (h : heap) (config : pyval) : result string :=
  v ← getitem h config "output_dir";
  expandvars v.

Definition get_input_dir (h : heap) (config : pyval) : result string :=
  data ← getitem h config "data";
  v ← getitem h data "input_dir";
  expandvars v.
End config.

Section loaders.
Context `{OsPath} `{FileSystem}.

Definition load_config_file (config_file : string) : io loaded :=
  with_open config_file "r" (λ f, call (EvYamlLoad f) (yaml_load f)).

Definition load_config_dir (result_dir : string) : io loaded :=
  let config_file := os_path_join result_dir ["config.pkl"] in
  with_open config_file "rb" (λ f, call (EvPickleLoad f) (pickle_load f)).

Definition load_config := load_config_file.

Definition load_summaries (h : heap) (config : pyval) : io dataframe :=
  output_dir ← pure_step (get_output_dir h config);
  let summary_file := os_path_join output_dir ["summaries_0.csv"] in
  call (EvReadCsv summary_file) (pd_read_csv summary_file).
End loaders.

Section load_model.
Context `{OsPath} `{Torch}.

(** The model factory gets the keyword arguments as a copy, and neither
    it nor torch writes to the configuration.  [load_state_dict] updates
    the model it is called on; the model it leaves is the one returned. *)
Definition load_model (config : pyval) (reload_epoch : Z) : st model :=
  model_config ← reading (λ h, getitem h config "model");
  _ ← (λ h, dict_pop h model_config "loss_func" VNone);
  kw ← reading (λ h, kwargs h model_config);
  net ← reading (λ _, get_model kw);
  output_dir ← reading (λ h, get_output_dir h config);
  let checkpoint_file :=
    os_path_join output_dir
      ["checkpoints";
       ("model_checkpoint_" ++ format_03i reload_epoch ++ ".pth.tar")%string] in
  checkpoint ← reading (λ _, torch_load checkpoint_file);
  weights ← reading (λ _,
    match checkpoint !! "model" with
    | Some w => Ok w
    | None => Raise (KeyError "model")
    end);
  reading (λ _, load_state_dict net weights).
End load_model.

Section datasets.
Context `{OsPath} `{HitGraphs}.

Definition get_dataset (h : heap) (config : pyval) : result (dataset graph) :=
  input_dir ← get_input_dir h config;
  HitGraphDataset input_dir.

Definition get_test_data_loader (h : heap) (config : pyval)
    (n_test : option Z) : result (data_loader graph batch) :=
  let n_test := default 16 n_test in
  full_dataset ← get_dataset h config;
  steps ← arange n_test;
  let test_indices :=
    map (λ k, Z.of_nat (ds_len full_dataset) - 1 - k) steps in
  let test_dataset := Subset full_dataset test_indices in
  Ok (DataLoader test_dataset 1 Batch_from_data_list).

Definition get_dense_dataset (h : heap) (config : pyval)
  : result (dataset dense_graph) :=
  input_dir ← get_input_dir h config;
  dense_HitGraphDataset input_dir.

Definition get_dense_test_data_loader (h : heap) (config : pyval)
    (n_test : option Z)
  : result (data_loader dense_graph (dense_inputs * tensor F)) :=
  let n_test := default 16 n_test in
  full_dataset ← get_dense_dataset h config;
  steps ← arange n_test;
  let test_indices :=
    map (λ k, Z.of_nat (ds_len full_dataset) - 1 - k) steps in
  let test_dataset := Subset full_dataset test_indices in
  Ok (DataLoader test_dataset 1 dense_collate_fn).
End datasets.

Section inference.
Context `{HitGraphs}.

(** The loops append to both lists once per batch. *)
Definition apply_model {S} (net : batch → tensor F)
    (data_loader : data_loader S batch)
  : result (list (tensor F) * list (tensor F)) :=
  bs ← batches data_loader;
  Ok (foldl (λ '(preds, targets) b,
               (preds ++ [squeeze0 (sigmoid (net b))],
                targets ++ [squeeze0 (batch_y b)]))
            ([], []) bs).

Definition apply_dense_model {S} (net : dense_inputs → tensor F)
    (data_loader : data_loader S (dense_inputs * tensor F))
  : result (list (tensor F) * list (tensor F)) :=
  bs ← batches data_loader;
  Ok (foldl (λ '(preds, targets) '(inputs, target),
               (preds ++ [squeeze0 (net inputs)],
                targets ++ [squeeze0 target]))
            ([], []) bs).
End inference.

Section metrics.
Context `{Sklearn}.

Record Metrics := {
  accuracy : fraction;
  precision : score;
  recall : score;
  prc_precision : curve;
  prc_recall : curve;
  prc_thresh : curve;
  roc_fpr : curve;
  roc_tpr : curve;
  roc_thresh : curve;
  roc_auc : score;
}.

Definition compute_metrics (preds targets : list (list F))
    (threshold : option F) : result Metrics :=
  let threshold := default F_half threshold in
  preds ← np.concatenate preds;
  targets ← np.concatenate targets;
  let y_pred := map (λ p, F_gt p threshold) preds in
  let y_true := map (λ t, F_gt t threshold) targets in
  accuracy ← accuracy_score y_true y_pred;
  precision ← precision_score y_true y_pred;
  recall ← recall_score y_true y_pred;
  '(prc_precision, prc_recall, prc_thresh) ←
    precision_recall_curve y_true preds;
  '(roc_fpr, roc_tpr, roc_thresh) ← roc_curve y_true preds;
  roc_auc ← auc roc_fpr roc_tpr;
  Ok {| accuracy := accuracy; precision := precision; recall := recall;
        prc_precision := prc_precision; prc_recall := prc_recall;
        prc_thresh := prc_thresh;
        roc_fpr := roc_fpr; roc_tpr := roc_tpr; roc_thresh := roc_thresh;
        roc_auc := roc_auc |}.
End metrics.

Section drawing.
Context `{Scalar}.

(** [ax0.plot([x[edges[0,j]], x[edges[1,j]]],
              [y[edges[0,j]], y[edges[1,j]]], fmt, c=c, alpha=alpha)];
    column [j] of the 2 x E array [edges] holds the two end points. *)
Definition plot_segment (x y : list F) (edges : list (Z * Z)) (j : nat)
    (fmt c : string) (alpha : option F) : result (artist F) :=
  e ← np_get edges (Z.of_nat j);
  x0 ← np_get x e.1;
  x1 ← np_get x e.2;
  y0 ← np_get y e.1;
  y1 ← np_get y e.2;
  Ok (Line2D (x0, x1) (y0, y1) fmt c alpha).

(** The body of the loop over the segments: three tests, one after the
    other. *)
Definition draw_segment (x y : list F) (edges : list (Z * Z))
    (preds labels : list F) (cut : F) (ax0 : list (artist F)) (j : nat)
  : result (list (artist F)) :=
  p ← np_get preds (Z.of_nat j);
  l ← np_get labels (Z.of_nat j);
  ax0 ← (if F_lt p cut && F_gt l cut
         then line ← plot_segment x y edges j "--" "b" None;
              Ok (ax0 ++ [line])
         else Ok ax0);
  ax0 ← (if F_gt p cut && F_lt l cut
         then line ← plot_segment x y edges j "-" "r" (Some p);
              Ok (ax0 ++ [line])
         else Ok ax0);
  if F_gt p cut && F_gt l cut
  then line ← plot_segment x y edges j "-" "k" (Some p);
       Ok (ax0 ++ [line])
  else Ok ax0.

(** The returned axes, as the list of what they were asked to draw. *)
Definition draw_sample_xy (hits : list (list F)) (edges : list (Z * Z))
    (preds labels : list F) (cut : option F) : result (list (artist F)) :=
  let cut := default F_half cut in
  r ← np_column hits 0;
  phi ← np_column hits 1;
  let x := zip_with F_mul r (map F_cos phi) in
  let y := zip_with F_mul r (map F_sin phi) in
  let ax0 := [Scatter x y 2 "k"] in
  for_each (draw_segment x y edges preds labels cut)
           (range (length labels)) ax0.
End drawing.

Section multiplicity.
Context `{Scalar}.

(** The counters are whole numbers held in float arrays; they are
    counted in [nat] here.  [edges.T] is the list of columns. *)

(** The body of the loop of [add_multiplicity]. *)
Definition add_multiplicity_body (cut : F) (acc : list nat * list F)
    (item : (Z * Z) * F) : result (list nat * list F) :=
  let '(mul, w_mul) := acc in
  let '(edge, pred) := item in
  if F_gt pred cut then
    mul ← np_iadd Nat.add mul edge.1 1%nat;
    mul ← np_iadd Nat.add mul edge.2 1%nat;
    w_mul ← np_iadd F_add w_mul edge.1 (F_square pred);
    w_mul ← np_iadd F_add w_mul edge.2 (F_square pred);
    Ok (mul, w_mul)
  else Ok (mul, w_mul).

Definition add_multiplicity {H} (hits : list H) (edges : list (Z * Z))
    (preds : list F) (cut : option F) : result (list nat * list F) :=
  let cut := default F_half cut in
  let mul := np.zeros 0%nat (length hits) in
  let w_mul := np.zeros F_zero (length hits) in
  for_each (add_multiplicity_body cut) (zip edges preds) (mul, w_mul).

(** The body of the loop of [tf_multiplicity]. *)
Definition tf_multiplicity_body (cut : F) (tf_mul : list (list nat))
    (item : (Z * Z) * F * F) : result (list (list nat)) :=
  let '(edge, pred, label) := item in
  (* True positives *)
  tf_mul ← np_iadd2 Nat.add tf_mul edge.1 0
             (int_of_bool (F_gt pred cut && F_gt label cut));
  tf_mul ← np_iadd2 Nat.add tf_mul edge.2 0
             (int_of_bool (F_gt pred cut && F_gt label cut));
  (* False positives *)
  tf_mul ← np_iadd2 Nat.add tf_mul edge.1 1
             (int_of_bool (F_gt pred cut && F_lt label cut));
  tf_mul ← np_iadd2 Nat.add tf_mul edge.2 1
             (int_of_bool (F_gt pred cut && F_lt label cut));
  (* True negatives *)
  tf_mul ← np_iadd2 Nat.add tf_mul edge.1 2
             (int_of_bool (F_lt pred cut && F_lt label cut));
  tf_mul ← np_iadd2 Nat.add tf_mul edge.2 2
             (int_of_bool (F_lt pred cut && F_lt label cut));
  (* False negatives *)
  tf_mul ← np_iadd2 Nat.add tf_mul edge.1 3
             (int_of_bool (F_lt pred cut && F_gt label cut));
  np_iadd2 Nat.add tf_mul edge.1 3
             (int_of_bool (F_lt pred cut && F_gt label cut)).

Definition tf_multiplicity {H} (hits : list H) (edges : list (Z * Z))
    (preds labels : list F) (cut : option F) : result (list (list nat)) :=
  let cut := default F_half cut in
  let tf_mul := np.zeros (np.zeros 0%nat 4) (length hits) in
  for_each (tf_multiplicity_body cut) (zip (zip edges preds) labels) tf_mul.
End multiplicity.

Section triplets.
Context `{Scalar}.

(** [ax0.plot([xi[i], xo[i]], [yi[i], yo[i]], fmt, c=c, alpha=alpha)]:
    the doublet [i], from its inner to its outer hit. *)
Definition plot_doublet (xi yi xo yo : list F) (i : Z) (fmt c : string)
    (alpha : option F) : result (artist F) :=
  x0 ← np_get xi i;
  x1 ← np_get xo i;
  y0 ← np_get yi i;
  y1 ← np_get yo i;
  Ok (Line2D (x0, x1) (y0, y1) fmt c alpha).

(** The body of the loop of [draw_triplets_xy]: only [edges[0,j]] is
    read. *)
Definition draw_triplet (xi yi xo yo : list F) (edges : list (Z * Z))
    (preds labels : list F) (cut : F) (ax0 : list (artist F)) (j : nat)
  : result (list (artist F)) :=
  p ← np_get preds (Z.of_nat j);
  l ← np_get labels (Z.of_nat j);
  ax0 ← (if F_lt p cut && F_gt l cut
         then e ← np_get edges (Z.of_nat j);
              line ← plot_doublet xi yi xo yo e.1 "--" "b" None;
              Ok (ax0 ++ [line])
         else Ok ax0);
  ax0 ← (if F_gt p cut && F_lt l cut
         then e ← np_get edges (Z.of_nat j);
              line ← plot_doublet xi yi xo yo e.1 "-" "r" (Some p);
              Ok (ax0 ++ [line])
         else Ok ax0);
  if F_gt p cut && F_gt l cut
  then e ← np_get edges (Z.of_nat j);
       line ← plot_doublet xi yi xo yo e.1 "-" "k" (Some p);
       Ok (ax0 ++ [line])
  else Ok ax0.

(** The inner and outer hits of the doublets, in the plane. *)
Definition doublet_ends (hits : list (list F))
  : result (list F * list F * list F * list F) :=
  r_i ← np_column hits 0;
  phi_i ← np_column hits 1;
  r_o ← np_column hits 3;
  phi_o ← np_column hits 4;
  Ok (zip_with F_mul r_i (map F_cos phi_i),
      zip_with F_mul r_i (map F_sin phi_i),
      zip_with F_mul r_o (map F_cos phi_o),
      zip_with F_mul r_o (map F_sin phi_o)).

Definition draw_triplets_xy (hits : list (list F)) (edges : list (Z * Z))
    (preds labels : list F) (cut : option F) : result (list (artist F)) :=
  let cut := default F_half cut in
  '(xi, yi, xo, yo) ← doublet_ends hits;
  let ax0 := [Scatter xi yi 2 "k"] in
  for_each (draw_triplet xi yi xo yo edges preds labels cut)
           (range (length labels)) ax0.

(** [ax0.plot(..., fmt, c=c, alpha=scores[i])] for doublet [i]. *)
Definition plot_scored_doublet (xi yi xo yo scores : list F) (i : Z)
    (fmt c : string) : result (artist F) :=
  x0 ← np_get xi i;
  x1 ← np_get xo i;
  y0 ← np_get yi i;
  y1 ← np_get yo i;
  a ← np_get scores i;
  Ok (Line2D (x0, x1) (y0, y1) fmt c (Some a)).

(** The body of the loop of [draw_triplets_xy_score]: both doublets of
    an edge, the false negatives under one test, the others under one
    test each. *)
Definition draw_scored_triplet (xi yi xo yo scores : list F)
    (edges : list (Z * Z)) (preds labels : list F) (cut : F)
    (ax0 : list (artist F)) (j : nat) : result (list (artist F)) :=
  p ← np_get preds (Z.of_nat j);
  l ← np_get labels (Z.of_nat j);
  ax0 ← (if F_lt p cut && F_gt l cut
         then e ← np_get edges (Z.of_nat j);
              line0 ← plot_scored_doublet xi yi xo yo scores e.1 "--" "b";
              line1 ← plot_scored_doublet xi yi xo yo scores e.2 "--" "b";
              Ok (ax0 ++ [line0; line1])
         else Ok ax0);
  ax0 ← (if F_gt p cut && F_lt l cut
         then e ← np_get edges (Z.of_nat j);
              line ← plot_doublet xi yi xo yo e.1 "-" "r" (Some p);
              Ok (ax0 ++ [line])
         else Ok ax0);
  ax0 ← (if F_gt p cut && F_lt l cut
         then e ← np_get edges (Z.of_nat j);
              line ← plot_doublet xi yi xo yo e.2 "-" "r" (Some p);
              Ok (ax0 ++ [line])
         else Ok ax0);
  ax0 ← (if F_gt p cut && F_gt l cut
         then e ← np_get edges (Z.of_nat j);
              line ← plot_scored_doublet xi yi xo yo scores e.1 "-" "k";
              Ok (ax0 ++ [line])
         else Ok ax0);
  if F_gt p cut && F_gt l cut
  then e ← np_get edges (Z.of_nat j);
       line ← plot_scored_doublet xi yi xo yo scores e.2 "-" "k";
       Ok (ax0 ++ [line])
  else Ok ax0.

(** [doublet] is only tested for being [None]. *)
Definition draw_triplets_xy_score {D} (hits : list (list F))
    (edges : list (Z * Z)) (preds labels : list F) (doublet : option D)
    (cut : option F) : result (list (artist F)) :=
  let cut := default F_half cut in
  '(xi, yi, xo, yo) ← doublet_ends hits;
  scores ← np_column hits 6;
  let ax0 := [Scatter xi yi 2 "k"] in
  match doublet with
  | None =>
      for_each (draw_scored_triplet xi yi xo yo scores edges preds labels cut)
               (range (length labels)) ax0
  | Some _ => Ok ax0
  end.
End triplets.

Section node_plots.
Context `{Subtraction}.

(** The body of the loop of [draw_triplets_mul_xy]. *)
Definition draw_mul_node (xi yi xo yo scores : list F) (mul : list nat)
    (ax0 : list (node_artist F)) (j : nat) : result (list (node_artist F)) :=
  m ← np_get mul (Z.of_nat j);
  if (m =? 1)%nat || (m =? 2)%nat then
    x0 ← np_get xi (Z.of_nat j);
    x1 ← np_get xo (Z.of_nat j);
    y0 ← np_get yi (Z.of_nat j);
    y1 ← np_get yo (Z.of_nat j);
    s ← np_get scores (Z.of_nat j);
    Ok (ax0 ++ [NodeLine (x0, x1) (y0, y1) None
                         (Mapped "seismic" (F_sub F_one s)) None])
  else Ok ax0.

(** [labels] is a parameter that is not used. *)
Definition draw_triplets_mul_xy (hits : list (list F))
    (edges : list (Z * Z)) (preds labels : list F) (cut : option F)
  : result (list (node_artist F)) :=
  let cut := default F_half cut in
  '(xi, yi, xo, yo) ← doublet_ends hits;
  scores ← np_column hits 6;
  '(mul, w_mul) ← add_multiplicity hits edges preds (Some cut);
  let ax0 := [NodeScatter xi yi 2 "k"; NodeScatter xo yo 2 "k"] in
  ax0 ← for_each (draw_mul_node xi yi xo yo scores mul)
                 (range (length xi)) ax0;
  Ok (ax0 ++ [Colorbar]).

(** [ax0.plot([xi[j], xo[j]], [yi[j], yo[j]], fmt, c=c, ...)] *)
Definition plot_node (xi yi xo yo : list F) (j : nat) (fmt c : string)
    (lineWidth : option Z) : result (node_artist F) :=
  x0 ← np_get xi (Z.of_nat j);
  x1 ← np_get xo (Z.of_nat j);
  y0 ← np_get yi (Z.of_nat j);
  y1 ← np_get yo (Z.of_nat j);
  Ok (NodeLine (x0, x1) (y0, y1) (Some fmt) (Named c) lineWidth).

(** The body of the loop of [draw_triplets_tf_mul_xy]: six tests on the
    counts of node [j], one after the other.  The counts are read once
    here; the table always has them. *)
Definition draw_tf_node (xi yi xo yo : list F) (tf_mul : list (list nat))
    (lineWidth : Z) (ax0 : list (node_artist F)) (j : nat)
  : result (list (node_artist F)) :=
  row ← np_get tf_mul (Z.of_nat j);
  tp ← np_get row 0;
  fp ← np_get row 1;
  fn ← np_get row 3;
  (* Gold standard positives *)
  ax0 ← (if (0 <? tp)%nat && (fp =? 0)%nat && (fn =? 0)%nat
         then line ← plot_node xi yi xo yo j "-" "#ffc70f" (Some lineWidth);
              Ok (ax0 ++ [line])
         else Ok ax0);
  (* Gold standards with missed tracks *)
  ax0 ← (if (0 <? tp)%nat && (fp =? 0)%nat && (0 <? fn)%nat
         then line ← plot_node xi yi xo yo j "--" "#982e06" None;
              Ok (ax0 ++ [line])
         else Ok ax0);
  (* Silver standard positives *)
  ax0 ← (if (0 <? tp)%nat && (0 <? fp)%nat
         then line ← plot_node xi yi xo yo j "-" "#adadad" None;
              Ok (ax0 ++ [line])
         else Ok ax0);
  (* Totally missed edges *)
  ax0 ← (if (tp =? 0)%nat && (fp =? 0)%nat && (0 <? fn)%nat
         then line ← plot_node xi yi xo yo j "--" "b" None;
              Ok (ax0 ++ [line])
         else Ok ax0);
  (* Totally incorrect edges *)
  ax0 ← (if (tp =? 0)%nat && (0 <? fp)%nat
         then line ← plot_node xi yi xo yo j "-" "r" None;
              Ok (ax0 ++ [line])
         else Ok ax0);
  (* Weird things?? *)
  if (tp =? 0)%nat && (0 <? fp)%nat && (0 <? fn)%nat
  then line ← plot_node xi yi xo yo j ":" "g" None;
       Ok (ax0 ++ [line])
  else Ok ax0.

Definition draw_triplets_tf_mul_xy (hits : list (list F))
    (edges : list (Z * Z)) (preds labels : list F) (cut : option F)
    (lineWidth : option Z) : result (list (node_artist F)) :=
  let cut := default F_half cut in
  let lineWidth := default 2 lineWidth in
  '(xi, yi, xo, yo) ← doublet_ends hits;
  scores ← np_column hits 6;
  tf_mul ← tf_multiplicity hits edges preds labels (Some cut);
  let ax0 := [NodeScatter xi yi 2 "k"; NodeScatter xo yo 2 "k"] in
  for_each (draw_tf_node xi yi xo yo tf_mul lineWidth)
           (range (length xi)) ax0.
End node_plots.

Section antiscore.
Context `{Subtraction}.

(** [ax0.plot(..., fmt, c=c, alpha=(1-scores[i]))] for doublet [i]. *)
Definition plot_antiscored_doublet (xi yi xo yo scores : list F) (i : Z)
    (fmt c : string) : result (artist F) :=
  x0 ← np_get xi i;
  x1 ← np_get xo i;
  y0 ← np_get yi i;
  y1 ← np_get yo i;
  a ← np_get scores i;
  Ok (Line2D (x0, x1) (y0, y1) fmt c (Some (F_sub F_one a))).

(** The body of the loop of [draw_triplets_xy_antiscore]. *)
Definition draw_antiscored_triplet (xi yi xo yo scores : list F)
    (edges : list (Z * Z)) (preds labels : list F) (cut : F)
    (ax0 : list (artist F)) (j : nat) : result (list (artist F)) :=
  p ← np_get preds (Z.of_nat j);
  l ← np_get labels (Z.of_nat j);
  ax0 ← (if F_lt p cut && F_gt l cut
         then e ← np_get edges (Z.of_nat j);
              line0 ← plot_antiscored_doublet xi yi xo yo scores e.1
                        "--" "b";
              line1 ← plot_antiscored_doublet xi yi xo yo scores e.2
                        "--" "b";
              Ok (ax0 ++ [line0; line1])
         else Ok ax0);
  ax0 ← (if F_gt p cut && F_lt l cut
         then e ← np_get edges (Z.of_nat j);
              line ← plot_doublet xi yi xo yo e.1 "-" "r" (Some p);
              Ok (ax0 ++ [line])
         else Ok ax0);
  ax0 ← (if F_gt p cut && F_lt l cut
         then e ← np_get edges (Z.of_nat j);
              line ← plot_doublet xi yi xo yo e.2 "-" "r" (Some p);
              Ok (ax0 ++ [line])
         else Ok ax0);
  ax0 ← (if F_gt p cut && F_gt l cut
         then e ← np_get edges (Z.of_nat j);
              line ← plot_antiscored_doublet xi yi xo yo scores e.1 "-" "k";
              Ok (ax0 ++ [line])
         else Ok ax0);
  if F_gt p cut && F_gt l cut
  then e ← np_get edges (Z.of_nat j);
       line ← plot_antiscored_doublet xi yi xo yo scores e.2 "-" "k";
       Ok (ax0 ++ [line])
  else Ok ax0.

Definition draw_triplets_xy_antiscore {D} (hits : list (list F))
    (edges : list (Z * Z)) (preds labels : list F) (doublet : option D)
    (cut : option F) : result (list (artist F)) :=
  let cut := default F_half cut in
  '(xi, yi, xo, yo) ← doublet_ends hits;
  scores ← np_column hits 6;
  let ax0 := [Scatter xi yi 2 "k"] in
  match doublet with
  | None =>
      for_each (draw_antiscored_triplet xi yi xo yo scores edges preds
                  labels cut)
               (range (length labels)) ax0
  | Some _ => Ok ax0
  end.

(** One test of the loop of [draw_triplets_xy_antiscore_cut_edges]:
    [if <class of the edge> and <scores[edges[k,j]] against the cut>] and
    the plot of that doublet.  The score, and with it the edge, is read
    only for an edge of the class. *)
Definition draw_cut_doublet (xi yi xo yo scores : list F)
    (edges : list (Z * Z)) (j : nat) (cls : bool) (pick : Z * Z → Z)
    (test : F → bool) (fmt c : string) (alpha : option F)
    (ax0 : list (artist F)) : result (list (artist F)) :=
  if cls then
    e ← np_get edges (Z.of_nat j);
    s ← np_get scores (pick e);
    if test s then
      line ← plot_doublet xi yi xo yo (pick e) fmt c alpha;
      Ok (ax0 ++ [line])
    else Ok ax0
  else Ok ax0.

(** The body of its loop: eight tests, one after the other. *)
Definition draw_cut_triplet (xi yi xo yo scores : list F)
    (edges : list (Z * Z)) (preds labels : list F) (cut : F)
    (ax0 : list (artist F)) (j : nat) : result (list (artist F)) :=
  p ← np_get preds (Z.of_nat j);
  l ← np_get labels (Z.of_nat j);
  let above s := F_gt s cut in
  let below s := F_lt s cut in
  let test := draw_cut_doublet xi yi xo yo scores edges j in
  (* False negatives that doublet identifyer would have correctly
     identified *)
  ax0 ← test (F_lt p cut && F_gt l cut) fst above "--" "r" None ax0;
  ax0 ← test (F_lt p cut && F_gt l cut) snd above "--" "r" None ax0;
  (* True negatives that doublet identifyer would have incorrectly
     identified *)
  ax0 ← test (F_lt p cut && F_lt l cut) fst above "--" "k" None ax0;
  ax0 ← test (F_lt p cut && F_lt l cut) snd above "--" "k" None ax0;
  (* False positives that doublet identifyer would have correctly
     identified *)
  ax0 ← test (F_gt p cut && F_lt l cut) fst below "-" "r" (Some p) ax0;
  ax0 ← test (F_gt p cut && F_lt l cut) snd below "-" "r" (Some p) ax0;
  (* True positives that doublet identifyer would have incorrectly
     identified *)
  ax0 ← test (F_gt p cut && F_gt l cut) fst below "-" "k" None ax0;
  test (F_gt p cut && F_gt l cut) snd below "-" "k" None ax0.

Definition draw_triplets_xy_antiscore_cut_edges {D} (hits : list (list F))
    (edges : list (Z * Z)) (preds labels : list F) (doublet : option D)
    (cut : option F) : result (list (artist F)) :=
  let cut := default F_half cut in
  '(xi, yi, xo, yo) ← doublet_ends hits;
  scores ← np_column hits 6;
  let ax0 := [Scatter xi yi 2 "k"] in
  match doublet with
  | None =>
      for_each (draw_cut_triplet xi yi xo yo scores edges preds labels cut)
               (range (length labels)) ax0
  | Some _ => Ok ax0
  end.

(** The body of the loop of [draw_triplets_xy_antiscore_cut]: six tests
    on the counts and the score of doublet [j], each with its line and
    its counter.  The counts and the score are read once here; the
    arrays always have them. *)
Definition draw_cut_node (xi yi xo yo scores : list F)
    (tf_mul : list (list nat)) (cut : F)
    (acc : list (node_artist F) * nat * nat) (j : nat)
  : result (list (node_artist F) * nat * nat) :=
  let '(ax0, w, l) := acc in
  row ← np_get tf_mul (Z.of_nat j);
  tp ← np_get row 0;
  fp ← np_get row 1;
  tn ← np_get row 2;
  fn ← np_get row 3;
  s ← np_get scores (Z.of_nat j);
  (* Gold standards that the doublet model would have incorrectly
     identified *)
  '(ax0, w) ← (if (0 <? tp)%nat && (fp =? 0)%nat && (fn =? 0)%nat
                  && F_lt s cut
               then line ← plot_node xi yi xo yo j "-" "k" None;
                    Ok (ax0 ++ [line], (w + 1)%nat)
               else Ok (ax0, w));
  (* Gold standards with missed tracks that the doublet model would have
     incorrectly identified *)
  '(ax0, w) ← (if (0 <? tp)%nat && (fp =? 0)%nat && (0 <? fn)%nat
                  && F_lt s cut
               then line ← plot_node xi yi xo yo j "--" "k" None;
                    Ok (ax0 ++ [line], (w + 1)%nat)
               else Ok (ax0, w));
  (* Silver standard positives that the doublet model would have
     incorrectly identified *)
  '(ax0, w) ← (if (0 <? tp)%nat && (0 <? fp)%nat && F_lt s cut
               then line ← plot_node xi yi xo yo j "-." "k" None;
                    Ok (ax0 ++ [line], (w + 1)%nat)
               else Ok (ax0, w));
  (* Totally missed edges that the doublet model would have correctly
     identified *)
  '(ax0, l) ← (if (tp =? 0)%nat && (fp =? 0)%nat && (0 <? fn)%nat
                  && F_gt s cut
               then line ← plot_node xi yi xo yo j "--" "r" None;
                    Ok (ax0 ++ [line], (l + 1)%nat)
               else Ok (ax0, l));
  (* Totally incorrect edges that the doublet model would have correctly
     identified *)
  '(ax0, l) ← (if (tp =? 0)%nat && (0 <? fp)%nat && F_lt s cut
               then line ← plot_node xi yi xo yo j "-" "r" None;
                    Ok (ax0 ++ [line], (l + 1)%nat)
               else Ok (ax0, l));
  (* True negatives that the doublet model would have incorrectly
     identified *)
  if (tp =? 0)%nat && (fp =? 0)%nat && (0 <? tn)%nat && (fn =? 0)%nat
     && F_gt s cut
  then line ← plot_node xi yi xo yo j ":" "k" None;
       Ok (ax0 ++ [line], (w + 1)%nat, l)
  else Ok (ax0, w, l).

(** The axes and what the one call of [print] at the end is given. *)
Definition draw_triplets_xy_antiscore_cut (hits : list (list F))
    (edges : list (Z * Z)) (preds labels : list F) (cut : option F)
  : result (list (node_artist F) * list printed) :=
  let cut := default F_half cut in
  '(xi, yi, xo, yo) ← doublet_ends hits;
  scores ← np_column hits 6;
  tf_mul ← tf_multiplicity hits edges preds labels (Some cut);
  let ax0 := [NodeScatter xi yi 2 "k"; NodeScatter xo yo 2 "k"] in
  '(ax0, w, l) ← for_each (draw_cut_node xi yi xo yo scores tf_mul cut)
                          (range (length xi)) (ax0, 0%nat, 0%nat);
  Ok (ax0, [PStr "Overperforms by: "; PInt w;
            PStr ", underperforms by: "; PInt l; PStr "."]).
End antiscore.

Section sample.
Context `{Truth} `{Colormaps}.

(** [dict(c='k', alpha=float(y[j]))] or [dict(c=cmap(float(y[j])))] *)
Definition seg_args (alpha_labels : bool) (cmap : colormap) (yj : F)
  : sample_colour F colormap * option F :=
  if alpha_labels then (SNamed "k", Some yj)
  else (SMapped cmap yj, None).

(** The body of the loop of [draw_sample]: one line on each of the two
    axes. *)
Definition draw_sample_segment (feats_o feats_i : list (list F))
    (y : list F) (alpha_labels : bool) (cmap : colormap)
    (axes : list (sample_artist F colormap)
            * list (sample_artist F colormap)) (j : nat)
  : result (list (sample_artist F colormap)
            * list (sample_artist F colormap)) :=
  let '(ax0, ax1) := axes in
  yj ← np_get y (Z.of_nat j);
  let '(col, alpha) := seg_args alpha_labels cmap yj in
  o2 ← ndarray.get2 feats_o (Z.of_nat j) 2;
  i2 ← ndarray.get2 feats_i (Z.of_nat j) 2;
  o0 ← ndarray.get2 feats_o (Z.of_nat j) 0;
  i0 ← ndarray.get2 feats_i (Z.of_nat j) 0;
  let ax0 := ax0 ++ [SampleLine (o2, i2) (o0, i0) "-" col alpha] in
  o1 ← ndarray.get2 feats_o (Z.of_nat j) 1;
  i1 ← ndarray.get2 feats_i (Z.of_nat j) 1;
  o0 ← ndarray.get2 feats_o (Z.of_nat j) 0;
  i0 ← ndarray.get2 feats_i (Z.of_nat j) 0;
  Ok (ax0, ax1 ++ [SampleLine (o1, i1) (o0, i0) "-" col alpha]).

(** What the two axes have been asked to draw. *)
Definition draw_sample (X Ri Ro : list (list F)) (y : list F)
    (cmap : option string) (alpha_labels : option bool)
  : result (list (sample_artist F colormap)
            * list (sample_artist F colormap)) :=
  let cmap := default "bwr_r" cmap in
  let alpha_labels := default true alpha_labels in
  (* Select the i/o node features for each segment *)
  feats_o ← ndarray.take X (ndarray.where_columns F_bool (ndarray.T Ri));
  feats_i ← ndarray.take X (ndarray.where_columns F_bool (ndarray.T Ro));
  (* Prepare the figure *)
  cmap ← plt_get_cmap cmap;
  (* Draw the hits (r, phi, z) *)
  z ← np_column X 2;
  r ← np_column X 0;
  let ax0 := [SampleScatter z r "k"] in
  phi ← np_column X 1;
  r ← np_column X 0;
  let ax1 := [SampleScatter phi r "k"] in
  (* Draw the segments *)
  for_each (draw_sample_segment feats_o feats_i y alpha_labels cmap)
           (range (length y)) (ax0, ax1).
End sample.

End nb_utils.

(** ** utils/data_utils.py *)

Module data_utils.

Section config.
Context `{OsPath}.

Definition get_output_dir (h : heap) (config : pyval) : result string :=
  v ← getitem h config "output_dir";
  expandvars v.

Definition get_input_dir (h : heap) (config : pyval) : result string :=
  data ← getitem h config "data";
  v ← getitem h data "input_dir";
  expandvars v.
End config.

Section loaders.
Context `{OsPath} `{FileSystem}.

Definition load_config_dir (result_dir : string) : io loaded :=
  let config_file := os_path_join result_dir ["config.pkl"] in
  with_open config_file "rb" (λ f, call (EvPickleLoad f) (pickle_load f)).

Definition load_summaries (h : heap) (config : pyval) : io dataframe :=
  output_dir ← pure_step (get_output_dir h config);
  let summary_file := os_path_join output_dir ["summaries_0.csv"] in
  call (EvReadCsv summary_file) (pd_read_csv summary_file).
End loaders.

Section datasets.
Context `{OsPath} `{HitGraphs}.

Definition get_dataset (h : heap) (config : pyval) : result (dataset graph) :=
  input_dir ← get_input_dir h config;
  HitGraphDataset input_dir.

(** [parts[task]] on a Python list follows the same index rule. *)
Definition get_data_loader (h : heap) (config : pyval) (n_tasks task : Z)
  : result (data_loader graph batch * list Z) :=
  full_dataset ← get_dataset h config;
  full_indices ← arange (Z.of_nat (ds_len full_dataset));
  parts ← np.array_split full_indices n_tasks;
  sub_indices ← np_get parts task;
  let sub_dataset := Subset full_dataset sub_indices in
  Ok (DataLoader sub_dataset 1 Batch_from_data_list, sub_indices).
End datasets.

End data_utils.

(** ** Vocabulary of the properties *)

(** A computation that leaves the store as it found it. *)
Definition preserves_store {A} (m : st A) : Prop := ∀ h, (m h).1 = h.

(** An index that addresses an axis of length [n], numpy style. *)
Definition in_bounds (n : nat) (i : Z) : Prop :=
  - Z.of_nat n ≤ i < Z.of_nat n.

#[global] Instance in_bounds_dec (n : nat) (i : Z) : Decision (in_bounds n i).
Proof. unfold in_bounds. apply _. Defined.

(** Whether end point [i] of an edge is node [k] of [n] nodes. *)
Definition is_node (n k : nat) (i : Z) : bool :=
  match np_index n i with
  | Ok k' => bool_decide (k' = k)
  | Raise _ => false
  end.

Section classes.
Context `{Scalar}.

(** The segment an edge is to be drawn with, by the class of its
    prediction and label under the cut: dashed blue for a false negative,
    red for a false positive, black for a true positive, both with the
    prediction as opacity, and none otherwise. *)
Definition styled_line (xs ys : F * F) (p l cut : F) : list (artist F) :=
  if F_lt p cut && F_gt l cut then [Line2D xs ys "--" "b" None]
  else if F_gt p cut && F_lt l cut then [Line2D xs ys "-" "r" (Some p)]
  else if F_gt p cut && F_gt l cut then [Line2D xs ys "-" "k" (Some p)]
  else [].

(** The predictions above the cut of the edges at node [k], once per end
    point at [k], in the order of the edges. *)
Definition incident_preds (n k : nat) (cut : F) (edges : list (Z * Z))
    (preds : list F) : list F :=
  flat_map (λ '(edge, pred),
              if F_gt pred cut then
                (if is_node n k edge.1 then [pred] else [])
                ++ (if is_node n k edge.2 then [pred] else [])
              else [])
           (zip edges preds).

(** [acc += pred**2] for each of the given predictions, in order. *)
Definition sum_squares (acc : F) (ps : list F) : F :=
  foldl (λ a p, F_add a (F_square p)) acc ps.
End classes.

Section edge_classes.
Context `{Scalar}.

(** The four classes of an edge under the cut. *)
Definition is_tp (cut p l : F) : bool := F_gt p cut && F_gt l cut.
Definition is_fp (cut p l : F) : bool := F_gt p cut && F_lt l cut.
Definition is_tn (cut p l : F) : bool := F_lt p cut && F_lt l cut.
Definition is_fn (cut p l : F) : bool := F_lt p cut && F_gt l cut.

(** How many of the two end points of an edge are node [k]. *)
Definition ends_at (n k : nat) (e : Z * Z) : nat :=
  (int_of_bool (is_node n k e.1) + int_of_bool (is_node n k e.2))%nat.

(** Twice, when the first end point of the edge is node [k]. *)
Definition first_end_twice (n k : nat) (e : Z * Z) : nat :=
  (2 * int_of_bool (is_node n k e.1))%nat.

(** The sum over the edges of a class of what each weighs. *)
Definition class_ends (cls : F → F → bool) (weight : Z * Z → nat)
    (edges : list (Z * Z)) (preds labels : list F) : nat :=
  sum_list_with (λ '(e, p, l), if cls p l then weight e else 0%nat)
                (zip (zip edges preds) labels).
End edge_classes.

Section doublets.
Context `{Scalar}.

(** The two ends of the line of doublet [i]: from its inner hit to its
    outer hit. *)
Definition doublet_at (xi yi xo yo : list F) (i : Z)
  : result ((F * F) * (F * F)) :=
  x0 ← np_get xi i;
  x1 ← np_get xo i;
  y0 ← np_get yi i;
  y1 ← np_get yo i;
  Ok ((x0, x1), (y0, y1)).
End doublets.

(** Whether an artist is a line of the named colour [c], and how many
    of them are. *)
Definition has_colour {A} (c : string) (a : node_artist A) : bool :=
  match a with
  | NodeLine _ _ _ (Named c') _ => bool_decide (c' = c)
  | _ => false
  end.

Definition lines_of_colour {A} (c : string) (ax : list (node_artist A))
  : nat :=
  length (filter (λ a, has_colour c a = true) ax).

(** An artist with the opacity [alpha], when it has one, replaced by
    [f alpha], on the lines that are not red. *)
Definition map_opacity {A} (f : A → A) (a : artist A) : artist A :=
  match a with
  | Line2D xs ys fmt c (Some alpha) =>
      if decide (c = "r") then a else Line2D xs ys fmt c (Some (f alpha))
  | _ => a
  end.

(** The sizes [np.array_split] gives the parts of [total] elements. *)
Definition split_sizes (total sections : nat) : list nat :=
  replicate (total `mod` sections) (total / sections + 1)%nat
  ++ replicate (sections - total `mod` sections) (total / sections)%nat.

(** ** Concrete libraries and inputs for the worked examples *)

Module demo.

(** Paths without variables, joined with a slash. *)
Definition os_path : OsPath :=
  {| os_path_expandvars := λ s, s;
     os_path_join := λ a ps, String.concat "/" (a :: ps) |}.

(** A file system on which every call succeeds. *)
Definition fs_all_ok : FileSystem :=
  {| loaded := unit;
     dataframe := unit;
     builtin_open := λ _ _, Ok ();
     yaml_load := λ _, Ok ();
     pickle_load := λ _, Ok ();
     pd_read_csv := λ _, Ok () |}.

(** A model factory and checkpoints that are always there. *)
Definition torch_all_ok : Torch :=
  {| model := unit;
     state_dict := unit;
     get_model := λ _, Ok ();
     torch_load := λ _, Ok {[ "model" := () ]};
     load_state_dict := λ _ _, Ok () |}.

(** [config = {'output_dir': '/out', 'data': {'input_dir': '/in'},
               'model': {'name': 'gnn', 'loss_func': 'bce'}}] *)
Definition config_heap : heap :=
  {[ 1%positive := {[ "output_dir" := VStr "/out";
                      "data" := (VRef 2%positive);
                      "model" := (VRef 3%positive) ]};
     2%positive := {[ "input_dir" := VStr "/in" ]};
     3%positive := {[ "name" := VStr "gnn"; "loss_func" := VStr "bce" ]} ]}.

Definition config : pyval := VRef 1%positive.

(** [config = {}] *)
Definition empty_config_heap : heap := {[ 1%positive := ∅ ]}.

(** Rational numbers as scalars.  The sigmoid is the piecewise linear
    one, cut off just inside the unit interval; cosine and sine are cut
    after their first terms. *)
Definition Q_lt (a b : Q) : bool := negb (Qle_bool b a).

Definition Q_sigmoid (x : Q) : Q :=
  if Qle_bool x (-2) then 1 # 1000
  else if Qle_bool 2 x then 999 # 1000
  else (1 # 2) + x * (1 # 4).

Definition rationals : Scalar :=
  {| F := Q;
     F_lt := Q_lt;
     F_add := Qplus;
     F_mul := Qmult;
     F_zero := 0;
     F_half := 1 # 2;
     F_one := 1;
     F_square := λ x, x * x;
     F_cos := λ x, 1 - x * x / 2;
     F_sin := λ x, x;
     F_sigmoid := Q_sigmoid |}%Q.

(** Twenty graphs, each given by the labels of its two edges; a batch
    is the list of its graphs, with the labels in one row. *)
Definition graph_labels (i : nat) : list Q :=
  [if Nat.even i then 1 else 0; 1]%Q.

Definition twenty_graphs {B} (wrap : list Q → B) : dataset B :=
  Dataset 20 (λ i, k ← np_index 20 i; Ok (wrap (graph_labels k))).

Definition row (l : list Q) : tensor (@F rationals) :=
  Tensor [1%nat; length l] l.

Definition hit_graphs : HitGraphs (H := rationals) :=
  {| graph := list Q;
     batch := list (list Q);
     batch_y := λ b, row (concat b);
     HitGraphDataset := λ _, Ok (twenty_graphs (λ l, l));
     Batch_from_data_list := λ gs, gs;
     dense_graph := list Q * tensor (@F rationals);
     dense_inputs := list (list Q);
     dense_HitGraphDataset := λ _, Ok (twenty_graphs (λ l, (l, row l)));
     dense_collate_fn := λ gs, (gs.*1, row (concat (gs.*1))) |}.

(** Three hits by radius and angle, four edges between them, with
    predictions and labels that make them a false negative, a false
    positive, a true positive and a true negative. *)
Definition hits : list (list Q) := [[1; 0]; [2; 0]; [1; 1]]%Q.
Definition edges : list (Z * Z) := [(0, 1); (1, 2); (0, 2); (2, 0)].
Definition preds : list Q := [1 # 5; 9 # 10; 4 # 5; 1 # 10]%Q.
Definition labels : list Q := [1; 0; 1; 0]%Q.

(** Metric functions for the examples: precision and recall as the
    quotients of counts, no curves. *)
Definition count_where (P : bool → bool → bool) (y_true y_pred : list bool)
  : nat :=
  length (filter (λ q, P q.1 q.2 = true) (zip y_true y_pred)).

Definition sklearn : Sklearn (H := rationals) :=
  {| score := fraction;
     curve := unit;
     precision_score := λ y_true y_pred,
       Ok (Fraction (count_where andb y_true y_pred)
                    (count_where (λ _ p, p) y_true y_pred));
     recall_score := λ y_true y_pred,
       Ok (Fraction (count_where andb y_true y_pred)
                    (count_where (λ t _, t) y_true y_pred));
     precision_recall_curve := λ _ _, Ok ((), (), ());
     roc_curve := λ _ _, Ok ((), (), ());
     auc := λ _ _, Ok (Fraction 0 0) |}.

(** A loader over the first two graphs, one graph per batch. *)
Definition two_batches : data_loader (list Q) (list (list Q)) :=
  DataLoader (Subset (twenty_graphs (λ l, l)) [0; 1]) 1 (λ gs, gs).

Definition two_dense_batches
  : data_loader (list Q * tensor (@F rationals))
                (list (list Q) * tensor (@F rationals)) :=
  DataLoader (Subset (twenty_graphs (λ l, (l, row l))) [0; 1]) 1
             (λ gs, (gs.*1, row (concat (gs.*1)))).

(** A network that scores an edge by its label. *)
Definition net (b : list (list Q)) : tensor (@F rationals) :=
  row (map (λ y, 4 * y - 2)%Q (concat b)).

(** Three doublets, each by radius, angle and height of its inner and of
    its outer hit and by its score. *)
Definition doublets : list (list Q) :=
  [[1; 0; 0; 2; 0; 0; 9 # 10];
   [2; 0; 0; 3; 0; 0; 1 # 5];
   [1; 1; 0; 2; 1; 0; 1 # 2]]%Q.

(** Two edges over three hits, by the hit each goes into and the hit
    it comes out of, and their labels. *)
Definition truth : Truth (H := rationals) :=
  {| F_bool := (λ x, negb (Qeq_bool x 0)) : @F rationals → bool |}.

Definition colormaps : Colormaps :=
  {| colormap := string; plt_get_cmap := λ name, Ok name |}.

Definition sample_Ri : list (list Q) := [[0; 0]; [1; 0]; [0; 1]]%Q.
Definition sample_Ro : list (list Q) := [[1; 0]; [0; 1]; [0; 0]]%Q.
Definition sample_y : list Q := [1; 0]%Q.

(** Single precision: rationals rounded to a significand of 24 bits,
    ties to even, after every operation.  The range of the exponent is
    not modelled; the numbers of the examples are far from its ends. *)
Definition round_half_even (q : Q) : Z :=
  let f := Qfloor q in
  match (q - inject_Z f ?= 1 # 2)%Q with
  | Lt => f
  | Gt => f + 1
  | Eq => if Z.even f then f else f + 1
  end.

Definition round32 (q : Q) : Q :=
  if Qeq_bool q 0 then 0%Q
  else
    let a := Qabs q in
    let e0 := Z.log2 (Qnum a) - Z.log2 (Zpos (Qden a)) in
    (* 2^e <= a < 2^(e+1) *)
    let e := if Qle_bool (2 ^ e0) a then e0 else e0 - 1 in
    let m := round_half_even (a * 2 ^ (23 - e)) in
    Qred ((if Qle_bool 0 q then 1 else -1) * inject_Z m * 2 ^ (e - 23))%Q.

(** The exponential, well beyond single precision before it is rounded:
    a power of [e] for the whole part of the argument and fourteen
    terms of the series for the rest. *)
Definition euler : Q := 566827 # 208524.

Fixpoint exp_series (x : Q) (k : positive) (n : nat) : Q :=
  match n with
  | O => 1
  | S n' => 1 + x / inject_Z (Zpos k) * exp_series x (Pos.succ k) n'
  end%Q.

Definition exp32 (x : Q) : Q :=
  let n := Qfloor x in
  round32 (euler ^ n * exp_series (x - inject_Z n) 1 14)%Q.

(** [torch.sigmoid] on a float tensor: [1 / (1 + exp(-x))]. *)
Definition sigmoid32 (x : Q) : Q :=
  round32 (1 / round32 (1 + exp32 (- x)))%Q.

Definition single_precision : Scalar :=
  {| F := Q;
     F_lt := Q_lt;
     F_add := λ a b, round32 (a + b);
     F_mul := λ a b, round32 (a * b);
     F_zero := 0;
     F_half := 1 # 2;
     F_one := 1;
     F_square := λ x, round32 (x * x);
     F_cos := λ x, round32 (1 - x * x / 2);
     F_sin := λ x, round32 x;
     F_sigmoid := sigmoid32 |}%Q.

(** The twenty graphs again, with tensors in single precision, and a
    network that is sure of every edge: 17 for a label of one and -17
    for a label of zero. *)
Definition row32 (l : list Q) : tensor (@F single_precision) :=
  Tensor [1%nat; length l] l.

Definition hit_graphs32 : HitGraphs (H := single_precision) :=
  {| graph := list Q;
     batch := list (list Q);
     batch_y := λ b, row32 (concat b);
     HitGraphDataset := λ _, Ok (twenty_graphs (λ l, l));
     Batch_from_data_list := λ gs, gs;
     dense_graph := list Q * tensor (@F single_precision);
     dense_inputs := list (list Q);
     dense_HitGraphDataset := λ _, Ok (twenty_graphs (λ l, (l, row32 l)));
     dense_collate_fn := λ gs, (gs.*1, row32 (concat (gs.*1))) |}.

Definition sure_net (b : list (list Q)) : tensor (@F single_precision) :=
  row32 (map (λ y, 34 * y - 17)%Q (concat b)).

Definition subtraction : Subtraction (H := rationals) :=
  {| F_sub := Qminus : @F rationals → @F rationals → @F rationals |}.

End demo.

(** * Properties *)

(** ** Configuration accessors *)

Section config_facts.
Context `{OsPath}.

Lemma getitem_Some h l d k v :
  h !! l = Some d → d !! k = Some v → getitem h (VRef l) k = Ok v.
Proof. intros Hl Hk. unfold getitem. by rewrite Hl, Hk. Qed.

Lemma getitem_None h l d k :
  h !! l = Some d → d !! k = None → getitem h (VRef l) k = Raise (KeyError k).
Proof. intros Hl Hk. unfold getitem. by rewrite Hl, Hk. Qed.

(** C3: on a configuration holding ['output_dir'] the accessor returns
    [os.path.expandvars] of the value, and likewise for ['input_dir']
    under ['data']; a missing key raises [KeyError] for that key; the
    two modules define the same functions. *)
Theorem config_accessors (h : heap) (l : loc) (d : gmap string pyval)
    (Hconfig : h !! l = Some d) :
  (∀ v, d !! "output_dir" = Some v →
        nb_utils.get_output_dir h (VRef l) = expandvars v)
  ∧ (d !! "output_dir" = None →
     nb_utils.get_output_dir h (VRef l) = Raise (KeyError "output_dir"))
  ∧ (∀ l' d' v, d !! "data" = Some (VRef l') → h !! l' = Some d' →
        d' !! "input_dir" = Some v →
        nb_utils.get_input_dir h (VRef l) = expandvars v)
  ∧ (d !! "data" = None →
     nb_utils.get_input_dir h (VRef l) = Raise (KeyError "data"))
  ∧ (∀ l' d', d !! "data" = Some (VRef l') → h !! l' = Some d' →
        d' !! "input_dir" = None →
        nb_utils.get_input_dir h (VRef l) = Raise (KeyError "input_dir"))
  ∧ data_utils.get_output_dir = nb_utils.get_output_dir
  ∧ data_utils.get_input_dir = nb_utils.get_input_dir.
Proof.
  repeat split.
  - intros v Hv. unfold nb_utils.get_output_dir.
    by rewrite (getitem_Some _ _ _ _ _ Hconfig Hv).
  - intros Hv. unfold nb_utils.get_output_dir.
    by rewrite (getitem_None _ _ _ _ Hconfig Hv).
  - intros l' d' v Hdata Hl' Hv. unfold nb_utils.get_input_dir, getitem.
    rewrite Hconfig, Hdata. simpl. by rewrite Hl', Hv.
  - intros Hdata. unfold nb_utils.get_input_dir.
    by rewrite (getitem_None _ _ _ _ Hconfig Hdata).
  - intros l' d' Hdata Hl' Hv. unfold nb_utils.get_input_dir, getitem.
    rewrite Hconfig, Hdata. simpl. by rewrite Hl', Hv.
Qed.
End config_facts.

Lemma config_accessors_witness :
  nb_utils.get_output_dir (H := demo.os_path) demo.config_heap demo.config
    = Ok "/out"
  ∧ nb_utils.get_input_dir (H := demo.os_path) demo.config_heap demo.config
    = Ok "/in".
Proof.
  pose proof (config_accessors (H := demo.os_path) demo.config_heap 1%positive
    {[ "output_dir" := VStr "/out"; "data" := (VRef 2%positive); "model" := (VRef 3%positive) ]}
    eq_refl) as (Hout & _ & Hin & _).
  split.
  - exact (Hout (VStr "/out") eq_refl).
  - exact (Hin 2%positive {[ "input_dir" := VStr "/in" ]} (VStr "/in")
             eq_refl eq_refl eq_refl).
Defined.

(** ** Loading a model changes the configuration it is given *)

Section store_facts.

Lemma reading_preserves {A} (f : heap → result A) :
  preserves_store (reading f).
Proof. by intros h. Qed.

Lemma bind_preserves {A B} (m : st A) (k : A → st B) :
  preserves_store m → (∀ a, preserves_store (k a)) →
  preserves_store (m ≫= k).
Proof.
  intros Hm Hk h. unfold mbind, st_bind.
  specialize (Hm h). destruct (m h) as [h1 [a|e]]; simpl in *; subst.
  - apply Hk.
  - done.
Qed.

Lemma bind_store {A B} (m : st A) (k : A → st B) h :
  (∀ a, preserves_store (k a)) → ((m ≫= k) h).1 = (m h).1.
Proof.
  intros Hk. unfold mbind, st_bind.
  destruct (m h) as [h1 [a|e]]; simpl; [apply Hk | done].
Qed.

End store_facts.

Section load_model_facts.
Context `{OsPath} `{Torch}.

(** The store [load_model] leaves behind is the one its [pop] leaves
    behind: nothing after the [pop] writes to it, whether the model is
    then built and restored or an exception ends the call. *)
Lemma load_model_store (config : pyval) (reload_epoch : Z) (h : heap) :
  (nb_utils.load_model config reload_epoch h).1 =
    match getitem h config "model" with
    | Ok model_config => (dict_pop h model_config "loss_func" VNone).1
    | Raise _ => h
    end.
Proof.
  unfold nb_utils.load_model.
  unfold mbind at 1, st_bind at 1, reading at 1.
  destruct (getitem h config "model") as [model_config|e]; [|done].
  rewrite bind_store; [done|].
  intros _. repeat (apply bind_preserves; [apply reading_preserves|intros ?]).
  apply reading_preserves.
Qed.

(** C9: with ['loss_func'] in [config['model']], the call removes that
    key from the dictionary object itself and changes nothing else in
    the store: every other key of [config['model']] and every key of
    every other dictionary is as before, and a later read through the
    same [config] sees the key gone. *)
Theorem load_model_pops_loss_func (h : heap) (lc lm : loc)
    (dc dm : gmap string pyval) (v : pyval) (reload_epoch : Z)
    (Hconfig : h !! lc = Some dc)
    (Hmodel : dc !! "model" = Some (VRef lm))
    (Hdict : h !! lm = Some dm)
    (Hloss : dm !! "loss_func" = Some v) :
  let h' := (nb_utils.load_model (VRef lc) reload_epoch h).1 in
  h' = <[lm := delete "loss_func" dm]> h
  ∧ getitem h' (VRef lc) "model" = Ok (VRef lm)
  ∧ getitem h' (VRef lm) "loss_func" = Raise (KeyError "loss_func")
  ∧ (∀ k, k ≠ "loss_func" → getitem h' (VRef lm) k = getitem h (VRef lm) k)
  ∧ (∀ k, k ≠ "loss_func" → getitem h' (VRef lc) k = getitem h (VRef lc) k)
  ∧ (∀ l, l ≠ lm → h' !! l = h !! l).
Proof.
  intros h'.
  assert (Hh' : h' = <[lm := delete "loss_func" dm]> h).
  { unfold h'. rewrite load_model_store.
    rewrite (getitem_Some _ _ _ _ _ Hconfig Hmodel).
    unfold dict_pop. by rewrite Hdict, Hloss. }
  assert (Hlm : ∀ k, k ≠ "loss_func" →
            getitem h' (VRef lm) k = getitem h (VRef lm) k).
  { intros k Hk. unfold getitem. rewrite Hh', lookup_insert_eq, Hdict.
    by rewrite lookup_delete_ne. }
  split; [done|]. repeat split.
  - destruct (decide (lc = lm)) as [->|Hne].
    + rewrite Hlm by done. simplify_eq. by apply getitem_Some with dc.
    + unfold getitem. rewrite Hh', lookup_insert_ne by done.
      by rewrite Hconfig, Hmodel.
  - unfold getitem. rewrite Hh', lookup_insert_eq.
    by rewrite lookup_delete_eq.
  - done.
  - intros k Hk. destruct (decide (lc = lm)) as [->|Hne]; [by apply Hlm|].
    unfold getitem. by rewrite Hh', lookup_insert_ne.
  - intros l Hl. by rewrite Hh', lookup_insert_ne.
Qed.
End load_model_facts.

Lemma load_model_pops_loss_func_witness :
  let h' := (nb_utils.load_model (H := demo.os_path) (H0 := demo.torch_all_ok)
               demo.config 5 demo.config_heap).1 in
  getitem h' demo.config "model" = Ok (VRef 3%positive)
  ∧ getitem h' (VRef 3%positive) "loss_func" = Raise (KeyError "loss_func")
  ∧ getitem h' (VRef 3%positive) "name" = Ok (VStr "gnn").
Proof.
  pose proof (load_model_pops_loss_func (H := demo.os_path)
    (H0 := demo.torch_all_ok) demo.config_heap 1%positive 3%positive
    {[ "output_dir" := VStr "/out"; "data" := VRef 2%positive;
       "model" := VRef 3%positive ]}
    {[ "name" := VStr "gnn"; "loss_func" := VStr "bce" ]}
    (VStr "bce") 5 eq_refl eq_refl eq_refl eq_refl)
    as (_ & Hmodel & Hgone & Hkept & _).
  split; [exact Hmodel|]. split; [exact Hgone|].
  rewrite Hkept by done. reflexivity.
Defined.

(** ** The artifact loaders pass errors on *)

Section loader_facts.
Context `{OsPath} `{FileSystem}.

Lemma with_open_unfold {A} (path mode : string) (body : file → io A) :
  with_open path mode body =
    match builtin_open path mode with
    | Ok _ =>
        (EvOpen path mode :: (body (File path mode)).1
           ++ [EvClose (File path mode)],
         (body (File path mode)).2)
    | Raise e => ([EvOpen path mode], Raise e)
    end.
Proof.
  unfold with_open, call, mbind, io_bind, result_bind.
  destruct (builtin_open path mode) as [[]|e]; [|done].
  by destruct (body (File path mode)).
Qed.

Lemma with_open_raises {A} (path mode : string) (parse : file → result A)
    (ev : file → event) (e : exn) :
  (with_open path mode (λ f, call (ev f) (parse f))).2 = Raise e
  ↔ builtin_open path mode = Raise e
    ∨ (builtin_open path mode = Ok () ∧ parse (File path mode) = Raise e).
Proof.
  rewrite with_open_unfold.
  destruct (builtin_open path mode) as [[]|e']; simpl; intuition congruence.
Qed.

Lemma with_open_returns {A} (path mode : string) (parse : file → result A)
    (ev : file → event) (a : A) :
  (with_open path mode (λ f, call (ev f) (parse f))).2 = Ok a
  ↔ builtin_open path mode = Ok () ∧ parse (File path mode) = Ok a.
Proof.
  rewrite with_open_unfold.
  destruct (builtin_open path mode) as [[]|e']; simpl; intuition congruence.
Qed.

Lemma with_open_log {A} (path mode : string) (parse : file → result A)
    (ev : file → event) :
  (with_open path mode (λ f, call (ev f) (parse f))).1 =
    match builtin_open path mode with
    | Ok _ => [EvOpen path mode; ev (File path mode);
               EvClose (File path mode)]
    | Raise _ => [EvOpen path mode]
    end.
Proof.
  rewrite with_open_unfold. by destruct (builtin_open path mode).
Qed.

(** C5, amended: [load_config_file] and [load_config_dir] raise exactly
    when [open] or the parser raises, [load_summaries] exactly when the
    lookup of the output directory in its configuration or [read_csv]
    raises; the exception is the one of that call, a returned value is
    the one the parser returned, and the calls made are the attempted
    library calls and the closing of the opened file. *)
Theorem loaders_propagate_errors (config_file result_dir : string)
    (h : heap) (config : pyval) (e : exn) :
  let pkl := os_path_join result_dir ["config.pkl"] in
  let csv d := os_path_join d ["summaries_0.csv"] in
  ((nb_utils.load_config_file config_file).2 = Raise e
     ↔ builtin_open config_file "r" = Raise e
       ∨ (builtin_open config_file "r" = Ok ()
          ∧ yaml_load (File config_file "r") = Raise e))
  ∧ ((nb_utils.load_config_dir result_dir).2 = Raise e
     ↔ builtin_open pkl "rb" = Raise e
       ∨ (builtin_open pkl "rb" = Ok ()
          ∧ pickle_load (File pkl "rb") = Raise e))
  ∧ ((nb_utils.load_summaries h config).2 = Raise e
     ↔ nb_utils.get_output_dir h config = Raise e
       ∨ (∃ d, nb_utils.get_output_dir h config = Ok d
               ∧ pd_read_csv (csv d) = Raise e))
  ∧ (∀ v, (nb_utils.load_config_file config_file).2 = Ok v
          ↔ builtin_open config_file "r" = Ok ()
            ∧ yaml_load (File config_file "r") = Ok v)
  ∧ (∀ v, (nb_utils.load_config_dir result_dir).2 = Ok v
          ↔ builtin_open pkl "rb" = Ok ()
            ∧ pickle_load (File pkl "rb") = Ok v)
  ∧ (∀ v, (nb_utils.load_summaries h config).2 = Ok v
          ↔ ∃ d, nb_utils.get_output_dir h config = Ok d
                 ∧ pd_read_csv (csv d) = Ok v)
  ∧ (nb_utils.load_config_file config_file).1 =
      match builtin_open config_file "r" with
      | Ok _ => [EvOpen config_file "r"; EvYamlLoad (File config_file "r");
                 EvClose (File config_file "r")]
      | Raise _ => [EvOpen config_file "r"]
      end
  ∧ (nb_utils.load_config_dir result_dir).1 =
      match builtin_open pkl "rb" with
      | Ok _ => [EvOpen pkl "rb"; EvPickleLoad (File pkl "rb");
                 EvClose (File pkl "rb")]
      | Raise _ => [EvOpen pkl "rb"]
      end
  ∧ (nb_utils.load_summaries h config).1 =
      match nb_utils.get_output_dir h config with
      | Ok d => [EvReadCsv (csv d)]
      | Raise _ => []
      end
  ∧ data_utils.load_config_dir result_dir
      = nb_utils.load_config_dir result_dir
  ∧ data_utils.load_summaries h config = nb_utils.load_summaries h config.
Proof.
  intros pkl csv.
  split; [apply with_open_raises|].
  split; [apply with_open_raises|].
  split.
  { unfold nb_utils.load_summaries, pure_step, call, mbind, io_bind.
    destruct (nb_utils.get_output_dir h config) as [d|e']; simpl;
      split; eauto; intros; destruct_or?; destruct_and?;
      try match goal with Hd : ∃ _, _ |- _ => destruct Hd as (? & ? & ?) end;
      simplify_eq; eauto. }
  split; [intros v; apply with_open_returns|].
  split; [intros v; apply with_open_returns|].
  split.
  { intros v.
    unfold nb_utils.load_summaries, pure_step, call, mbind, io_bind.
    destruct (nb_utils.get_output_dir h config) as [d|e']; simpl;
      split; eauto; intros; destruct_or?; destruct_and?;
      try match goal with Hd : ∃ _, _ |- _ => destruct Hd as (? & ? & ?) end;
      simplify_eq; eauto. }
  split; [apply with_open_log|].
  split; [apply with_open_log|].
  split; [|done].
  unfold nb_utils.load_summaries, pure_step, call, mbind, io_bind.
  by destruct (nb_utils.get_output_dir h config).
Qed.
End loader_facts.

(** C5 as stated fails: on a file system where no call ever raises,
    [load_summaries] of a configuration without ['output_dir'] raises
    [KeyError], and [read_csv] has not even been called. *)
Lemma load_summaries_raises_by_itself :
  (∀ path mode, ¬ raises (builtin_open (FileSystem := demo.fs_all_ok) path mode))
  ∧ (∀ path, ¬ raises (pd_read_csv (FileSystem := demo.fs_all_ok) path))
  ∧ nb_utils.load_summaries (H := demo.os_path) (H0 := demo.fs_all_ok)
      demo.empty_config_heap demo.config
    = ([], Raise (KeyError "output_dir")).
Proof.
  split; [intros path mode []|]. split; [intros path []|]. reflexivity.
Qed.

(** ** Index rules and loops *)

Section index_facts.
Context {A B : Type}.
Implicit Types (l : list A) (i : nat).

Lemma np_index_nat (n i : nat) :
  (i < n)%nat → np_index n (Z.of_nat i) = Ok i.
Proof.
  intros Hi. unfold np_index.
  rewrite decide_True by lia. by rewrite Nat2Z.id.
Qed.

Lemma np_index_Ok (n : nat) (z : Z) (k : nat) :
  np_index n z = Ok k → (k < n)%nat.
Proof.
  unfold np_index. repeat case_decide; intros; simplify_eq; lia.
Qed.

Lemma np_index_valid (n : nat) (z : Z) :
  - Z.of_nat n ≤ z < Z.of_nat n → ∃ k, np_index n z = Ok k ∧ (k < n)%nat.
Proof.
  intros Hz. unfold np_index.
  destruct (decide (0 ≤ z < Z.of_nat n)).
  - eexists; split; [done|lia].
  - rewrite decide_True by lia. eexists; split; [done|lia].
Qed.

Lemma np_get_nat l i (v : A) :
  l !! i = Some v → np_get l (Z.of_nat i) = Ok v.
Proof.
  intros Hv. unfold np_get.
  rewrite np_index_nat by (by eapply lookup_lt_Some). simpl.
  by rewrite Hv.
Qed.

Lemma collect_ext (f g : A → result B) l :
  (∀ a, a ∈ l → f a = g a) → collect f l = collect g l.
Proof.
  induction l as [|a l IH]; intros Hfg; [done|]. simpl.
  rewrite Hfg by left. rewrite IH; [done|].
  intros a' Ha'. apply Hfg. by right.
Qed.

Lemma collect_map {C} (f : A → result B) (g : C → A) (l : list C) :
  collect f (map g l) = collect (λ c, f (g c)) l.
Proof. induction l as [|c l IH]; [done|]. simpl. by rewrite IH. Qed.

Lemma collect_Ok (f : A → B) l :
  collect (λ a, Ok (f a)) l = Ok (map f l).
Proof. induction l as [|a l IH]; [done|]. simpl. by rewrite IH. Qed.

Lemma collect_length (f : A → result B) l (bs : list B) :
  collect f l = Ok bs → length bs = length l.
Proof.
  revert bs. induction l as [|a l IH]; intros bs; simpl.
  - by intros [= <-].
  - destruct (f a) as [b|]; [|done]. simpl.
    destruct (collect f l) as [bs'|]; [|done]. simpl.
    intros [= <-]. simpl. by rewrite (IH bs').
Qed.
End index_facts.

(** ** Data loaders over the end of the dataset *)

Section loader_shape.
Context {S B : Type}.

Lemma batch_sampler_one (sampler : list nat) :
  batch_sampler 1 sampler [] = map (λ i, [i]) sampler.
Proof.
  induction sampler as [|i sampler IH]; [done|].
  cbn [batch_sampler app length]. rewrite decide_True by done.
  by rewrite IH.
Qed.

Lemma fetch_one (dl : data_loader S B) (i : nat) :
  fetch dl [i] =
    (s ← ds_getitem (dl_dataset dl) (Z.of_nat i);
     Ok (dl_collate_fn dl [s])).
Proof.
  unfold fetch. simpl.
  by destruct (ds_getitem (dl_dataset dl) (Z.of_nat i)).
Qed.

Lemma collect_through_indices (d : dataset S) (collate_fn : list S → B)
    (indices pre : list Z) :
  collect (λ i, idx ← np_get (pre ++ indices) (Z.of_nat i);
                s ← ds_getitem d idx; Ok (collate_fn [s]))
          (seq (length pre) (length indices))
  = collect (λ idx, s ← ds_getitem d idx; Ok (collate_fn [s])) indices.
Proof.
  revert pre. induction indices as [|idx indices' IH]; intros pre; [done|].
  simpl. rewrite (np_get_nat _ _ idx).
  2:{ rewrite lookup_app_r by lia. by rewrite Nat.sub_diag. }
  simpl. destruct (ds_getitem d idx) as [s|e]; [|done]. simpl.
  rewrite (cons_middle idx pre indices'), (assoc_L (++)).
  specialize (IH (pre ++ [idx])). rewrite length_app in IH. simpl in IH.
  rewrite Nat.add_1_r in IH. by rewrite IH.
Qed.

(** A loader of batch size one over a subset goes through the chosen
    indices one by one, in their order. *)
Lemma subset_loader_batches (d : dataset S) (indices : list Z)
    (collate_fn : list S → B) :
  let dl := DataLoader (Subset d indices) 1 collate_fn in
  index_batches dl = map (λ i, [i]) (range (length indices))
  ∧ batches dl =
      collect (λ idx, s ← ds_getitem d idx; Ok (collate_fn [s])) indices.
Proof.
  intros dl. unfold batches, index_batches. simpl.
  rewrite batch_sampler_one. split; [done|].
  rewrite collect_map.
  rewrite <- (collect_through_indices d collate_fn indices []).
  apply collect_ext. intros i _. rewrite fetch_one. simpl.
  by destruct (np_get indices (Z.of_nat i)).
Qed.
End loader_shape.

Section test_loader_facts.
Context `{OsPath} `{HitGraphs}.

Lemma arange_nonneg (n : Z) :
  0 ≤ n → arange n = Ok (map Z.of_nat (range (Z.to_nat n))).
Proof. intros Hn. unfold arange. by rewrite decide_False by lia. Qed.

(** The loader both functions build, over any dataset. *)
Lemma loader_from_the_back {S B} (ds : dataset S) (collate_fn : list S → B)
    (n : nat) :
  (n ≤ ds_len ds)%nat →
  let test_indices :=
    map (λ k, Z.of_nat (ds_len ds) - 1 - k) (map Z.of_nat (range n)) in
  let dl := DataLoader (Subset ds test_indices) 1 collate_fn in
  index_batches dl = map (λ i, [i]) (range n)
  ∧ (∀ i, (i < n)%nat →
       (ds_len ds - 1 - i < ds_len ds)%nat
       ∧ ds_getitem (dl_dataset dl) (Z.of_nat i)
         = ds_getitem ds (Z.of_nat (ds_len ds - 1 - i)))
  ∧ batches dl =
      collect (λ k, s ← ds_getitem ds (Z.of_nat (ds_len ds - 1 - k));
                    Ok (collate_fn [s]))
              (range n).
Proof.
  intros Hn test_indices dl.
  destruct (subset_loader_batches ds test_indices collate_fn)
    as [Hidx Hbatches].
  assert (Hlen : length test_indices = n).
  { unfold test_indices, range. by rewrite !length_map, length_seq. }
  assert (Hat : ∀ i, (i < n)%nat →
            test_indices !! i = Some (Z.of_nat (ds_len ds - 1 - i))).
  { intros i Hi. unfold test_indices, range.
    rewrite !list_lookup_fmap, lookup_seq_lt by done. simpl.
    f_equal. lia. }
  split; [by rewrite <- Hlen|]. split.
  - intros i Hi. split; [lia|]. simpl.
    by rewrite (np_get_nat _ _ _ (Hat i Hi)).
  - fold dl in Hbatches. rewrite Hbatches. unfold test_indices.
    rewrite !collect_map. apply collect_ext.
    intros k Hk%elem_of_seq.
    by replace (Z.of_nat (ds_len ds) - 1 - Z.of_nat k)
      with (Z.of_nat (ds_len ds - 1 - k)) by lia.
Qed.

(** C7: when the dataset holds at least [n_test] samples, the loader
    has batch size one and goes through exactly [n_test] batches, the
    [i]-th of them made of the one sample at position [N - 1 - i]: the
    last [n_test] samples, from the back; the same holds for the dense
    loader, and [n_test] is 16 when it is not given. *)
Theorem test_loaders_take_from_the_back (h : heap) (config : pyval)
    (n_test : option Z) (Hn : 0 ≤ default 16 n_test) :
  let n := Z.to_nat (default 16 n_test) in
  (∀ ds, nb_utils.get_dataset h config = Ok ds → (n ≤ ds_len ds)%nat →
     ∃ dl, nb_utils.get_test_data_loader h config n_test = Ok dl
       ∧ dl_batch_size dl = 1%nat
       ∧ index_batches dl = map (λ i, [i]) (range n)
       ∧ (∀ i, (i < n)%nat →
            (ds_len ds - 1 - i < ds_len ds)%nat
            ∧ ds_getitem (dl_dataset dl) (Z.of_nat i)
              = ds_getitem ds (Z.of_nat (ds_len ds - 1 - i)))
       ∧ batches dl =
           collect (λ k, s ← ds_getitem ds (Z.of_nat (ds_len ds - 1 - k));
                         Ok (Batch_from_data_list [s]))
                   (range n))
  ∧ (∀ ds, nb_utils.get_dense_dataset h config = Ok ds →
       (n ≤ ds_len ds)%nat →
     ∃ dl, nb_utils.get_dense_test_data_loader h config n_test = Ok dl
       ∧ dl_batch_size dl = 1%nat
       ∧ index_batches dl = map (λ i, [i]) (range n)
       ∧ (∀ i, (i < n)%nat →
            (ds_len ds - 1 - i < ds_len ds)%nat
            ∧ ds_getitem (dl_dataset dl) (Z.of_nat i)
              = ds_getitem ds (Z.of_nat (ds_len ds - 1 - i)))
       ∧ batches dl =
           collect (λ k, s ← ds_getitem ds (Z.of_nat (ds_len ds - 1 - k));
                         Ok (dense_collate_fn [s]))
                   (range n))
  ∧ nb_utils.get_test_data_loader h config None
    = nb_utils.get_test_data_loader h config (Some 16)
  ∧ nb_utils.get_dense_test_data_loader h config None
    = nb_utils.get_dense_test_data_loader h config (Some 16).
Proof.
  intros n. split; [|split; [|done]].
  - intros ds Hds Hlen. unfold nb_utils.get_test_data_loader.
    rewrite Hds. simpl. rewrite arange_nonneg by done. simpl.
    eexists. split; [done|]. split; [done|].
    apply (loader_from_the_back ds Batch_from_data_list n Hlen).
  - intros ds Hds Hlen. unfold nb_utils.get_dense_test_data_loader.
    rewrite Hds. simpl. rewrite arange_nonneg by done. simpl.
    eexists. split; [done|]. split; [done|].
    apply (loader_from_the_back ds dense_collate_fn n Hlen).
Qed.
End test_loader_facts.

Lemma test_loaders_take_from_the_back_witness :
  ∃ dl, nb_utils.get_test_data_loader (H := demo.os_path)
          (H1 := demo.hit_graphs) demo.config_heap demo.config (Some 3)
        = Ok dl
    ∧ index_batches dl = [[0]; [1]; [2]]%nat
    ∧ batches dl =
        Ok [[demo.graph_labels 19]; [demo.graph_labels 18];
            [demo.graph_labels 17]].
Proof.
  destruct (test_loaders_take_from_the_back (H := demo.os_path)
    (H1 := demo.hit_graphs) demo.config_heap demo.config (Some 3))
    as [Hsparse _]; [simpl; lia|].
  destruct (Hsparse (demo.twenty_graphs (λ l, l)) eq_refl)
    as (dl & Hdl & _ & Hidx & _ & Hbatches); [simpl; lia|].
  exists dl. split; [exact Hdl|]. split; [exact Hidx|].
  rewrite Hbatches. reflexivity.
Defined.


(** ** Applying a model to the batches of a loader *)

Section inference_facts.
Context `{HitGraphs}.

Lemma foldl_append_pairs {A P T} (f : A → P) (g : A → T) (bs : list A)
    (p0 : list P) (t0 : list T) :
  foldl (λ '(preds, targets) b, (preds ++ [f b], targets ++ [g b]))
        (p0, t0) bs
  = (p0 ++ map f bs, t0 ++ map g bs).
Proof.
  revert p0 t0. induction bs as [|b bs IH]; intros p0 t0; simpl.
  - by rewrite !app_nil_r.
  - rewrite IH. by rewrite <- !(assoc_L (++)).
Qed.

Lemma foldl_append_dense {I T P P'} (f : I → P) (g : T → P')
    (bs : list (I * T)) (p0 : list P) (t0 : list P') :
  foldl (λ '(preds, targets) '(inputs, target),
           (preds ++ [f inputs], targets ++ [g target]))
        (p0, t0) bs
  = (p0 ++ map (λ b, f b.1) bs, t0 ++ map (λ b, g b.2) bs).
Proof.
  revert p0 t0. induction bs as [|[inputs target] bs IH]; intros p0 t0; simpl.
  - by rewrite !app_nil_r.
  - rewrite IH. by rewrite <- !(assoc_L (++)).
Qed.

Lemma apply_model_map {S} (net : batch → tensor F)
    (dl : data_loader S batch) (bs : list batch) :
  batches dl = Ok bs →
  nb_utils.apply_model net dl
  = Ok (map (λ b, squeeze0 (sigmoid (net b))) bs,
        map (λ b, squeeze0 (batch_y b)) bs).
Proof.
  intros Hbs. unfold nb_utils.apply_model. rewrite Hbs. simpl.
  by rewrite (foldl_append_pairs
    (λ b, squeeze0 (sigmoid (net b))) (λ b, squeeze0 (batch_y b))).
Qed.

Lemma apply_dense_model_map {S} (net : dense_inputs → tensor F)
    (dl : data_loader S (dense_inputs * tensor F))
    (bs : list (dense_inputs * tensor F)) :
  batches dl = Ok bs →
  nb_utils.apply_dense_model net dl
  = Ok (map (λ b, squeeze0 (net b.1)) bs, map (λ b, squeeze0 b.2) bs).
Proof.
  intros Hbs. unfold nb_utils.apply_dense_model. rewrite Hbs. simpl.
  exact (f_equal Ok (foldl_append_dense
    (λ inputs, squeeze0 (net inputs)) squeeze0 bs [] [])).
Qed.

Lemma values_squeeze0 {A} (t : tensor A) : values (squeeze0 t) = values t.
Proof. unfold squeeze0. by destruct (shape t) as [|[|[|?]] ?]. Qed.

(** C6, amended: over a loader that yields the batches [bs],
    [apply_model] returns two lists with one element per batch, in the
    order of the batches: the sigmoid of the model's output on the
    batch, and the batch's [y], both without their leading axis.  Every
    predicted value is the library's sigmoid of an entry of the model's
    output on a batch of the loader, and so wherever that sigmoid puts
    it: nothing else bounds it.  [apply_dense_model] does the same on
    the pairs of a dense loader, without the sigmoid. *)
Theorem apply_model_pairs {S S'} (net : batch → tensor F)
    (dense_net : dense_inputs → tensor F)
    (dl : data_loader S batch)
    (dense_dl : data_loader S' (dense_inputs * tensor F))
    (bs : list batch) (dense_bs : list (dense_inputs * tensor F))
    (Hbs : batches dl = Ok bs) (Hdense : batches dense_dl = Ok dense_bs) :
  (∃ preds targets,
     nb_utils.apply_model net dl = Ok (preds, targets)
     ∧ length preds = length bs ∧ length targets = length bs
     ∧ length bs = length (index_batches dl)
     ∧ (∀ i b, bs !! i = Some b →
          preds !! i = Some (squeeze0 (sigmoid (net b)))
          ∧ targets !! i = Some (squeeze0 (batch_y b)))
     ∧ (∀ i b, bs !! i = Some b →
          values <$> preds !! i = Some (map F_sigmoid (values (net b)))
          ∧ values <$> targets !! i = Some (values (batch_y b)))
     ∧ (∀ p v, p ∈ preds → v ∈ values p →
          ∃ b x, b ∈ bs ∧ x ∈ values (net b) ∧ v = F_sigmoid x))
  ∧ (∃ preds targets,
       nb_utils.apply_dense_model dense_net dense_dl = Ok (preds, targets)
       ∧ length preds = length dense_bs ∧ length targets = length dense_bs
       ∧ length dense_bs = length (index_batches dense_dl)
       ∧ (∀ i inputs target, dense_bs !! i = Some (inputs, target) →
            preds !! i = Some (squeeze0 (dense_net inputs))
            ∧ targets !! i = Some (squeeze0 target))).
Proof.
  split.
  - eexists _, _. split; [by apply apply_model_map|].
    rewrite !length_map. split; [done|]. split; [done|].
    split; [by apply (collect_length (fetch dl))|]. split; [|split].
    + intros i b Hb. rewrite !list_lookup_fmap, Hb. done.
    + intros i b Hb. rewrite !list_lookup_fmap, Hb. simpl.
      by rewrite !values_squeeze0.
    + intros p v Hp Hv.
      apply list_elem_of_fmap in Hp as (b & -> & Hb).
      rewrite values_squeeze0 in Hv. simpl in Hv.
      apply list_elem_of_fmap in Hv as (x & -> & Hx). by exists b, x.
  - eexists _, _. split; [by apply apply_dense_model_map|].
    rewrite !length_map. split; [done|]. split; [done|].
    split; [by apply (collect_length (fetch dense_dl))|].
    intros i inputs target Hb. rewrite !list_lookup_fmap, Hb. done.
Qed.
End inference_facts.

Lemma apply_model_pairs_witness :
  ∃ preds targets,
    nb_utils.apply_model (H0 := demo.hit_graphs) demo.net demo.two_batches
      = Ok (preds, targets)
    ∧ length preds = 2%nat ∧ length targets = 2%nat
    ∧ ∀ p v, p ∈ preds → v ∈ values p →
        ∃ b x, b ∈ [[demo.graph_labels 0]; [demo.graph_labels 1]]
               ∧ x ∈ values (demo.net b) ∧ v = demo.Q_sigmoid x.
Proof.
  destruct (apply_model_pairs (H0 := demo.hit_graphs) demo.net demo.net
    demo.two_batches demo.two_dense_batches
    [[demo.graph_labels 0]; [demo.graph_labels 1]]
    [([demo.graph_labels 0], demo.row (demo.graph_labels 0));
     ([demo.graph_labels 1], demo.row (demo.graph_labels 1))]
    eq_refl eq_refl)
    as [(preds & targets & Hrun & Hp & Ht & _ & _ & _ & Hvalues) _].
  exists preds, targets. split; [exact Hrun|].
  split; [exact Hp|]. split; [exact Ht|exact Hvalues].
Defined.

(** C6, as it was claimed: a predicted value need not be strictly below
    one.  In single precision [1 + exp(-17)] rounds to 1, so the sigmoid
    of 17 is 1, and the prediction for an edge the network scores 17 is
    equal to one. *)
Lemma apply_model_prediction_saturates :
  demo.sigmoid32 17 = 1%Q
  ∧ ∃ preds targets,
      nb_utils.apply_model (H0 := demo.hit_graphs32) demo.sure_net
        demo.two_batches = Ok (preds, targets)
      ∧ values <$> preds !! 0%nat = Some [1; 1]%Q
      ∧ ¬ (∀ p v, p ∈ preds → v ∈ values p →
             F_lt (Scalar := demo.single_precision) F_zero v = true
             ∧ F_lt (Scalar := demo.single_precision) v F_one = true).
Proof.
  split; [by vm_compute|].
  eexists _, _. split; [by vm_compute|]. split; [reflexivity|].
  intros Hrange.
  destruct (Hrange (Tensor [2%nat] [1; 1]%Q) 1%Q) as [_ Hlt].
  - by left.
  - by left.
  - by vm_compute in Hlt.
Qed.


(** ** Decision-threshold metrics *)

Section metrics_facts.
Context `{Sklearn}.

Lemma length_filter_fmap {A B} (f : A → B) (P : B → Prop)
    `{!∀ b, Decision (P b)} (l : list A) :
  length (filter P (f <$> l)) = length (filter (λ a, P (f a)) l).
Proof.
  induction l as [|a l IH]; [done|]. rewrite fmap_cons, !filter_cons.
  destruct (decide (P (f a))); simpl; by rewrite IH.
Qed.

(** Counting agreeing pairs is counting agreeing positions. *)
Lemma agreeing_pairs_positions (a b : list bool) :
  length a = length b →
  length (filter (λ p, p.1 = p.2) (zip a b))
  = length (filter (λ i, a !! i = b !! i) (range (length a))).
Proof.
  revert b. induction a as [|u a IH]; intros [|v b] Hlen; try done.
  simpl in Hlen. unfold range in *. cbn [length zip zip_with seq].
  specialize (IH b ltac:(lia)).
  rewrite <- fmap_S_seq, !filter_cons. simpl.
  destruct (decide (u = v)) as [->|Hne].
  - rewrite decide_True by done. simpl.
    by rewrite length_filter_fmap, IH.
  - rewrite decide_False by congruence.
    by rewrite length_filter_fmap, IH.
Qed.

Lemma concat_same_length {A B} (ps : list (list A)) (ts : list (list B)) :
  Forall2 (λ p t, length p = length t) ps ts →
  length (concat ps) = length (concat ts).
Proof.
  induction 1 as [|p t ps ts Hpt _ IH]; [done|].
  simpl. rewrite !length_app. lia.
Qed.

(** C4: for a non-empty list of prediction arrays and target arrays of
    the same shapes, both concatenations are compared with the threshold
    by the same strict [>]; the accuracy of a returned result is the
    number of positions at which the two boolean arrays agree over the
    number of positions, precision and recall are those of the same
    pair, the call returns whenever the other metric functions do, and
    the threshold is 0.5 when it is not given. *)
Theorem compute_metrics_thresholded (preds targets : list (list F))
    (threshold : option F)
    (Hne : preds ≠ [])
    (Hshape : Forall2 (λ p t, length p = length t) preds targets) :
  let thr := default F_half threshold in
  let y_pred := map (λ p, F_gt p thr) (concat preds) in
  let y_true := map (λ t, F_gt t thr) (concat targets) in
  let agree :=
    length (filter (λ i, y_true !! i = y_pred !! i)
                   (range (length y_true))) in
  length y_true = length y_pred
  ∧ (∀ m, nb_utils.compute_metrics preds targets threshold = Ok m →
       nb_utils.accuracy m = Fraction agree (length y_true)
       ∧ precision_score y_true y_pred = Ok (nb_utils.precision m)
       ∧ recall_score y_true y_pred = Ok (nb_utils.recall m))
  ∧ (∀ pr rc prc roc a,
       precision_score y_true y_pred = Ok pr →
       recall_score y_true y_pred = Ok rc →
       precision_recall_curve y_true (concat preds) = Ok prc →
       roc_curve y_true (concat preds) = Ok roc →
       auc roc.1.1 roc.1.2 = Ok a →
       ∃ m, nb_utils.compute_metrics preds targets threshold = Ok m
            ∧ nb_utils.accuracy m = Fraction agree (length y_true)
            ∧ nb_utils.precision m = pr ∧ nb_utils.recall m = rc)
  ∧ nb_utils.compute_metrics preds targets None
    = nb_utils.compute_metrics preds targets (Some F_half).
Proof.
  intros thr y_pred y_true agree.
  assert (Hlen : length y_true = length y_pred).
  { unfold y_true, y_pred. rewrite !length_map. symmetry.
    by apply concat_same_length. }
  assert (Htargets : targets ≠ []).
  { intros ->. by inversion Hshape. }
  assert (Hacc : accuracy_score y_true y_pred
                 = Ok (Fraction agree (length y_true))).
  { unfold accuracy_score. rewrite decide_True by done.
    unfold agree. by rewrite agreeing_pairs_positions. }
  assert (Hunfold : nb_utils.compute_metrics preds targets threshold =
    (precision ← precision_score y_true y_pred;
     recall ← recall_score y_true y_pred;
     '(prc_precision, prc_recall, prc_thresh) ←
       precision_recall_curve y_true (concat preds);
     '(roc_fpr, roc_tpr, roc_thresh) ← roc_curve y_true (concat preds);
     roc_auc ← auc roc_fpr roc_tpr;
     Ok {| nb_utils.accuracy := Fraction agree (length y_true);
           nb_utils.precision := precision; nb_utils.recall := recall;
           nb_utils.prc_precision := prc_precision;
           nb_utils.prc_recall := prc_recall;
           nb_utils.prc_thresh := prc_thresh;
           nb_utils.roc_fpr := roc_fpr; nb_utils.roc_tpr := roc_tpr;
           nb_utils.roc_thresh := roc_thresh;
           nb_utils.roc_auc := roc_auc |})).
  { unfold nb_utils.compute_metrics, np.concatenate.
    destruct preds as [|p0 preds']; [done|].
    destruct targets as [|t0 targets']; [done|].
    cbn [mbind result_bind]. fold thr. fold y_pred. fold y_true.
    by rewrite Hacc. }
  split; [done|]. split; [|split; [|done]].
  - intros m. rewrite Hunfold.
    destruct (precision_score y_true y_pred) as [pr|]; [|done].
    destruct (recall_score y_true y_pred) as [rc|]; [|done].
    destruct (precision_recall_curve y_true (concat preds))
      as [[[? ?] ?]|]; [|done].
    destruct (roc_curve y_true (concat preds)) as [[[fpr tpr] ?]|]; [|done].
    cbn [mbind result_bind].
    destruct (auc fpr tpr) as [a|]; [|done].
    by intros [= <-].
  - intros pr rc [[? ?] ?] [[fpr tpr] ?] a Hpr Hrc Hprc Hroc Hauc.
    rewrite Hunfold, Hpr, Hrc, Hprc, Hroc. cbn [mbind result_bind].
    simpl in Hauc. rewrite Hauc. by eexists.
Qed.
End metrics_facts.

Lemma compute_metrics_thresholded_witness :
  ∃ m, nb_utils.compute_metrics (H0 := demo.sklearn)
         [[9 # 10; 1 # 5]; [7 # 10]]%Q [[1; 0]; [0]]%Q None = Ok m
       ∧ nb_utils.accuracy m = Fraction 2 3
       ∧ nb_utils.precision m = Fraction 1 2
       ∧ nb_utils.recall m = Fraction 1 1.
Proof.
  destruct (compute_metrics_thresholded (H0 := demo.sklearn)
    [[9 # 10; 1 # 5]; [7 # 10]]%Q [[1; 0]; [0]]%Q None)
    as (_ & _ & Hreturns & _).
  - done.
  - repeat constructor.
  - exact (Hreturns (Fraction 1 2) (Fraction 1 1) ((), (), ()) ((), (), ())
             (Fraction 0 0) eq_refl eq_refl eq_refl eq_refl eq_refl).
Defined.


(** ** Drawing the segments of a sample *)

Section drawing_facts.
Context `{Scalar}.

(** Of [a < b] and [b < a] at most one holds, as for the numbers the
    arrays hold. *)
Hypothesis F_lt_asym : ∀ a b, F_lt a b = true → F_lt b a = false.

Lemma np_get_in_bounds {A} (a : list A) (i : Z) :
  in_bounds (length a) i → ∃ v, np_get a i = Ok v.
Proof.
  intros Hi. destruct (np_index_valid _ _ Hi) as (k & Hk & Hlt).
  unfold np_get. rewrite Hk. simpl.
  destruct (lookup_lt_is_Some_2 a k Hlt) as [v ->]. by exists v.
Qed.

Lemma plot_segment_Ok (x y : list F) (edges : list (Z * Z)) (j : nat)
    (e : Z * Z) (x0 x1 y0 y1 : F) (fmt c : string) (alpha : option F) :
  edges !! j = Some e →
  np_get x e.1 = Ok x0 → np_get x e.2 = Ok x1 →
  np_get y e.1 = Ok y0 → np_get y e.2 = Ok y1 →
  nb_utils.plot_segment x y edges j fmt c alpha
  = Ok (Line2D (x0, x1) (y0, y1) fmt c alpha).
Proof.
  intros He Hx0 Hx1 Hy0 Hy1. unfold nb_utils.plot_segment.
  rewrite (np_get_nat _ _ _ He). simpl.
  by rewrite Hx0, Hx1, Hy0, Hy1.
Qed.

(** One pass of the loop body draws the segment of the edge's class. *)
Lemma draw_segment_styled (x y : list F) (edges : list (Z * Z))
    (preds labels : list F) (cut : F) (ax0 : list (artist F)) (j : nat)
    (p l : F) (e : Z * Z) (x0 x1 y0 y1 : F) :
  preds !! j = Some p → labels !! j = Some l → edges !! j = Some e →
  np_get x e.1 = Ok x0 → np_get x e.2 = Ok x1 →
  np_get y e.1 = Ok y0 → np_get y e.2 = Ok y1 →
  nb_utils.draw_segment x y edges preds labels cut ax0 j
  = Ok (ax0 ++ styled_line (x0, x1) (y0, y1) p l cut).
Proof.
  intros Hp Hl He Hx0 Hx1 Hy0 Hy1. unfold nb_utils.draw_segment.
  rewrite (np_get_nat _ _ _ Hp), (np_get_nat _ _ _ Hl). simpl.
  rewrite !(plot_segment_Ok x y edges j e x0 x1 y0 y1) by done.
  unfold styled_line, F_gt.
  destruct (F_lt p cut) eqn:Hpc; destruct (F_lt cut p) eqn:Hcp;
    try (rewrite (F_lt_asym _ _ Hpc) in Hcp; discriminate);
    destruct (F_lt l cut) eqn:Hlc; destruct (F_lt cut l) eqn:Hcl;
    try (rewrite (F_lt_asym _ _ Hlc) in Hcl; discriminate);
    simpl; by rewrite ?app_nil_r.
Qed.

(** The loop over the edges [k], ..., [k + m - 1]. *)
Lemma draw_segments_loop (x y : list F) (edges : list (Z * Z))
    (preds labels : list F) (cut : F) (m : nat) :
  length y = length x →
  (∀ e, e ∈ edges → in_bounds (length x) e.1 ∧ in_bounds (length x) e.2) →
  ∀ (k : nat) (ax0 : list (artist F)),
  (k + m ≤ length labels)%nat → (k + m ≤ length preds)%nat →
  (k + m ≤ length edges)%nat →
  ∃ lines : list (list (artist F)),
    for_each (nb_utils.draw_segment x y edges preds labels cut)
             (seq k m) ax0 = Ok (ax0 ++ concat lines)
    ∧ length lines = m
    ∧ ∀ i p l e, preds !! (k + i)%nat = Some p →
        labels !! (k + i)%nat = Some l → edges !! (k + i)%nat = Some e →
        (i < m)%nat →
        ∃ x0 x1 y0 y1,
          np_get x e.1 = Ok x0 ∧ np_get x e.2 = Ok x1
          ∧ np_get y e.1 = Ok y0 ∧ np_get y e.2 = Ok y1
          ∧ lines !! i = Some (styled_line (x0, x1) (y0, y1) p l cut).
Proof.
  intros Hy Hends. induction m as [|m IH]; intros k ax0 Hl Hp He.
  - exists []. simpl. rewrite app_nil_r. split; [done|]. split; [done|].
    intros. lia.
  - destruct (lookup_lt_is_Some_2 preds k ltac:(lia)) as [p Hpk].
    destruct (lookup_lt_is_Some_2 labels k ltac:(lia)) as [l Hlk].
    destruct (lookup_lt_is_Some_2 edges k ltac:(lia)) as [e Hek].
    destruct (Hends e (list_elem_of_lookup_2 _ _ _ Hek)) as [H1 H2].
    destruct (np_get_in_bounds x _ H1) as [x0 Hx0].
    destruct (np_get_in_bounds x _ H2) as [x1 Hx1].
    rewrite <- Hy in H1, H2.
    destruct (np_get_in_bounds y _ H1) as [y0 Hy0].
    destruct (np_get_in_bounds y _ H2) as [y1 Hy1].
    destruct (IH (S k) (ax0 ++ styled_line (x0, x1) (y0, y1) p l cut)
                ltac:(lia) ltac:(lia) ltac:(lia))
      as (lines & Hrun & Hlen & Hlines).
    exists (styled_line (x0, x1) (y0, y1) p l cut :: lines).
    split; [|split].
    + cbn [seq for_each].
      rewrite (draw_segment_styled x y edges preds labels cut ax0 k
                 p l e x0 x1 y0 y1) by done.
      cbn [mbind result_bind]. rewrite Hrun. simpl.
      by rewrite (assoc_L (++)).
    + simpl. by rewrite Hlen.
    + intros [|i] p' l' e' Hp' Hl' He' Hi.
      * rewrite Nat.add_0_r in Hp', Hl', He'. simplify_eq.
        by exists x0, x1, y0, y1.
      * rewrite Nat.add_succ_r in Hp', Hl', He'. simpl.
        apply (Hlines i p' l' e'); [done..|lia].
Qed.

(** C8: on arrays that fit together, the axes hold the scatter of the
    hits and then, edge by edge, the segment of the edge's class: dashed
    blue for a false negative, red or black with the prediction as
    opacity for a false or true positive, and nothing in any other case,
    so nothing for a true negative or for a prediction or label that
    neither exceeds the cut nor is exceeded by it. *)
Theorem draw_sample_xy_by_class (hits : list (list F))
    (edges : list (Z * Z)) (preds labels : list F) (cut : option F)
    (r phi : list F)
    (Hr : np_column hits 0 = Ok r) (Hphi : np_column hits 1 = Ok phi)
    (Hpreds : (length labels ≤ length preds)%nat)
    (Hedges : (length labels ≤ length edges)%nat)
    (Hends : ∀ e, e ∈ edges →
       in_bounds (length hits) e.1 ∧ in_bounds (length hits) e.2) :
  let c := default F_half cut in
  let x := zip_with F_mul r (map F_cos phi) in
  let y := zip_with F_mul r (map F_sin phi) in
  ∃ lines : list (list (artist F)),
    nb_utils.draw_sample_xy hits edges preds labels cut
      = Ok (Scatter x y 2 "k" :: concat lines)
    ∧ length lines = length labels
    ∧ ∀ j p l e, preds !! j = Some p → labels !! j = Some l →
        edges !! j = Some e →
        ∃ x0 x1 y0 y1,
          np_get x e.1 = Ok x0 ∧ np_get x e.2 = Ok x1
          ∧ np_get y e.1 = Ok y0 ∧ np_get y e.2 = Ok y1
          ∧ (F_lt p c = true ∧ F_gt l c = true →
             lines !! j = Some [Line2D (x0, x1) (y0, y1) "--" "b" None])
          ∧ (F_gt p c = true ∧ F_lt l c = true →
             lines !! j = Some [Line2D (x0, x1) (y0, y1) "-" "r" (Some p)])
          ∧ (F_gt p c = true ∧ F_gt l c = true →
             lines !! j = Some [Line2D (x0, x1) (y0, y1) "-" "k" (Some p)])
          ∧ (¬ (F_lt p c = true ∧ F_gt l c = true) →
             ¬ (F_gt p c = true ∧ F_lt l c = true) →
             ¬ (F_gt p c = true ∧ F_gt l c = true) →
             lines !! j = Some [])
          ∧ (F_lt p c = true ∧ F_lt l c = true → lines !! j = Some [])
          ∧ (F_lt p c = false ∧ F_gt p c = false → lines !! j = Some [])
          ∧ (F_lt l c = false ∧ F_gt l c = false → lines !! j = Some []).
Proof.
  intros c x y.
  assert (Hlr : length r = length hits) by by apply collect_length in Hr.
  assert (Hlphi : length phi = length hits)
    by by apply collect_length in Hphi.
  assert (Hx : length x = length hits).
  { unfold x. rewrite length_zip_with, length_map. lia. }
  assert (Hy : length y = length x).
  { unfold y. rewrite Hx, length_zip_with, length_map. lia. }
  rewrite <- Hx in Hends.
  destruct (draw_segments_loop x y edges preds labels c (length labels)
              Hy Hends 0%nat [Scatter x y 2 "k"]
              ltac:(lia) ltac:(lia) ltac:(lia))
    as (lines & Hrun & Hlen & Hlines).
  exists lines. split; [|split; [done|]].
  { unfold nb_utils.draw_sample_xy. rewrite Hr, Hphi.
    cbn [mbind result_bind]. exact Hrun. }
  intros j p l e Hp Hl He.
  destruct (Hlines j p l e Hp Hl He (lookup_lt_Some _ _ _ Hl))
    as (x0 & x1 & y0 & y1 & Hx0 & Hx1 & Hy0 & Hy1 & Hj).
  exists x0, x1, y0, y1. do 4 (split; [done|]).
  rewrite Hj. unfold styled_line, F_gt.
  destruct (F_lt p c) eqn:Hpc; destruct (F_lt c p) eqn:Hcp;
    try (rewrite (F_lt_asym _ _ Hpc) in Hcp; discriminate);
    destruct (F_lt l c) eqn:Hlc; destruct (F_lt c l) eqn:Hcl;
    try (rewrite (F_lt_asym _ _ Hlc) in Hcl; discriminate);
    simpl; repeat split; intros; destruct_and?; try done; tauto.
Qed.
End drawing_facts.

Lemma Q_lt_asym (a b : Q) : demo.Q_lt a b = true → demo.Q_lt b a = false.
Proof.
  unfold demo.Q_lt. rewrite negb_true_iff, negb_false_iff.
  intros Hba%not_true_iff_false. rewrite Qle_bool_iff in *. lra.
Qed.

Lemma demo_edges_in_bounds (e : Z * Z) :
  e ∈ demo.edges →
  in_bounds (length demo.hits) e.1 ∧ in_bounds (length demo.hits) e.2.
Proof.
  unfold demo.edges. rewrite !elem_of_cons, elem_of_nil.
  intros; destruct_or!; subst; unfold in_bounds; simpl; try lia; done.
Qed.

Lemma draw_sample_xy_by_class_witness :
  ∃ lines xs ys,
    (∃ scatter, nb_utils.draw_sample_xy (H := demo.rationals)
       demo.hits demo.edges demo.preds demo.labels None
       = Ok (scatter :: concat lines))
    ∧ length lines = 4%nat
    ∧ lines !! 0%nat = Some [Line2D xs ys "--" "b" None]
    ∧ lines !! 3%nat = Some [].
Proof.
  destruct (draw_sample_xy_by_class (H := demo.rationals) Q_lt_asym
    demo.hits demo.edges demo.preds demo.labels None
    [1; 2; 1]%Q [0; 0; 1]%Q eq_refl eq_refl)
    as (lines & Hrun & Hlen & Hlines).
  - simpl. lia.
  - simpl. lia.
  - exact demo_edges_in_bounds.
  - destruct (Hlines 0%nat (1 # 5)%Q 1%Q (0, 1) eq_refl eq_refl eq_refl)
      as (x0 & x1 & y0 & y1 & _ & _ & _ & _ & Hfn & _).
    destruct (Hlines 3%nat (1 # 10)%Q 0%Q (2, 0) eq_refl eq_refl eq_refl)
      as (? & ? & ? & ? & _ & _ & _ & _ & _ & _ & _ & _ & Htn & _).
    exists lines, (x0, x1), (y0, y1).
    split; [by eexists|]. split; [exact Hlen|].
    split; [by apply Hfn|by apply Htn].
Defined.


(** ** Multiplicity of the nodes *)

Section multiplicity_facts.
Context `{Scalar}.

Lemma np_iadd_in_bounds {A} (add : A → A → A) (a : list A) (i : Z) (v : A) :
  in_bounds (length a) i →
  ∃ k, np_index (length a) i = Ok k
       ∧ np_iadd add a i v = Ok (alter (λ x, add x v) k a).
Proof.
  intros Hi. destruct (np_index_valid _ _ Hi) as (k & Hk & _).
  exists k. split; [done|]. unfold np_iadd. by rewrite Hk.
Qed.

(** What one edge adds at node [k]. *)
Lemma add_multiplicity_body_at (cut : F) (n : nat) (mul : list nat)
    (w_mul : list F) (edge : Z * Z) (pred : F) :
  length mul = n → length w_mul = n →
  (F_gt pred cut = true → in_bounds n edge.1 ∧ in_bounds n edge.2) →
  ∃ mul' w_mul',
    nb_utils.add_multiplicity_body cut (mul, w_mul) (edge, pred)
      = Ok (mul', w_mul')
    ∧ length mul' = n ∧ length w_mul' = n
    ∧ ∀ k m a, mul !! k = Some m → w_mul !! k = Some a →
        let ps := incident_preds n k cut [edge] [pred] in
        mul' !! k = Some (m + length ps)%nat
        ∧ w_mul' !! k = Some (sum_squares a ps).
Proof.
  intros Hmul Hw Hends. unfold nb_utils.add_multiplicity_body.
  unfold incident_preds, is_node. simpl.
  destruct (F_gt pred cut) eqn:Hgt.
  2:{ exists mul, w_mul. do 3 (split; [done|]).
      intros k m a Hm Ha. simpl. by rewrite Nat.add_0_r. }
  destruct (Hends eq_refl) as [H1 H2]. subst n.
  destruct (np_iadd_in_bounds Nat.add mul edge.1 1%nat H1)
    as (k1 & Hk1 & ->). cbn [mbind result_bind].
  destruct (np_iadd_in_bounds Nat.add
              (alter (λ x, Nat.add x 1) k1 mul) edge.2 1%nat)
    as (k2 & Hk2 & ->); [by rewrite length_alter|].
  cbn [mbind result_bind]. rewrite length_alter in Hk2.
  rewrite <- Hw in H1, H2, Hk1, Hk2.
  destruct (np_iadd_in_bounds F_add w_mul edge.1 (F_square pred) H1)
    as (k1' & Hk1' & ->). cbn [mbind result_bind].
  destruct (np_iadd_in_bounds F_add
              (alter (λ x, F_add x (F_square pred)) k1' w_mul)
              edge.2 (F_square pred))
    as (k2' & Hk2' & ->); [by rewrite length_alter|].
  cbn [mbind result_bind]. rewrite length_alter in Hk2'.
  assert (k1' = k1) as -> by congruence.
  assert (k2' = k2) as -> by congruence.
  rewrite Hw in Hk1, Hk2. rewrite Hk1, Hk2.
  eexists _, _. split; [done|]. rewrite !length_alter.
  split; [done|]. split; [done|].
  intros k m a Hm Ha. rewrite !list_lookup_alter, app_nil_r.
  unfold sum_squares.
  repeat case_decide; repeat case_bool_decide; simplify_eq;
    rewrite ?Hm, ?Ha; simpl; (split; [f_equal; lia|done]).
Qed.

Lemma incident_preds_cons (n k : nat) (cut : F) (edge : Z * Z) (pred : F)
    (edges : list (Z * Z)) (preds : list F) :
  incident_preds n k cut (edge :: edges) (pred :: preds)
  = incident_preds n k cut [edge] [pred]
    ++ incident_preds n k cut edges preds.
Proof. unfold incident_preds. simpl. by rewrite app_nil_r. Qed.

(** The loop, from any state of the two arrays. *)
Lemma add_multiplicity_loop (cut : F) (n : nat) (edges : list (Z * Z)) :
  ∀ (preds : list F) (mul : list nat) (w_mul : list F),
  length mul = n → length w_mul = n →
  (∀ e p, (e, p) ∈ zip edges preds → F_gt p cut = true →
          in_bounds n e.1 ∧ in_bounds n e.2) →
  ∃ mul' w_mul',
    for_each (nb_utils.add_multiplicity_body cut) (zip edges preds)
             (mul, w_mul) = Ok (mul', w_mul')
    ∧ length mul' = n ∧ length w_mul' = n
    ∧ ∀ k m a, mul !! k = Some m → w_mul !! k = Some a →
        let ps := incident_preds n k cut edges preds in
        mul' !! k = Some (m + length ps)%nat
        ∧ w_mul' !! k = Some (sum_squares a ps).
Proof.
  induction edges as [|edge edges IH]; intros preds mul w_mul Hmul Hw Hends.
  { exists mul, w_mul. do 3 (split; [done|]).
    intros k m a Hm Ha. simpl. by rewrite Nat.add_0_r. }
  destruct preds as [|pred preds].
  { exists mul, w_mul. do 3 (split; [done|]).
    intros k m a Hm Ha. simpl. by rewrite Nat.add_0_r. }
  destruct (add_multiplicity_body_at cut n mul w_mul edge pred Hmul Hw)
    as (mul1 & w1 & Hstep & Hmul1 & Hw1 & Hat1).
  { apply Hends. simpl. left. }
  destruct (IH preds mul1 w1 Hmul1 Hw1) as (mul' & w' & Hrun & ? & ? & Hat).
  { intros e p Hin. apply Hends. simpl. by right. }
  exists mul', w'. split; [|split; [done|split; [done|]]].
  { cbn [zip zip_with for_each]. rewrite Hstep. exact Hrun. }
  intros k m a Hm Ha. simpl.
  destruct (Hat1 k m a Hm Ha) as [Hm1 Ha1].
  destruct (Hat k _ _ Hm1 Ha1) as [Hm' Ha'].
  rewrite incident_preds_cons, length_app.
  split.
  - rewrite Hm'. f_equal. lia.
  - rewrite Ha'. unfold sum_squares. by rewrite foldl_app.
Qed.

(** Without an edge above the cut at node [k] nothing is counted there. *)
Lemma incident_preds_nil (n k : nat) (cut : F) (edges : list (Z * Z))
    (preds : list F) :
  (∀ e p, (e, p) ∈ zip edges preds →
          is_node n k e.1 = true ∨ is_node n k e.2 = true →
          F_gt p cut = false) →
  incident_preds n k cut edges preds = [].
Proof.
  revert preds. induction edges as [|edge edges IH]; intros [|pred preds] Hle;
    try done.
  rewrite incident_preds_cons, IH.
  2:{ intros e p Hin. apply Hle. simpl. by right. }
  rewrite app_nil_r. unfold incident_preds. simpl. rewrite app_nil_r.
  destruct (F_gt pred cut) eqn:Hgt; [|done].
  destruct (is_node n k edge.1) eqn:H1.
  { rewrite (Hle edge pred) in Hgt; [done|by left|by left]. }
  destruct (is_node n k edge.2) eqn:H2; [|done].
  rewrite (Hle edge pred) in Hgt; [done|by left|by right].
Qed.

(** C2: when the end points of the edges above the cut address hits,
    [add_multiplicity] returns two arrays as long as [hits]; at node [k]
    the first holds the number of end points at [k] of edges whose
    prediction is strictly above the cut, and the second the squares of
    those predictions added up in the order of the edges; edges that are
    not above the cut leave both entries as they are, so a node with no
    edge above the cut stays at zero. *)
Theorem add_multiplicity_counts {Hit} (hits : list Hit)
    (edges : list (Z * Z)) (preds : list F) (cut : option F)
    (Hends : ∀ e p, (e, p) ∈ zip edges preds →
       F_gt p (default F_half cut) = true →
       in_bounds (length hits) e.1 ∧ in_bounds (length hits) e.2) :
  let c := default F_half cut in
  let n := length hits in
  ∃ mul w_mul,
    nb_utils.add_multiplicity hits edges preds cut = Ok (mul, w_mul)
    ∧ length mul = n ∧ length w_mul = n
    ∧ (∀ k, (k < n)%nat →
         mul !! k = Some (length (incident_preds n k c edges preds))
         ∧ w_mul !! k
           = Some (sum_squares F_zero (incident_preds n k c edges preds)))
    ∧ (∀ k, (k < n)%nat →
         (∀ e p, (e, p) ∈ zip edges preds →
            is_node n k e.1 = true ∨ is_node n k e.2 = true →
            F_gt p c = false) →
         mul !! k = Some 0%nat ∧ w_mul !! k = Some F_zero).
Proof.
  intros c n.
  destruct (add_multiplicity_loop c n edges preds
              (np.zeros 0%nat n) (np.zeros F_zero n))
    as (mul & w_mul & Hrun & Hmul & Hw & Hat);
    [apply length_replicate|apply length_replicate|done|].
  assert (Hk : ∀ k, (k < n)%nat →
     mul !! k = Some (length (incident_preds n k c edges preds))
     ∧ w_mul !! k
       = Some (sum_squares F_zero (incident_preds n k c edges preds))).
  { intros k Hlt.
    apply (Hat k 0%nat F_zero); by apply lookup_replicate_2. }
  exists mul, w_mul. split; [exact Hrun|]. split; [done|]. split; [done|].
  split; [exact Hk|].
  intros k Hlt Hle. destruct (Hk k Hlt) as [-> ->].
  by rewrite (incident_preds_nil n k c edges preds Hle).
Qed.
End multiplicity_facts.

Lemma add_multiplicity_counts_witness :
  ∃ mul w_mul,
    nb_utils.add_multiplicity (H := demo.rationals)
      demo.hits demo.edges demo.preds None = Ok (mul, w_mul)
    ∧ mul !! 0%nat = Some 1%nat ∧ mul !! 2%nat = Some 2%nat
    ∧ w_mul !! 2%nat = Some (0 + (9 # 10) * (9 # 10) + (4 # 5) * (4 # 5))%Q.
Proof.
  destruct (add_multiplicity_counts (H := demo.rationals)
    demo.hits demo.edges demo.preds None)
    as (mul & w_mul & Hrun & _ & _ & Hat & _).
  - intros e p Hin%elem_of_zip_l _. by apply demo_edges_in_bounds.
  - exists mul, w_mul. split; [exact Hrun|].
    destruct (Hat 0%nat) as [Hm0 _]; [simpl; lia|].
    destruct (Hat 2%nat) as [Hm2 Hw2]; [simpl; lia|].
    split; [exact Hm0|]. split; [exact Hm2|exact Hw2].
Defined.


(** ** Splitting the dataset over tasks *)

Section array_split_facts.
Context {A : Type}.
Implicit Types (l : list A) (sizes : list nat).

(** Slicing between consecutive division points cuts consecutive
    chunks. *)
Lemma slices_reshape l sizes (off : nat) :
  map (λ i, np.slice l (nth i (off :: np.cumsum_from off sizes) 0%nat)
                       (nth (i + 1) (off :: np.cumsum_from off sizes) 0%nat))
      (seq 0 (length sizes))
  = reshape sizes (drop off l).
Proof.
  revert off. induction sizes as [|s sizes IH]; intros off; [done|].
  cbn [length seq map reshape np.cumsum_from]. f_equal.
  - unfold np.slice. simpl. f_equal. lia.
  - rewrite <- fmap_S_seq, drop_drop, <- IH.
    rewrite <- list_fmap_compose. by apply map_ext.
Qed.

Lemma concat_reshape l sizes :
  sum_list sizes = length l → concat (reshape sizes l) = l.
Proof.
  revert l. induction sizes as [|s sizes IH]; intros l Hsum; simpl in *.
  - by destruct l.
  - rewrite IH, take_drop; [done|]. rewrite length_drop. lia.
Qed.

Lemma reshape_lookup l sizes (i s : nat) :
  sizes !! i = Some s →
  reshape sizes l !! i = Some (take s (drop (sum_list (take i sizes)) l)).
Proof.
  revert l i. induction sizes as [|s' sizes IH]; intros l [|i] Hs;
    simplify_eq/=; [done|].
  rewrite (IH _ _ Hs), drop_drop. done.
Qed.

Lemma sum_take_le sizes (i j s : nat) :
  sizes !! i = Some s → (i < j)%nat →
  (sum_list (take i sizes) + s ≤ sum_list (take j sizes))%nat.
Proof.
  intros Hs Hij.
  rewrite <- (take_drop (S i) (take j sizes)), take_take.
  rewrite Nat.min_l by lia.
  rewrite (take_S_r _ _ _ Hs), !sum_list_with_app. simpl. lia.
Qed.

Lemma sum_take_bound sizes (i s : nat) :
  sizes !! i = Some s →
  (sum_list (take i sizes) + s ≤ sum_list sizes)%nat.
Proof.
  intros Hs.
  rewrite <- (take_ge sizes (S (length sizes))) at 2 by lia.
  apply sum_take_le; [done|]. apply lookup_lt_Some in Hs. lia.
Qed.
End array_split_facts.

Section split_sizes_facts.

Lemma split_sizes_length (total sections : nat) :
  (0 < sections)%nat → length (split_sizes total sections) = sections.
Proof.
  intros Hs. unfold split_sizes.
  rewrite length_app, !length_replicate.
  pose proof (Nat.mod_upper_bound total sections). lia.
Qed.

Lemma split_sizes_sum (total sections : nat) :
  (0 < sections)%nat → sum_list (split_sizes total sections) = total.
Proof.
  intros Hs. unfold split_sizes.
  rewrite sum_list_with_app, !sum_list_replicate.
  pose proof (Nat.mod_upper_bound total sections).
  pose proof (Nat.div_mod_eq total sections). nia.
Qed.

Lemma split_sizes_lookup (total sections i s : nat) :
  split_sizes total sections !! i = Some s →
  s = (total / sections)%nat ∨ s = (total / sections + 1)%nat.
Proof.
  unfold split_sizes. intros Hs.
  apply lookup_app_Some in Hs as [Hs|[_ Hs]];
    apply lookup_replicate in Hs as [-> _]; auto.
Qed.

(** [np.array_split] cuts the array into consecutive chunks of the
    sizes of [split_sizes]. *)
Lemma array_split_reshape {A} (ary : list A) (sections : Z) :
  1 ≤ sections →
  np.array_split ary sections
  = Ok (reshape (split_sizes (length ary) (Z.to_nat sections)) ary).
Proof.
  intros Hs. unfold np.array_split. rewrite decide_False by lia.
  f_equal. unfold range, np.cumsum.
  pose proof (slices_reshape ary
    (split_sizes (length ary) (Z.to_nat sections)) 0) as Hslices.
  rewrite split_sizes_length, drop_0 in Hslices by lia.
  rewrite <- Hslices. done.
Qed.
End split_sizes_facts.

Section task_loader_facts.
Context `{OsPath} `{HitGraphs}.

(** A chunk of the indices [0, ..., total - 1] is a range. *)
Lemma reshape_indices (sizes : list nat) (total t : nat) (part : list Z) :
  sum_list sizes = total →
  reshape sizes (map Z.of_nat (seq 0 total)) !! t = Some part →
  ∃ s, sizes !! t = Some s
       ∧ part = map Z.of_nat (seq (sum_list (take t sizes)) s).
Proof.
  intros Hsum Hpart.
  destruct (lookup_lt_is_Some_2 sizes t) as [s Hs].
  { rewrite <- (length_reshape sizes (map Z.of_nat (seq 0 total))).
    by eapply lookup_lt_Some. }
  exists s. split; [done|].
  rewrite (reshape_lookup _ _ _ _ Hs) in Hpart. simplify_eq.
  pose proof (sum_take_bound _ _ _ Hs).
  change (map Z.of_nat) with (fmap (M := list) Z.of_nat).
  rewrite <- fmap_drop, <- fmap_take, drop_seq, take_seq.
  do 2 f_equal. lia.
Qed.

(** C10: for at least one task, the index arrays of the tasks
    [0, ..., n_tasks - 1] are consecutive ranges that, put one after the
    other, give [0, ..., N - 1]; no index is in two of them and their
    lengths differ by at most one; the loader of a task has batch size
    one and goes through the samples at the task's indices, one batch
    per index, in their order. *)
Theorem get_data_loader_partition (h : heap) (config : pyval)
    (n_tasks : Z) (ds : dataset graph)
    (Hds : data_utils.get_dataset h config = Ok ds)
    (Hn : 1 ≤ n_tasks) :
  ∃ parts : list (list Z),
    length parts = Z.to_nat n_tasks
    ∧ concat parts = map Z.of_nat (range (ds_len ds))
    ∧ (∀ t part, parts !! t = Some part →
         (∃ start, part = map Z.of_nat (seq start (length part)))
         ∧ ∃ dl, data_utils.get_data_loader h config n_tasks (Z.of_nat t)
                   = Ok (dl, part)
              ∧ dl_batch_size dl = 1%nat
              ∧ index_batches dl = map (λ i, [i]) (range (length part))
              ∧ batches dl =
                  collect (λ idx, s ← ds_getitem ds idx;
                                  Ok (Batch_from_data_list [s]))
                          part)
    ∧ (∀ t t' p p', parts !! t = Some p → parts !! t' = Some p' →
         (length p ≤ length p' + 1)%nat)
    ∧ (∀ t t' p p' z, t ≠ t' → parts !! t = Some p → parts !! t' = Some p' →
         z ∈ p → z ∉ p').
Proof.
  set (total := ds_len ds).
  set (sizes := split_sizes total (Z.to_nat n_tasks)).
  set (full_indices := map Z.of_nat (seq 0 total)).
  assert (Hsum : sum_list sizes = total) by (apply split_sizes_sum; lia).
  assert (Hfull : length full_indices = total).
  { unfold full_indices. by rewrite length_map, length_seq. }
  assert (Hsplit : np.array_split full_indices n_tasks
                   = Ok (reshape sizes full_indices)).
  { pose proof (array_split_reshape full_indices n_tasks Hn) as Hsp.
    by rewrite Hfull in Hsp. }
  exists (reshape sizes full_indices).
  split; [|split; [|split; [|split]]].
  - rewrite length_reshape. apply split_sizes_length. lia.
  - apply concat_reshape. rewrite Hsum. symmetry. exact Hfull.
  - intros t part Hpart.
    destruct (reshape_indices sizes total t part Hsum Hpart)
      as (s & Hs & ->).
    rewrite length_map, length_seq. split; [by eexists|].
    eexists. split.
    { unfold data_utils.get_data_loader. rewrite Hds.
      cbn [mbind result_bind]. rewrite arange_nonneg by lia.
      cbn [mbind result_bind]. rewrite Nat2Z.id. fold total.
      unfold range. fold full_indices. rewrite Hsplit.
      cbn [mbind result_bind]. rewrite (np_get_nat _ _ _ Hpart).
      cbn [mbind result_bind]. reflexivity. }
    split; [done|].
    pose proof (subset_loader_batches ds
      (map Z.of_nat (seq (sum_list (take t sizes)) s))
      Batch_from_data_list) as [Hidx Hbatches].
    rewrite length_map, length_seq in Hidx. done.
  - intros t t' p p' Hp Hp'.
    destruct (reshape_indices sizes total t p Hsum Hp) as (s & Hs & ->).
    destruct (reshape_indices sizes total t' p' Hsum Hp') as (s' & Hs' & ->).
    rewrite !length_map, !length_seq.
    apply split_sizes_lookup in Hs, Hs'. lia.
  - intros t t' p p' z Hne Hp Hp' Hz Hz'.
    destruct (reshape_indices sizes total t p Hsum Hp) as (s & Hs & ->).
    destruct (reshape_indices sizes total t' p' Hsum Hp') as (s' & Hs' & ->).
    apply list_elem_of_fmap in Hz as (k & -> & Hk%elem_of_seq).
    apply list_elem_of_fmap in Hz' as (k' & Hkk' & Hk'%elem_of_seq).
    apply Nat2Z.inj in Hkk'. subst k'.
    destruct (decide (t < t')%nat).
    + pose proof (sum_take_le sizes t t' s Hs ltac:(lia)). lia.
    + pose proof (sum_take_le sizes t' t s' Hs' ltac:(lia)). lia.
Qed.
End task_loader_facts.

Lemma get_data_loader_partition_witness :
  ∃ parts : list (list Z),
    parts = [[0; 1; 2; 3; 4; 5; 6]; [7; 8; 9; 10; 11; 12; 13];
             [14; 15; 16; 17; 18; 19]]
    ∧ ∀ t part, parts !! t = Some part →
        ∃ dl, data_utils.get_data_loader (H := demo.os_path)
                (H1 := demo.hit_graphs) demo.config_heap demo.config 3
                (Z.of_nat t) = Ok (dl, part).
Proof.
  destruct (get_data_loader_partition (H := demo.os_path)
    (H1 := demo.hit_graphs) demo.config_heap demo.config 3
    (demo.twenty_graphs (λ l, l)) eq_refl)
    as (parts & Hlen & Hconcat & Hparts & _); [lia|].
  exists parts. split.
  - destruct parts as [|p0 [|p1 [|p2 [|? ?]]]]; try done.
    destruct (Hparts 0%nat p0 eq_refl) as [_ (? & Hrun0 & _)].
    destruct (Hparts 1%nat p1 eq_refl) as [_ (? & Hrun1 & _)].
    destruct (Hparts 2%nat p2 eq_refl) as [_ (? & Hrun2 & _)].
    vm_compute in Hrun0, Hrun1, Hrun2. by simplify_eq.
  - intros t part Hpart.
    destruct (Hparts t part Hpart) as [_ (dl & Hrun & _)]. by exists dl.
Defined.


(** ** The false-negative column of [tf_multiplicity] *)

(** C1 (the code departs from it): for the single false-negative edge
    between hit 0 and hit 1, prediction 0.2, label 1 and cut 0.5, the
    returned table counts 2 false negatives at hit 0 and none at hit 1,
    where one at each end point is meant; the last statement of the loop
    body adds at [edge[0]] a second time.  A true-positive edge between
    the same hits is counted once at each end point. *)
Theorem tf_multiplicity_false_negative_slip :
  nb_utils.tf_multiplicity (H := demo.rationals)
    demo.hits [(0, 1)] [1 # 5]%Q [1]%Q None
  = Ok [[0; 0; 0; 2]; [0; 0; 0; 0]; [0; 0; 0; 0]]%nat
  ∧ nb_utils.tf_multiplicity (H := demo.rationals)
      demo.hits [(0, 1)] [4 # 5]%Q [1]%Q None
    = Ok [[1; 0; 0; 0]; [1; 0; 0; 0]; [0; 0; 0; 0]]%nat.
Proof. split; reflexivity. Qed.


(** * Further properties *)

(** ** [load_model]: the cases of the configuration *)

Section load_model_cases.
Context `{OsPath} `{Torch}.

Lemma dict_pop_absent (h : heap) (obj : pyval) (key : string) (d : pyval) :
  (∀ l dm, obj = VRef l → h !! l = Some dm → dm !! key = None) →
  (dict_pop h obj key d).1 = h.
Proof.
  intros Habsent. unfold dict_pop. destruct obj as [| | |l]; try done.
  destruct (h !! l) as [dm|] eqn:Hl; [|done].
  by rewrite (Habsent l dm eq_refl Hl).
Qed.

(** After a [pop] the key is absent, so a second [pop] changes nothing. *)
Lemma dict_pop_twice (h : heap) (obj : pyval) (key : string) (d d' : pyval) :
  (dict_pop (dict_pop h obj key d).1 obj key d').1 = (dict_pop h obj key d).1.
Proof.
  apply dict_pop_absent. intros l dm -> Hl. revert Hl. unfold dict_pop.
  destruct (h !! l) as [dm0|] eqn:Hl0; simpl.
  - destruct (dm0 !! key) eqn:Hk; simpl.
    + rewrite lookup_insert_eq. intros [= <-]. apply lookup_delete_eq.
    + rewrite Hl0. by intros [= <-].
  - by rewrite Hl0.
Qed.

(** What [config['model']] is does not depend on whether ['loss_func']
    has been popped from it. *)
Lemma getitem_model_after_pop (h : heap) (config obj : pyval) (d : pyval) :
  getitem h config "model" = Ok obj →
  getitem (dict_pop h obj "loss_func" d).1 config "model" = Ok obj.
Proof.
  intros Hget. unfold dict_pop. destruct obj as [| | |l]; try done.
  destruct (h !! l) as [dm|] eqn:Hl; [|done].
  destruct (dm !! "loss_func") eqn:Hk; [|done]. simpl.
  unfold getitem in *. destruct config as [| | |lc]; try done.
  destruct (decide (l = lc)) as [->|Hne].
  - rewrite lookup_insert_eq. rewrite Hl in Hget.
    by rewrite lookup_delete_ne.
  - by rewrite lookup_insert_ne.
Qed.

(** A configuration without ['model'] makes [load_model] raise the
    error of the lookup and leaves the store alone; so does a
    [config['model']] without ['loss_func'], whatever becomes of the call;
    and the effect on the store of calling twice is that of calling
    once. *)
Theorem load_model_store_cases (h : heap) (config : pyval)
    (reload_epoch reload_epoch' : Z) :
  (∀ e, getitem h config "model" = Raise e →
        nb_utils.load_model config reload_epoch h = (h, Raise e))
  ∧ (∀ lm dm, getitem h config "model" = Ok (VRef lm) →
       h !! lm = Some dm → dm !! "loss_func" = None →
       (nb_utils.load_model config reload_epoch h).1 = h)
  ∧ (nb_utils.load_model config reload_epoch'
       (nb_utils.load_model config reload_epoch h).1).1
    = (nb_utils.load_model config reload_epoch h).1.
Proof.
  split; [|split].
  - intros e He. unfold nb_utils.load_model.
    unfold mbind at 1, st_bind at 1, reading at 1. by rewrite He.
  - intros lm dm Hget Hlm Hnone. rewrite load_model_store, Hget.
    apply dict_pop_absent. intros l dm' [= <-] Hl. by simplify_eq.
  - rewrite !load_model_store.
    destruct (getitem h config "model") as [obj|e] eqn:Hget.
    + rewrite (getitem_model_after_pop h config obj VNone Hget).
      apply dict_pop_twice.
    + by rewrite Hget.
Qed.

(** The model factory is called with the entries of [config['model']]
    other than ['loss_func'], and the checkpoint read is
    [checkpoints/model_checkpoint_NNN.pth.tar] under the output directory
    of the configuration as it was given: the outcome of [load_model] is
    that of this chain of calls, the first error in it if there is one. *)
Theorem load_model_calls (h : heap) (lc lm : loc)
    (dc dm : gmap string pyval) (reload_epoch : Z)
    (Hconfig : h !! lc = Some dc)
    (Hmodel : dc !! "model" = Some (VRef lm))
    (Hdict : h !! lm = Some dm) :
  (nb_utils.load_model (VRef lc) reload_epoch h).2 =
    (net ← get_model (delete "loss_func" dm);
     output_dir ← nb_utils.get_output_dir h (VRef lc);
     checkpoint ← torch_load
       (os_path_join output_dir
          ["checkpoints";
           ("model_checkpoint_" ++ format_03i reload_epoch
              ++ ".pth.tar")%string]);
     weights ← match checkpoint !! "model" with
               | Some w => Ok w
               | None => Raise (KeyError "model")
               end;
     load_state_dict net weights).
Proof.
  unfold nb_utils.load_model.
  unfold mbind at 1, st_bind at 1, reading at 1.
  rewrite (getitem_Some _ _ _ _ _ Hconfig Hmodel).
  unfold mbind at 1, st_bind at 1.
  set (h' := (dict_pop h (VRef lm) "loss_func" VNone).1).
  assert (Hpop : ∃ v, dict_pop h (VRef lm) "loss_func" VNone = (h', Ok v)).
  { unfold h', dict_pop. rewrite Hdict.
    destruct (dm !! "loss_func"); by eexists. }
  destruct Hpop as [v ->].
  assert (Hh' : h' !! lm = Some (delete "loss_func" dm)).
  { unfold h', dict_pop. rewrite Hdict.
    destruct (dm !! "loss_func") eqn:Hk; simpl.
    - by rewrite lookup_insert_eq.
    - rewrite Hdict. f_equal. symmetry. by apply delete_id. }
  assert (Hout : nb_utils.get_output_dir h' (VRef lc)
                 = nb_utils.get_output_dir h (VRef lc)).
  { unfold nb_utils.get_output_dir, getitem. rewrite Hconfig.
    destruct (decide (lc = lm)) as [->|Hne].
    - rewrite Hh'. simplify_eq. by rewrite lookup_delete_ne.
    - assert (h' !! lc = h !! lc) as ->; [|by rewrite Hconfig].
      unfold h', dict_pop. rewrite Hdict.
      destruct (dm !! "loss_func"); simpl; [|done].
      by rewrite lookup_insert_ne. }
  unfold mbind, st_bind, reading, kwargs. rewrite Hh'.
  destruct (get_model (delete "loss_func" dm)) as [net|]; [|done].
  rewrite Hout.
  destruct (nb_utils.get_output_dir h (VRef lc)) as [output_dir|]; [|done].
  simpl. destruct (torch_load _) as [ck|]; [|done]. simpl.
  by destruct (ck !! "model").
Qed.
End load_model_cases.

Lemma load_model_calls_witness :
  (nb_utils.load_model (H := demo.os_path) (H0 := demo.torch_all_ok)
     demo.config 5 demo.config_heap).2 = Ok ().
Proof.
  unfold demo.config.
  rewrite (load_model_calls (H := demo.os_path) (H0 := demo.torch_all_ok)
    demo.config_heap 1%positive 3%positive
    {[ "output_dir" := VStr "/out"; "data" := VRef 2%positive;
       "model" := VRef 3%positive ]}
    {[ "name" := VStr "gnn"; "loss_func" := VStr "bce" ]} 5
    eq_refl eq_refl eq_refl).
  reflexivity.
Defined.


(** ** [compute_metrics]: inputs it refuses *)

Section metrics_errors.
Context `{Sklearn}.

(** Without prediction arrays, without target arrays, or with
    predictions and targets of different total lengths,
    [compute_metrics] raises [ValueError]: the first two from
    [np.concatenate], the last from [accuracy_score], before any other
    metric is computed. *)
Theorem compute_metrics_refuses (preds targets : list (list F))
    (threshold : option F) :
  nb_utils.compute_metrics [] targets threshold = Raise ValueError
  ∧ nb_utils.compute_metrics preds [] threshold = Raise ValueError
  ∧ (length (concat preds) ≠ length (concat targets) →
     nb_utils.compute_metrics preds targets threshold = Raise ValueError).
Proof.
  split; [done|]. split.
  - unfold nb_utils.compute_metrics, np.concatenate. by destruct preds.
  - intros Hlen. unfold nb_utils.compute_metrics, np.concatenate.
    destruct preds as [|p preds]; [done|].
    destruct targets as [|t targets]; [done|].
    cbn [mbind result_bind]. unfold accuracy_score.
    rewrite decide_False; [done|]. rewrite !length_map. congruence.
Qed.
End metrics_errors.

Lemma compute_metrics_refuses_witness :
  nb_utils.compute_metrics (H0 := demo.sklearn)
    [[9 # 10; 1 # 5]]%Q [[1]]%Q None = Raise ValueError.
Proof.
  apply (compute_metrics_refuses (H0 := demo.sklearn)
           [[9 # 10; 1 # 5]]%Q [[1]]%Q None).
  simpl. lia.
Defined.

(** ** Test loaders over a dataset that is too short *)

Section short_dataset.
Context `{OsPath} `{HitGraphs}.

Lemma indices_from_the_back {S B} (ds : dataset S) (collate_fn : list S → B)
    (n : nat) :
  let test_indices :=
    map (λ k, Z.of_nat (ds_len ds) - 1 - k) (map Z.of_nat (range n)) in
  let dl := DataLoader (Subset ds test_indices) 1 collate_fn in
  index_batches dl = map (λ i, [i]) (range n)
  ∧ batches dl =
      collect (λ k, s ← ds_getitem ds (Z.of_nat (ds_len ds) - 1 - Z.of_nat k);
                    Ok (collate_fn [s]))
              (range n).
Proof.
  intros test_indices dl.
  destruct (subset_loader_batches ds test_indices collate_fn)
    as [Hidx Hbatches].
  assert (Hlen : length test_indices = n).
  { unfold test_indices, range. by rewrite !length_map, length_seq. }
  split; [by rewrite <- Hlen|].
  fold dl in Hbatches. rewrite Hbatches. unfold test_indices.
  by rewrite !collect_map.
Qed.

(** The test loaders do not compare [n_test] with the length of the
    dataset: for any [n_test >= 0] the loader is built and has [n_test]
    batches, and batch [i] asks the dataset for index [N - 1 - i], a
    negative index once [i >= N]; a negative [n_test] is refused by
    [torch.arange], and an error of the dataset's construction is
    passed on. *)
Theorem test_loader_any_length (h : heap) (config : pyval)
    (n_test : option Z) :
  let n := default 16 n_test in
  (∀ ds, nb_utils.get_dataset h config = Ok ds → 0 ≤ n →
     ∃ dl, nb_utils.get_test_data_loader h config n_test = Ok dl
       ∧ index_batches dl = map (λ i, [i]) (range (Z.to_nat n))
       ∧ batches dl =
           collect (λ k, s ← ds_getitem ds
                               (Z.of_nat (ds_len ds) - 1 - Z.of_nat k);
                         Ok (Batch_from_data_list [s]))
                   (range (Z.to_nat n)))
  ∧ (∀ ds, nb_utils.get_dataset h config = Ok ds → n < 0 →
       nb_utils.get_test_data_loader h config n_test
       = Raise (LibraryError "arange"))
  ∧ (∀ e, nb_utils.get_dataset h config = Raise e →
       nb_utils.get_test_data_loader h config n_test = Raise e).
Proof.
  intros n. split; [|split].
  - intros ds Hds Hn. unfold nb_utils.get_test_data_loader.
    rewrite Hds. cbn [mbind result_bind]. fold n.
    rewrite arange_nonneg by done. cbn [mbind result_bind].
    eexists. split; [done|].
    apply (indices_from_the_back ds Batch_from_data_list (Z.to_nat n)).
  - intros ds Hds Hn. unfold nb_utils.get_test_data_loader.
    rewrite Hds. cbn [mbind result_bind]. fold n.
    unfold arange. by rewrite decide_True by done.
  - intros e He. unfold nb_utils.get_test_data_loader. by rewrite He.
Qed.
End short_dataset.


(** ** [get_data_loader]: the task number and the number of tasks *)

Section task_index.
Context `{OsPath} `{HitGraphs}.

Lemma np_get_out_of_bounds {A} (a : list A) (i : Z) :
  ¬ in_bounds (length a) i → np_get a i = Raise IndexError.
Proof.
  unfold in_bounds, np_get, np_index. intros Hi.
  rewrite decide_False by lia. by rewrite decide_False by lia.
Qed.

Lemma np_get_negative {A} (a : list A) (i : Z) :
  - Z.of_nat (length a) ≤ i < 0 →
  np_get a i = np_get a (Z.of_nat (length a) + i).
Proof.
  intros Hi. unfold np_get, np_index.
  rewrite decide_False by lia. rewrite decide_True by lia.
  by rewrite (decide_True (P := 0 ≤ _ < _)) by lia.
Qed.

Lemma get_data_loader_unfold (h : heap) (config : pyval) (n_tasks task : Z)
    (ds : dataset graph) :
  data_utils.get_dataset h config = Ok ds → 1 ≤ n_tasks →
  data_utils.get_data_loader h config n_tasks task =
    (sub_indices ←
       np_get (reshape (split_sizes (ds_len ds) (Z.to_nat n_tasks))
                       (map Z.of_nat (seq 0 (ds_len ds)))) task;
     Ok (DataLoader (Subset ds sub_indices) 1 Batch_from_data_list,
         sub_indices)).
Proof.
  intros Hds Hn. unfold data_utils.get_data_loader. rewrite Hds.
  cbn [mbind result_bind]. rewrite arange_nonneg by lia.
  cbn [mbind result_bind]. rewrite Nat2Z.id. unfold range.
  rewrite array_split_reshape by done.
  by rewrite length_map, length_seq.
Qed.

(** With a dataset at hand, [get_data_loader] raises [ValueError] for
    [n_tasks <= 0] and [IndexError] for a task outside
    [-n_tasks, ..., n_tasks - 1]; a negative task counts from the last
    one, so task [-1] is task [n_tasks - 1]. *)
Theorem get_data_loader_task_index (h : heap) (config : pyval)
    (n_tasks task : Z) (ds : dataset graph)
    (Hds : data_utils.get_dataset h config = Ok ds) :
  (n_tasks ≤ 0 →
   data_utils.get_data_loader h config n_tasks task = Raise ValueError)
  ∧ (1 ≤ n_tasks → ¬ (- n_tasks ≤ task < n_tasks) →
     data_utils.get_data_loader h config n_tasks task = Raise IndexError)
  ∧ (1 ≤ n_tasks → - n_tasks ≤ task < 0 →
     data_utils.get_data_loader h config n_tasks task
     = data_utils.get_data_loader h config n_tasks (n_tasks + task)).
Proof.
  assert (Hlen : 1 ≤ n_tasks →
    Z.of_nat (length (reshape (split_sizes (ds_len ds) (Z.to_nat n_tasks))
                              (map Z.of_nat (seq 0 (ds_len ds)))))
    = n_tasks).
  { intros Hn. rewrite length_reshape, split_sizes_length by lia. lia. }
  split; [|split].
  - intros Hn. unfold data_utils.get_data_loader. rewrite Hds.
    cbn [mbind result_bind]. rewrite arange_nonneg by lia.
    cbn [mbind result_bind]. unfold np.array_split.
    by rewrite decide_True by done.
  - intros Hn Hout. rewrite (get_data_loader_unfold _ _ _ _ ds) by done.
    rewrite np_get_out_of_bounds; [done|].
    unfold in_bounds. rewrite (Hlen Hn). lia.
  - intros Hn Hneg. rewrite !(get_data_loader_unfold _ _ _ _ ds) by done.
    rewrite np_get_negative by (rewrite (Hlen Hn); lia).
    by rewrite (Hlen Hn).
Qed.

Lemma split_sizes_more_sections (total sections : nat) :
  (total < sections)%nat →
  split_sizes total sections
  = replicate total 1%nat ++ replicate (sections - total) 0%nat.
Proof.
  intros Hlt. unfold split_sizes.
  by rewrite Nat.mod_small, Nat.div_small by done.
Qed.

Lemma sum_take_ones (total rest t : nat) :
  sum_list (take t (replicate total 1%nat ++ replicate rest 0%nat))
  = (t `min` total)%nat.
Proof.
  rewrite take_app, length_replicate, !take_replicate.
  rewrite sum_list_with_app, !sum_list_replicate. lia.
Qed.

(** With more tasks than samples, task [t] gets the one index [t] as
    long as [t < N], and every later task gets no index at all and a
    loader that yields nothing. *)
Theorem more_tasks_than_samples (h : heap) (config : pyval)
    (n_tasks : Z) (t : nat) (ds : dataset graph)
    (Hds : data_utils.get_dataset h config = Ok ds)
    (Hmore : Z.of_nat (ds_len ds) < n_tasks)
    (Ht : Z.of_nat t < n_tasks) :
  ∃ dl, data_utils.get_data_loader h config n_tasks (Z.of_nat t)
        = Ok (dl, if decide (t < ds_len ds)%nat then [Z.of_nat t] else [])
     ∧ ((ds_len ds ≤ t)%nat → batches dl = Ok [])
     ∧ ((t < ds_len ds)%nat →
        batches dl = (s ← ds_getitem ds (Z.of_nat t);
                      Ok [Batch_from_data_list [s]])).
Proof.
  set (total := ds_len ds).
  set (sizes := split_sizes total (Z.to_nat n_tasks)).
  assert (Hsizes : sizes = replicate total 1%nat
                           ++ replicate (Z.to_nat n_tasks - total) 0%nat).
  { apply split_sizes_more_sections. lia. }
  assert (Hsum : sum_list sizes = total) by (apply split_sizes_sum; lia).
  destruct (lookup_lt_is_Some_2
              (reshape sizes (map Z.of_nat (seq 0 total))) t) as [part Hpart].
  { rewrite length_reshape. unfold sizes.
    rewrite split_sizes_length by lia. lia. }
  destruct (reshape_indices sizes total t part Hsum Hpart) as (s & Hs & ->).
  assert (Hpart' : map Z.of_nat (seq (sum_list (take t sizes)) s)
                   = if decide (t < total)%nat then [Z.of_nat t] else []).
  { rewrite Hsizes, sum_take_ones. rewrite Hsizes in Hs.
    apply lookup_app_Some in Hs as [Hs|[Hge Hs]];
      apply lookup_replicate in Hs as [-> Hlt].
    - rewrite decide_True by done. simpl. do 2 f_equal. lia.
    - rewrite length_replicate in Hge. by rewrite decide_False by lia. }
  rewrite Hpart' in Hpart.
  eexists. split; [|split].
  - rewrite (get_data_loader_unfold _ _ _ _ ds) by (done || lia).
    fold total. fold sizes. rewrite (np_get_nat _ _ _ Hpart).
    cbn [mbind result_bind]. reflexivity.
  - intros Hge. rewrite decide_False by lia.
    by rewrite (proj2 (subset_loader_batches ds [] Batch_from_data_list)).
  - intros Hlt. rewrite decide_True by done.
    rewrite (proj2 (subset_loader_batches ds [Z.of_nat t]
                      Batch_from_data_list)).
    simpl. by destruct (ds_getitem ds (Z.of_nat t)).
Qed.
End task_index.

Lemma get_data_loader_task_index_witness :
  data_utils.get_data_loader (H := demo.os_path) (H1 := demo.hit_graphs)
    demo.config_heap demo.config 3 (-1)
  = data_utils.get_data_loader (H := demo.os_path) (H1 := demo.hit_graphs)
      demo.config_heap demo.config 3 2
  ∧ data_utils.get_data_loader (H := demo.os_path) (H1 := demo.hit_graphs)
      demo.config_heap demo.config 3 3 = Raise IndexError.
Proof.
  destruct (get_data_loader_task_index (H := demo.os_path)
    (H1 := demo.hit_graphs) demo.config_heap demo.config 3 (-1)
    (demo.twenty_graphs (λ l, l)) eq_refl) as (_ & _ & Hneg).
  destruct (get_data_loader_task_index (H := demo.os_path)
    (H1 := demo.hit_graphs) demo.config_heap demo.config 3 3
    (demo.twenty_graphs (λ l, l)) eq_refl) as (_ & Hout & _).
  split; [apply Hneg; lia|apply Hout; lia].
Defined.

Lemma more_tasks_than_samples_witness :
  ∃ dl, data_utils.get_data_loader (H := demo.os_path)
          (H1 := demo.hit_graphs) demo.config_heap demo.config 25 22
        = Ok (dl, [])
     ∧ batches dl = Ok [].
Proof.
  destruct (more_tasks_than_samples (H := demo.os_path)
    (H1 := demo.hit_graphs) demo.config_heap demo.config 25 22
    (demo.twenty_graphs (λ l, l)) eq_refl) as (dl & Hrun & Hnone & _);
    [simpl; lia|lia|].
  exists dl. split; [exact Hrun|]. apply Hnone. simpl. lia.
Defined.


(** ** The model applied to the test loader *)

Section inference_on_test_loader.
Context `{OsPath} `{HitGraphs}.

(** When the dataset holds at least [n_test] samples and hands each of
    them out, [apply_model] over the test loader returns [n_test]
    predictions and targets, the [k]-th of them for the batch made of
    the one sample at position [N - 1 - k]. *)
Theorem apply_model_on_test_loader (h : heap) (config : pyval)
    (n_test : option Z) (net : batch → tensor F) (ds : dataset graph)
    (sample : nat → graph)
    (Hds : nb_utils.get_dataset h config = Ok ds)
    (Hn : 0 ≤ default 16 n_test)
    (Hlen : default 16 n_test ≤ Z.of_nat (ds_len ds))
    (Hload : ∀ i, (i < ds_len ds)%nat →
               ds_getitem ds (Z.of_nat i) = Ok (sample i)) :
  let n := Z.to_nat (default 16 n_test) in
  let nth_batch k := Batch_from_data_list [sample (ds_len ds - 1 - k)%nat] in
  ∃ dl, nb_utils.get_test_data_loader h config n_test = Ok dl
    ∧ nb_utils.apply_model net dl
      = Ok (map (λ k, squeeze0 (sigmoid (net (nth_batch k)))) (range n),
            map (λ k, squeeze0 (batch_y (nth_batch k))) (range n)).
Proof.
  intros n nth_batch.
  destruct (loader_from_the_back ds Batch_from_data_list n ltac:(lia))
    as (_ & _ & Hbatches).
  eexists. split.
  { unfold nb_utils.get_test_data_loader. rewrite Hds.
    cbn [mbind result_bind]. rewrite arange_nonneg by done.
    cbn [mbind result_bind]. reflexivity. }
  fold n. rewrite (apply_model_map net _ (map nth_batch (range n))).
  - by rewrite <- !list_fmap_compose.
  - rewrite Hbatches, <- collect_Ok. apply collect_ext.
    intros k Hk%elem_of_seq. rewrite Hload by lia. done.
Qed.
End inference_on_test_loader.

Lemma apply_model_on_test_loader_witness :
  ∃ dl preds targets,
    nb_utils.get_test_data_loader (H := demo.os_path)
      (H1 := demo.hit_graphs) demo.config_heap demo.config (Some 2) = Ok dl
    ∧ nb_utils.apply_model (H0 := demo.hit_graphs) demo.net dl
      = Ok (preds, targets)
    ∧ targets = [Tensor [2%nat] (demo.graph_labels 19);
                 Tensor [2%nat] (demo.graph_labels 18)].
Proof.
  destruct (apply_model_on_test_loader (H := demo.os_path)
    (H1 := demo.hit_graphs) demo.config_heap demo.config (Some 2) demo.net
    (demo.twenty_graphs (λ l, l)) demo.graph_labels eq_refl)
    as (dl & Hdl & Hrun).
  - simpl. lia.
  - simpl. lia.
  - intros i Hi. simpl in *. unfold np_index.
    rewrite decide_True by lia. simpl. by rewrite Nat2Z.id.
  - exists dl. eexists _, _. split; [exact Hdl|]. split; [exact Hrun|].
    reflexivity.
Defined.


(** ** Loops that stop at the first error *)

Section loop_facts.
Context {A S : Type}.
Implicit Types (body : S → A → result S).

Lemma for_each_ext body body' (l : list A) (s : S) :
  (∀ s a, a ∈ l → body s a = body' s a) →
  for_each body l s = for_each body' l s.
Proof.
  revert s. induction l as [|a l IH]; intros s Hext; [done|]. simpl.
  rewrite Hext by left. destruct (body' s a) as [s1|e]; [|done]. simpl.
  apply IH. intros s' a' Ha'. apply Hext. by right.
Qed.

(** A loop whose body keeps an invariant on the good items and raises
    [err] on the others runs through exactly when every item is good. *)
Lemma for_each_cases body (Inv : S → Prop) (good : A → Prop)
    `{!∀ a, Decision (good a)} (err : exn) (l : list A) :
  (∀ s a, Inv s → good a → ∃ s', body s a = Ok s' ∧ Inv s') →
  (∀ s a, Inv s → ¬ good a → body s a = Raise err) →
  ∀ s, Inv s →
  (Forall good l ∧ ∃ s', for_each body l s = Ok s' ∧ Inv s')
  ∨ (Exists (λ a, ¬ good a) l ∧ for_each body l s = Raise err).
Proof.
  intros Hgood Hbad. induction l as [|a l IH]; intros s Hs.
  { left. split; [constructor|]. by exists s. }
  destruct (decide (good a)) as [Ha|Ha].
  - destruct (Hgood s a Hs Ha) as (s1 & Hstep & Hs1).
    destruct (IH s1 Hs1) as [[Hall (s' & Hrun & Hs')]|[Hex Hrun]].
    + left. split; [by constructor|]. exists s'. simpl.
      rewrite Hstep. by split.
    + right. split; [by apply Exists_cons_tl|]. simpl.
      by rewrite Hstep.
  - right. split; [by apply Exists_cons_hd|]. simpl.
    by rewrite (Hbad s a Hs Ha).
Qed.

End loop_facts.

Lemma np_index_out_of_bounds (n : nat) (i : Z) :
  ¬ in_bounds n i → np_index n i = Raise IndexError.
Proof.
  unfold in_bounds, np_index. intros Hi.
  rewrite decide_False by lia. by rewrite decide_False by lia.
Qed.

Lemma np_iadd_out_of_bounds {A} (add : A → A → A) (a : list A) (i : Z)
    (v : A) :
  ¬ in_bounds (length a) i → np_iadd add a i v = Raise IndexError.
Proof.
  intros Hi. unfold np_iadd. by rewrite np_index_out_of_bounds.
Qed.


(** ** [add_multiplicity]: when it raises, and what the counts add up to *)

Section multiplicity_errors.
Context `{Scalar}.

Lemma add_multiplicity_body_good (cut : F) (n : nat) (mul : list nat)
    (w_mul : list F) (edge : Z * Z) (pred : F) :
  length mul = n → length w_mul = n →
  (F_gt pred cut = true → in_bounds n edge.1 ∧ in_bounds n edge.2) →
  ∃ mul' w_mul',
    nb_utils.add_multiplicity_body cut (mul, w_mul) (edge, pred)
      = Ok (mul', w_mul')
    ∧ length mul' = n ∧ length w_mul' = n
    ∧ sum_list mul' = (sum_list mul + if F_gt pred cut then 2 else 0)%nat.
Proof.
  intros Hmul Hw Hends. unfold nb_utils.add_multiplicity_body.
  destruct (F_gt pred cut) eqn:Hgt.
  2:{ exists mul, w_mul. do 3 (split; [done|]). lia. }
  destruct (Hends eq_refl) as [H1 H2]. subst n.
  destruct (np_iadd_in_bounds Nat.add mul edge.1 1%nat H1)
    as (k1 & Hk1 & ->). cbn [mbind result_bind].
  destruct (np_iadd_in_bounds Nat.add
              (alter (λ x, Nat.add x 1) k1 mul) edge.2 1%nat)
    as (k2 & Hk2 & ->); [by rewrite length_alter|].
  cbn [mbind result_bind]. rewrite length_alter in Hk2.
  rewrite <- Hw in H1, H2.
  destruct (np_iadd_in_bounds F_add w_mul edge.1 (F_square pred) H1)
    as (k1' & Hk1' & ->). cbn [mbind result_bind].
  destruct (np_iadd_in_bounds F_add
              (alter (λ x, F_add x (F_square pred)) k1' w_mul)
              edge.2 (F_square pred))
    as (k2' & Hk2' & ->); [by rewrite length_alter|].
  cbn [mbind result_bind].
  eexists _, _. split; [done|]. rewrite !length_alter.
  split; [done|]. split; [done|].
  apply np_index_Ok in Hk1, Hk2.
  assert (Hsum : ∀ (l : list nat) k, (k < length l)%nat →
    sum_list (alter (λ x, Nat.add x 1) k l) = (sum_list l + 1)%nat).
  { induction l as [|x l IH]; intros [|k] Hk; simpl in *; try lia.
    specialize (IH k ltac:(lia)). unfold alter in IH. lia. }
  rewrite !Hsum by (rewrite ?length_alter; lia). lia.
Qed.

Lemma add_multiplicity_body_bad (cut : F) (n : nat) (mul : list nat)
    (w_mul : list F) (edge : Z * Z) (pred : F) :
  length mul = n → length w_mul = n →
  ¬ (F_gt pred cut = true → in_bounds n edge.1 ∧ in_bounds n edge.2) →
  nb_utils.add_multiplicity_body cut (mul, w_mul) (edge, pred)
  = Raise IndexError.
Proof.
  intros Hmul Hw Hbad. unfold nb_utils.add_multiplicity_body.
  destruct (F_gt pred cut) eqn:Hgt; [|by destruct Hbad].
  subst n. destruct (decide (in_bounds (length mul) edge.1)) as [H1|H1].
  - destruct (np_iadd_in_bounds Nat.add mul edge.1 1%nat H1)
      as (k1 & Hk1 & ->). cbn [mbind result_bind].
    rewrite (np_iadd_out_of_bounds Nat.add (alter _ k1 mul));
      [reflexivity|]. rewrite length_alter.
    intros H2. by apply Hbad.
  - rewrite (np_iadd_out_of_bounds Nat.add mul); [reflexivity|done].
Qed.

(** The loop of [add_multiplicity] from arrays of length [n]. *)
Lemma add_multiplicity_runs (cut : F) (n : nat) (items : list (Z * Z * F))
    (mul : list nat) (w_mul : list F) :
  let good (item : Z * Z * F) :=
    F_gt item.2 cut = true → in_bounds n item.1.1 ∧ in_bounds n item.1.2 in
  length mul = n → length w_mul = n →
  (Forall good items
   ∧ ∃ acc, for_each (nb_utils.add_multiplicity_body cut) items (mul, w_mul)
            = Ok acc ∧ length acc.1 = n ∧ length acc.2 = n)
  ∨ (Exists (λ item, ¬ good item) items
     ∧ for_each (nb_utils.add_multiplicity_body cut) items (mul, w_mul)
       = Raise IndexError).
Proof.
  intros good Hmul Hw.
  apply (for_each_cases (nb_utils.add_multiplicity_body cut)
           (λ acc, length acc.1 = n ∧ length acc.2 = n) good IndexError
           items); [| |done].
  - intros [mul1 w1] [edge pred] [Hm1 Hw1] Hgood.
    destruct (add_multiplicity_body_good cut n mul1 w1 edge pred Hm1 Hw1
                Hgood) as (mul' & w' & -> & ? & ? & _).
    by eexists.
  - intros [mul1 w1] [edge pred] [Hm1 Hw1] Hbad.
    by apply (add_multiplicity_body_bad cut n).
Qed.

(** [add_multiplicity] raises exactly when an edge above the cut, among
    those paired with a prediction, has an end point that addresses no
    hit; what it raises then is [IndexError], and it raises nothing
    else.  Edges at or below the cut are not looked at. *)
Theorem add_multiplicity_index_error {Hit} (hits : list Hit)
    (edges : list (Z * Z)) (preds : list F) (cut : option F) :
  let c := default F_half cut in
  let n := length hits in
  (nb_utils.add_multiplicity hits edges preds cut = Raise IndexError
   ↔ ∃ e p, (e, p) ∈ zip edges preds ∧ F_gt p c = true
            ∧ ¬ (in_bounds n e.1 ∧ in_bounds n e.2))
  ∧ (∀ err, nb_utils.add_multiplicity hits edges preds cut = Raise err →
            err = IndexError).
Proof.
  intros c n. unfold nb_utils.add_multiplicity. fold c n.
  destruct (add_multiplicity_runs c n (zip edges preds)
              (np.zeros 0%nat n) (np.zeros F_zero n))
    as [[Hall (acc & Hrun & _)]|[Hex Hrun]];
    [apply length_replicate|apply length_replicate| |].
  - rewrite Hrun. split; [|done]. split; [done|].
    intros (e & p & Hin & Hgt & Hbad). exfalso. apply Hbad.
    rewrite Forall_forall in Hall. by apply (Hall (e, p)).
  - rewrite Hrun. split; [|by intros ? [= <-]]. split; [|done].
    intros _. apply Exists_exists in Hex as ([e p] & Hin & Hbad).
    exists e, p. split; [done|]. simpl in Hbad.
    destruct (F_gt p c) eqn:Hgt; [|by destruct Hbad].
    split; [done|]. intros Hb. by apply Hbad.
Qed.

Lemma add_multiplicity_sum (cut : F) (n : nat) (edges : list (Z * Z)) :
  ∀ (preds : list F) (mul : list nat) (w_mul : list F),
  length mul = n → length w_mul = n →
  (∀ e p, (e, p) ∈ zip edges preds → F_gt p cut = true →
          in_bounds n e.1 ∧ in_bounds n e.2) →
  ∃ mul' w_mul',
    for_each (nb_utils.add_multiplicity_body cut) (zip edges preds)
             (mul, w_mul) = Ok (mul', w_mul')
    ∧ sum_list mul'
      = (sum_list mul
         + 2 * length (filter (λ ep, F_gt ep.2 cut = true)
                              (zip edges preds)))%nat.
Proof.
  induction edges as [|edge edges IH]; intros preds mul w_mul Hmul Hw Hends.
  { exists mul, w_mul. split; [done|]. simpl. lia. }
  destruct preds as [|pred preds].
  { exists mul, w_mul. split; [done|]. simpl. lia. }
  destruct (add_multiplicity_body_good cut n mul w_mul edge pred Hmul Hw)
    as (mul1 & w1 & Hstep & Hmul1 & Hw1 & Hsum1).
  { apply Hends. simpl. left. }
  destruct (IH preds mul1 w1 Hmul1 Hw1) as (mul' & w' & Hrun & Hsum).
  { intros e p Hin. apply Hends. simpl. by right. }
  exists mul', w'. split.
  { cbn [zip zip_with for_each]. rewrite Hstep. exact Hrun. }
  rewrite Hsum, Hsum1. cbn [zip zip_with].
  destruct (F_gt pred cut) eqn:Hgt.
  - rewrite filter_cons_True by done. simpl. lia.
  - rewrite filter_cons_False by (simpl; congruence). lia.
Qed.

(** The counts of [add_multiplicity] add up to twice the number of edges
    above the cut: every such edge is counted at its two end points,
    also when they are the same hit. *)
Theorem add_multiplicity_handshake {Hit} (hits : list Hit)
    (edges : list (Z * Z)) (preds : list F) (cut : option F)
    (Hends : ∀ e p, (e, p) ∈ zip edges preds →
       F_gt p (default F_half cut) = true →
       in_bounds (length hits) e.1 ∧ in_bounds (length hits) e.2) :
  let c := default F_half cut in
  ∃ mul w_mul,
    nb_utils.add_multiplicity hits edges preds cut = Ok (mul, w_mul)
    ∧ sum_list mul
      = (2 * length (filter (λ ep, F_gt ep.2 c = true)
                            (zip edges preds)))%nat.
Proof.
  intros c.
  destruct (add_multiplicity_sum c (length hits) edges preds
              (np.zeros 0%nat (length hits)) (np.zeros F_zero (length hits)))
    as (mul & w_mul & Hrun & Hsum);
    [apply length_replicate|apply length_replicate|done|].
  exists mul, w_mul. split; [exact Hrun|]. rewrite Hsum.
  unfold np.zeros. rewrite sum_list_replicate. lia.
Qed.
End multiplicity_errors.

Lemma add_multiplicity_handshake_witness :
  ∃ mul w_mul,
    nb_utils.add_multiplicity (H := demo.rationals)
      demo.hits demo.edges demo.preds None = Ok (mul, w_mul)
    ∧ sum_list mul = 4%nat.
Proof.
  destruct (add_multiplicity_handshake (H := demo.rationals)
    demo.hits demo.edges demo.preds None)
    as (mul & w_mul & Hrun & Hsum).
  - intros e p Hin%elem_of_zip_l _. by apply demo_edges_in_bounds.
  - exists mul, w_mul. split; [exact Hrun|]. rewrite Hsum. reflexivity.
Defined.


(** ** [tf_multiplicity]: the table of counts *)

Section tf_multiplicity_facts.
Context `{Scalar}.

Lemma insert_alter {A} (f : A → A) (l : list A) (k : nat) (x : A) :
  l !! k = Some x → <[k := f x]> l = alter f k l.
Proof.
  revert k. induction l as [|y l IH]; intros [|k] Hk; simplify_eq/=;
    [done|]. f_equal. by apply IH.
Qed.

Lemma rows_alter (f : nat → nat) (c k : nat) (t : list (list nat)) :
  Forall (λ row, length row = 4%nat) t →
  Forall (λ row, length row = 4%nat) (alter (alter f c) k t).
Proof.
  intros Ht. apply Forall_alter; [done|]. intros row _ Hrow.
  by rewrite length_alter.
Qed.

(** [tf_mul[i][c] += v] on a table of rows of four, for a column
    [c] of the four. *)
Lemma np_iadd2_in_bounds (t : list (list nat)) (i c : Z) (v : nat) :
  Forall (λ row, length row = 4%nat) t →
  in_bounds (length t) i → 0 ≤ c < 4 →
  ∃ k, np_index (length t) i = Ok k
       ∧ np_iadd2 Nat.add t i c v
         = Ok (alter (alter (λ x, Nat.add x v) (Z.to_nat c)) k t).
Proof.
  intros Ht Hi Hc. destruct (np_index_valid _ _ Hi) as (k & Hk & Hlt).
  exists k. split; [done|]. unfold np_iadd2. rewrite Hk.
  cbn [mbind result_bind].
  destruct (lookup_lt_is_Some_2 t k Hlt) as [row Hrow]. rewrite Hrow.
  rewrite Forall_lookup in Ht. unfold np_iadd, np_index.
  rewrite (Ht k row Hrow). rewrite decide_True by lia.
  cbn [mbind result_bind]. f_equal.
  by apply (insert_alter (alter (λ x, Nat.add x v) (Z.to_nat c))).
Qed.

Lemma np_iadd2_out_of_bounds (t : list (list nat)) (i c : Z) (v : nat) :
  ¬ in_bounds (length t) i → np_iadd2 Nat.add t i c v = Raise IndexError.
Proof.
  intros Hi. unfold np_iadd2. by rewrite np_index_out_of_bounds.
Qed.

(** What one edge adds to the row of node [k]. *)
Lemma tf_multiplicity_body_at (cut : F) (n : nat) (t : list (list nat))
    (e : Z * Z) (p l : F) :
  length t = n → Forall (λ row, length row = 4%nat) t →
  in_bounds n e.1 → in_bounds n e.2 →
  ∃ t', nb_utils.tf_multiplicity_body cut t (e, p, l) = Ok t'
    ∧ length t' = n ∧ Forall (λ row, length row = 4%nat) t'
    ∧ ∀ k a b c d, t !! k = Some [a; b; c; d] →
        t' !! k
        = Some [a + (if is_tp cut p l then ends_at n k e else 0);
                b + (if is_fp cut p l then ends_at n k e else 0);
                c + (if is_tn cut p l then ends_at n k e else 0);
                d + (if is_fn cut p l then first_end_twice n k e else 0)
               ]%nat.
Proof.
  intros Hlen Ht H1 H2. subst n. unfold nb_utils.tf_multiplicity_body.
  destruct (np_index_valid _ _ H1) as (k1 & Hk1 & _).
  destruct (np_index_valid _ _ H2) as (k2 & Hk2 & _).
  assert (Hstep : ∀ t' i c v k,
    length t' = length t → Forall (λ row, length row = 4%nat) t' →
    np_index (length t) i = Ok k → 0 ≤ c < 4 →
    np_iadd2 Nat.add t' i c v
    = Ok (alter (alter (λ x, Nat.add x v) (Z.to_nat c)) k t')).
  { intros t' i c v k Hl' Ht' Hk Hc.
    destruct (np_iadd2_in_bounds t' i c v Ht') as (k' & Hk' & ->);
      [|done|].
    - rewrite Hl'. apply np_index_Ok in Hk as Hlt.
      unfold in_bounds. unfold np_index in Hk.
      repeat case_decide; simplify_eq; lia.
    - rewrite Hl' in Hk'. congruence. }
  repeat match goal with
  | |- context [np_iadd2 Nat.add ?t' ?i ?c ?v] =>
      first [rewrite (Hstep t' i c v k1)
               by first [lia|by rewrite ?length_alter
                        |by repeat apply rows_alter]
            |rewrite (Hstep t' i c v k2)
               by first [lia|by rewrite ?length_alter
                        |by repeat apply rows_alter]];
      cbn [mbind result_bind]
  end.
  eexists. split; [done|]. rewrite !length_alter. split; [done|].
  split; [by repeat apply rows_alter|].
  intros k a b c d Hrow.
  unfold ends_at, first_end_twice, is_node, is_tp, is_fp, is_tn, is_fn.
  rewrite Hk1, Hk2.
  change (Z.to_nat 0) with 0%nat; change (Z.to_nat 1) with 1%nat;
    change (Z.to_nat 2) with 2%nat; change (Z.to_nat 3) with 3%nat.
  destruct (decide (k1 = k)) as [->|Hn1];
    destruct (decide (k2 = k)) as [->|Hn2];
    repeat first [rewrite list_lookup_alter_eq
                 |rewrite list_lookup_alter_ne by done];
    rewrite Hrow; repeat case_bool_decide; try done;
    cbn [fmap option_fmap option_map alter list_alter];
    destruct (F_gt p cut), (F_lt p cut), (F_gt l cut), (F_lt l cut);
    cbn [andb int_of_bool]; apply (f_equal Some);
    repeat (apply (f_equal2 (@cons nat)); [lia|]); done.
Qed.

Lemma tf_multiplicity_body_bad (cut : F) (n : nat) (t : list (list nat))
    (e : Z * Z) (p l : F) :
  length t = n → Forall (λ row, length row = 4%nat) t →
  ¬ (in_bounds n e.1 ∧ in_bounds n e.2) →
  nb_utils.tf_multiplicity_body cut t (e, p, l) = Raise IndexError.
Proof.
  intros Hlen Ht Hbad. subst n. unfold nb_utils.tf_multiplicity_body.
  destruct (decide (in_bounds (length t) e.1)) as [H1|H1].
  - destruct (np_iadd2_in_bounds t e.1 0
                (int_of_bool (F_gt p cut && F_gt l cut)) Ht H1 ltac:(lia))
      as (k1 & Hk1 & ->). cbn [mbind result_bind].
    rewrite (np_iadd2_out_of_bounds (alter _ k1 t)); [reflexivity|].
    rewrite length_alter. intros H2. by apply Hbad.
  - rewrite (np_iadd2_out_of_bounds t); [reflexivity|done].
Qed.

(** The loop of [tf_multiplicity], from any table of [n] rows of four. *)
Lemma tf_multiplicity_loop (cut : F) (n : nat)
    (items : list (Z * Z * F * F)) :
  ∀ t : list (list nat),
  length t = n → Forall (λ row, length row = 4%nat) t →
  Forall (λ item, in_bounds n item.1.1.1 ∧ in_bounds n item.1.1.2) items →
  ∃ t', for_each (nb_utils.tf_multiplicity_body cut) items t = Ok t'
    ∧ length t' = n
    ∧ ∀ k a b c d, t !! k = Some [a; b; c; d] →
        let total (cls : F → F → bool) (weight : Z * Z → nat) :=
          sum_list_with (λ '(e, p, l), if cls p l then weight e else 0%nat)
                        items in
        t' !! k
        = Some [a + total (is_tp cut) (ends_at n k);
                b + total (is_fp cut) (ends_at n k);
                c + total (is_tn cut) (ends_at n k);
                d + total (is_fn cut) (first_end_twice n k)]%nat.
Proof.
  induction items as [|[[e p] l] items IH]; intros t Hlen Ht Hends.
  { exists t. do 2 (split; [done|]). intros k a b c d Hrow. simpl.
    by rewrite !Nat.add_0_r. }
  apply Forall_cons in Hends as [[H1 H2] Hends]. simpl in H1, H2.
  destruct (tf_multiplicity_body_at cut n t e p l Hlen Ht H1 H2)
    as (t1 & Hstep & Hlen1 & Ht1 & Hat1).
  destruct (IH t1 Hlen1 Ht1 Hends) as (t' & Hrun & Hlen' & Hat).
  exists t'. split; [|split; [done|]].
  { cbn [for_each]. rewrite Hstep. exact Hrun. }
  intros k a b c d Hrow. cbn zeta.
  rewrite (Hat k _ _ _ _ (Hat1 k a b c d Hrow)). cbn [sum_list_with].
  by rewrite !(assoc_L Nat.add).
Qed.

(** The table of [tf_multiplicity]: one row of four counts per hit.  At
    node [k] the first three hold the end points at [k] of the true
    positive, false positive and true negative edges; the fourth holds
    two for every false negative edge whose first end point is [k], and
    nothing for its second end point. *)
Theorem tf_multiplicity_table {Hit} (hits : list Hit)
    (edges : list (Z * Z)) (preds labels : list F) (cut : option F)
    (Hends : ∀ e p l, (e, p, l) ∈ zip (zip edges preds) labels →
       in_bounds (length hits) e.1 ∧ in_bounds (length hits) e.2) :
  let c := default F_half cut in
  let n := length hits in
  ∃ tf_mul,
    nb_utils.tf_multiplicity hits edges preds labels cut = Ok tf_mul
    ∧ length tf_mul = n
    ∧ ∀ k, (k < n)%nat →
        tf_mul !! k
        = Some [class_ends (is_tp c) (ends_at n k) edges preds labels;
                class_ends (is_fp c) (ends_at n k) edges preds labels;
                class_ends (is_tn c) (ends_at n k) edges preds labels;
                class_ends (is_fn c) (first_end_twice n k)
                           edges preds labels].
Proof.
  intros c n.
  destruct (tf_multiplicity_loop c n (zip (zip edges preds) labels)
              (np.zeros (np.zeros 0%nat 4) n))
    as (t' & Hrun & Hlen & Hat).
  - apply length_replicate.
  - by apply Forall_replicate.
  - apply Forall_forall. intros [[e p] l] Hin. by apply (Hends e p l).
  - exists t'. split; [exact Hrun|]. split; [done|].
    intros k Hk.
    by rewrite (Hat k 0 0 0 0)%nat by by apply lookup_replicate_2.
Qed.

(** [tf_multiplicity] raises exactly when an edge that is paired with a
    prediction and a label has an end point that addresses no hit,
    whatever the class of the edge; it raises [IndexError] then and
    nothing else. *)
Theorem tf_multiplicity_index_error {Hit} (hits : list Hit)
    (edges : list (Z * Z)) (preds labels : list F) (cut : option F) :
  let n := length hits in
  (nb_utils.tf_multiplicity hits edges preds labels cut = Raise IndexError
   ↔ ∃ e p l, (e, p, l) ∈ zip (zip edges preds) labels
              ∧ ¬ (in_bounds n e.1 ∧ in_bounds n e.2))
  ∧ (∀ err, nb_utils.tf_multiplicity hits edges preds labels cut
            = Raise err → err = IndexError).
Proof.
  intros n. unfold nb_utils.tf_multiplicity. fold n.
  set (c := default F_half cut).
  destruct (for_each_cases (nb_utils.tf_multiplicity_body c)
              (λ t, length t = n ∧ Forall (λ row, length row = 4%nat) t)
              (λ item, in_bounds n item.1.1.1 ∧ in_bounds n item.1.1.2)
              IndexError (zip (zip edges preds) labels))
    with (s := np.zeros (np.zeros 0%nat 4) n)
    as [[Hall (t' & Hrun & _)]|[Hex Hrun]].
  - intros t [[e p] l] [Hlen Ht] [H1 H2].
    destruct (tf_multiplicity_body_at c n t e p l Hlen Ht H1 H2)
      as (t1 & -> & ? & ? & _). by eexists.
  - intros t [[e p] l] [Hlen Ht] Hbad.
    by apply (tf_multiplicity_body_bad c n).
  - split; [apply length_replicate|by apply Forall_replicate].
  - rewrite Hrun. split; [|done]. split; [done|].
    intros (e & p & l & Hin & Hbad). exfalso. apply Hbad.
    rewrite Forall_forall in Hall. by apply (Hall (e, p, l)).
  - rewrite Hrun. split; [|by intros ? [= <-]]. split; [|done].
    intros _. apply Exists_exists in Hex as ([[e p] l] & Hin & Hbad).
    by exists e, p, l.
Qed.
End tf_multiplicity_facts.

Lemma tf_multiplicity_table_witness :
  ∃ tf_mul,
    nb_utils.tf_multiplicity (H := demo.rationals)
      demo.hits demo.edges demo.preds demo.labels None = Ok tf_mul
    ∧ tf_mul !! 0%nat = Some [1; 0; 1; 2]%nat
    ∧ tf_mul !! 1%nat = Some [0; 1; 0; 0]%nat.
Proof.
  destruct (tf_multiplicity_table (H := demo.rationals)
    demo.hits demo.edges demo.preds demo.labels None)
    as (tf_mul & Hrun & _ & Hat).
  - intros e p l Hin%elem_of_zip_l%elem_of_zip_l.
    by apply demo_edges_in_bounds.
  - exists tf_mul. split; [exact Hrun|].
    split; [apply (Hat 0%nat)|apply (Hat 1%nat)]; simpl; lia.
Defined.


(** ** What [draw_sample_xy] needs of its arrays *)

Section drawing_loops.
Context {Art : Type}.

(** A loop over [range(m)] whose pass [j] appends [line j]. *)
Lemma for_each_range_lines (body : list Art → nat → result (list Art))
    (line : nat → list Art) (m : nat) :
  (∀ ax0 j, (j < m)%nat → body ax0 j = Ok (ax0 ++ line j)) →
  ∀ ax0, for_each body (range m) ax0
         = Ok (ax0 ++ concat (map line (range m))).
Proof.
  intros Hbody. unfold range.
  assert (Hseq : ∀ n k ax0, (k + n ≤ m)%nat →
    for_each body (seq k n) ax0 = Ok (ax0 ++ concat (map line (seq k n)))).
  { induction n as [|n IH]; intros k ax0 Hk; simpl.
    - by rewrite app_nil_r.
    - rewrite Hbody by lia. simpl. rewrite IH by lia.
      by rewrite (assoc_L (++)). }
  intros ax0. apply Hseq. lia.
Qed.

Lemma lookup_range_lines (line : nat → list Art) (m j : nat) :
  (j < m)%nat → map line (range m) !! j = Some (line j).
Proof.
  intros Hj. unfold range. rewrite list_lookup_fmap, lookup_seq_lt by done.
  done.
Qed.
End drawing_loops.

(** A loop that returns has returned from every pass. *)
Lemma for_each_Ok_inv {A S} (body : S → A → result S) (l : list A)
    (s s' : S) :
  for_each body l s = Ok s' → ∀ a, a ∈ l → ∃ s1 s2, body s1 a = Ok s2.
Proof.
  revert s. induction l as [|a l IH]; intros s Hrun a' Ha'.
  { by apply elem_of_nil in Ha'. }
  simpl in Hrun. destruct (body s a) as [s1|] eqn:Hstep; [|done].
  simpl in Hrun. apply elem_of_cons in Ha' as [->|Ha'].
  - by eexists _, _.
  - by eapply IH.
Qed.

Lemma np_get_Ok_in_bounds {A} (a : list A) (i : Z) (v : A) :
  np_get a i = Ok v → in_bounds (length a) i.
Proof.
  unfold np_get, np_index, in_bounds.
  repeat case_decide; try done; lia.
Qed.

Lemma np_get_Ok_nat {A} (a : list A) (j : nat) (v : A) :
  np_get a (Z.of_nat j) = Ok v → a !! j = Some v.
Proof.
  unfold np_get, np_index. case_decide.
  - simpl. rewrite Nat2Z.id. destruct (a !! j); congruence.
  - case_decide; [lia|done].
Qed.

Section drawing_needs.
Context `{Scalar}.

Lemma plot_segment_needs (x y : list F) (edges : list (Z * Z)) (j : nat)
    (fmt c : string) (alpha : option F) (line : artist F) :
  nb_utils.plot_segment x y edges j fmt c alpha = Ok line →
  ∃ e, edges !! j = Some e
       ∧ in_bounds (length x) e.1 ∧ in_bounds (length x) e.2.
Proof.
  unfold nb_utils.plot_segment.
  destruct (np_get edges (Z.of_nat j)) as [e|] eqn:He; [|done].
  cbn [mbind result_bind].
  destruct (np_get x e.1) as [x0|] eqn:Hx0; [|done].
  cbn [mbind result_bind].
  destruct (np_get x e.2) as [x1|] eqn:Hx1; [|done].
  intros _. exists e. split; [by apply np_get_Ok_nat|].
  split; by eapply np_get_Ok_in_bounds.
Qed.

Lemma draw_segment_needs (x y : list F) (edges : list (Z * Z))
    (preds labels : list F) (cut : F) (ax0 ax1 : list (artist F)) (j : nat) :
  nb_utils.draw_segment x y edges preds labels cut ax0 j = Ok ax1 →
  ∃ p l, preds !! j = Some p ∧ labels !! j = Some l
    ∧ (is_fn cut p l = true ∨ is_fp cut p l = true ∨ is_tp cut p l = true →
       ∃ e, edges !! j = Some e
            ∧ in_bounds (length x) e.1 ∧ in_bounds (length x) e.2).
Proof.
  unfold nb_utils.draw_segment, is_fn, is_fp, is_tp.
  destruct (np_get preds (Z.of_nat j)) as [p|] eqn:Hp; [|done].
  cbn [mbind result_bind].
  destruct (np_get labels (Z.of_nat j)) as [l|] eqn:Hl; [|done].
  cbn [mbind result_bind]. intros Hrun. exists p, l.
  split; [by apply np_get_Ok_nat|]. split; [by apply np_get_Ok_nat|].
  intros Hcls.
  destruct (F_lt p cut && F_gt l cut).
  { destruct (nb_utils.plot_segment x y edges j "--" "b" None)
      as [line|] eqn:Hline; [|done]. by eapply plot_segment_needs. }
  cbn [mbind result_bind] in Hrun.
  destruct (F_gt p cut && F_lt l cut).
  { destruct (nb_utils.plot_segment x y edges j "-" "r" (Some p))
      as [line|] eqn:Hline; [|done]. by eapply plot_segment_needs. }
  cbn [mbind result_bind] in Hrun.
  destruct (F_gt p cut && F_gt l cut).
  { destruct (nb_utils.plot_segment x y edges j "-" "k" (Some p))
      as [line|] eqn:Hline; [|done]. by eapply plot_segment_needs. }
  by destruct Hcls as [?|[?|?]].
Qed.

(** When [draw_sample_xy] returns, there was a prediction for every
    label, and every edge it had to draw, a false negative, a false
    positive or a true positive, was there with both end points at
    hits.  Edges that are not drawn are not looked at. *)
Theorem draw_sample_xy_needs (hits : list (list F)) (edges : list (Z * Z))
    (preds labels : list F) (cut : option F) (ax0 : list (artist F))
    (Hrun : nb_utils.draw_sample_xy hits edges preds labels cut = Ok ax0) :
  let c := default F_half cut in
  (length labels ≤ length preds)%nat
  ∧ ∀ j p l, preds !! j = Some p → labels !! j = Some l →
      is_fn c p l = true ∨ is_fp c p l = true ∨ is_tp c p l = true →
      ∃ e, edges !! j = Some e
           ∧ in_bounds (length hits) e.1 ∧ in_bounds (length hits) e.2.
Proof.
  intros c. unfold nb_utils.draw_sample_xy in Hrun. fold c in Hrun.
  destruct (np_column hits 0) as [r|] eqn:Hr; [|done].
  cbn [mbind result_bind] in Hrun.
  destruct (np_column hits 1) as [phi|] eqn:Hphi; [|done].
  cbn [mbind result_bind] in Hrun.
  apply collect_length in Hr, Hphi.
  set (x := zip_with F_mul r (map F_cos phi)) in *.
  assert (Hx : length x = length hits).
  { unfold x. rewrite length_zip_with, length_map. lia. }
  pose proof (for_each_Ok_inv _ _ _ _ Hrun) as Hpass.
  assert (Hj : ∀ j, (j < length labels)%nat →
    ∃ p l, preds !! j = Some p ∧ labels !! j = Some l
      ∧ (is_fn c p l = true ∨ is_fp c p l = true ∨ is_tp c p l = true →
         ∃ e, edges !! j = Some e
              ∧ in_bounds (length hits) e.1 ∧ in_bounds (length hits) e.2)).
  { intros j Hlt. destruct (Hpass j) as (s1 & s2 & Hstep).
    { apply elem_of_seq. lia. }
    rewrite <- Hx. by eapply draw_segment_needs. }
  split.
  - destruct (decide (length labels ≤ length preds)%nat) as [|Hshort];
      [done|].
    destruct (Hj (length preds)) as (p & l & Hp%lookup_lt_Some & _); lia.
  - intros j p l Hp Hl Hcls.
    destruct (Hj j) as (p' & l' & Hp' & Hl' & He).
    { by eapply lookup_lt_Some. }
    simplify_eq. by apply He.
Qed.
End drawing_needs.

Lemma draw_sample_xy_needs_witness :
  (length demo.labels ≤ length demo.preds)%nat
  ∧ ∃ e, demo.edges !! 0%nat = Some e
         ∧ in_bounds (length demo.hits) e.1
         ∧ in_bounds (length demo.hits) e.2.
Proof.
  destruct (draw_sample_xy_needs (H := demo.rationals)
    demo.hits demo.edges demo.preds demo.labels None _ eq_refl)
    as [Hlen Hdrawn].
  split; [exact Hlen|].
  apply (Hdrawn 0%nat (1 # 5)%Q 1%Q eq_refl eq_refl). by left.
Defined.


(** ** The plots of the triplets *)

Section triplet_facts.
Context `{Scalar}.

Lemma plot_doublet_at (xi yi xo yo : list F) (i : Z) (fmt c : string)
    (alpha : option F) :
  nb_utils.plot_doublet xi yi xo yo i fmt c alpha
  = d ← doublet_at xi yi xo yo i; Ok (Line2D d.1 d.2 fmt c alpha).
Proof.
  unfold nb_utils.plot_doublet, doublet_at.
  destruct (np_get xi i); [|done]. cbn [mbind result_bind].
  destruct (np_get xo i); [|done]. cbn [mbind result_bind].
  destruct (np_get yi i); [|done]. cbn [mbind result_bind].
  by destruct (np_get yo i).
Qed.

Lemma plot_scored_doublet_at (xi yi xo yo scores : list F) (i : Z)
    (fmt c : string) :
  nb_utils.plot_scored_doublet xi yi xo yo scores i fmt c
  = d ← doublet_at xi yi xo yo i;
    a ← np_get scores i;
    Ok (Line2D d.1 d.2 fmt c (Some a)).
Proof.
  unfold nb_utils.plot_scored_doublet, doublet_at.
  destruct (np_get xi i); [|done]. cbn [mbind result_bind].
  destruct (np_get xo i); [|done]. cbn [mbind result_bind].
  destruct (np_get yi i); [|done]. cbn [mbind result_bind].
  by destruct (np_get yo i).
Qed.

Lemma doublet_ends_lengths (hits : list (list F)) (xi yi xo yo : list F) :
  nb_utils.doublet_ends hits = Ok (xi, yi, xo, yo) →
  length xi = length hits ∧ length yi = length hits
  ∧ length xo = length hits ∧ length yo = length hits.
Proof.
  unfold nb_utils.doublet_ends.
  destruct (np_column hits 0) as [r_i|] eqn:H0; [|done].
  cbn [mbind result_bind].
  destruct (np_column hits 1) as [phi_i|] eqn:H1; [|done].
  cbn [mbind result_bind].
  destruct (np_column hits 3) as [r_o|] eqn:H3; [|done].
  cbn [mbind result_bind].
  destruct (np_column hits 4) as [phi_o|] eqn:H4; [|done].
  cbn [mbind result_bind]. intros [= <- <- <- <-].
  apply collect_length in H0, H1, H3, H4.
  rewrite !length_zip_with, !length_map. lia.
Qed.

Lemma doublet_at_in_bounds (xi yi xo yo : list F) (n : nat) (i : Z) :
  length xi = n → length yi = n → length xo = n → length yo = n →
  in_bounds n i →
  ∃ d, doublet_at xi yi xo yo i = Ok d.
Proof.
  intros Hxi Hyi Hxo Hyo Hi. unfold doublet_at.
  destruct (np_get_in_bounds xi i) as [x0 ->]; [by rewrite Hxi|].
  destruct (np_get_in_bounds xo i) as [x1 ->]; [by rewrite Hxo|].
  destruct (np_get_in_bounds yi i) as [y0 ->]; [by rewrite Hyi|].
  destruct (np_get_in_bounds yo i) as [y1 ->]; [by rewrite Hyo|].
  by eexists.
Qed.

(** One pass of the loop of [draw_triplets_xy]. *)
Lemma draw_triplet_lines (xi yi xo yo : list F) (edges : list (Z * Z))
    (preds labels : list F) (cut : F) (ax0 : list (artist F)) (j : nat)
    (p l : F) (e : Z * Z) (d : (F * F) * (F * F)) :
  preds !! j = Some p → labels !! j = Some l → edges !! j = Some e →
  doublet_at xi yi xo yo e.1 = Ok d →
  nb_utils.draw_triplet xi yi xo yo edges preds labels cut ax0 j
  = Ok (ax0
        ++ (if is_fn cut p l then [Line2D d.1 d.2 "--" "b" None] else [])
        ++ (if is_fp cut p l then [Line2D d.1 d.2 "-" "r" (Some p)] else [])
        ++ (if is_tp cut p l then [Line2D d.1 d.2 "-" "k" (Some p)]
            else [])).
Proof.
  intros Hp Hl He Hd. unfold nb_utils.draw_triplet, is_fn, is_fp, is_tp.
  rewrite (np_get_nat _ _ _ Hp), (np_get_nat _ _ _ Hl),
    (np_get_nat _ _ _ He).
  cbn [mbind result_bind]. rewrite !plot_doublet_at, Hd.
  destruct (F_lt p cut && F_gt l cut), (F_gt p cut && F_lt l cut),
    (F_gt p cut && F_gt l cut); cbn [mbind result_bind];
    by rewrite <- ?(assoc_L (++)), ?app_nil_r.
Qed.

(** [draw_triplets_xy], on arrays that fit together: after the scatter
    of the inner hits come, edge by edge, the lines of the edge's
    classes, each from the inner to the outer hit of the doublet that is
    the first end point of the edge.  The second end points are not
    asked to address a doublet. *)
Theorem draw_triplets_xy_by_class (hits : list (list F))
    (edges : list (Z * Z)) (preds labels : list F) (cut : option F)
    (xi yi xo yo : list F)
    (Hcols : nb_utils.doublet_ends hits = Ok (xi, yi, xo, yo))
    (Hpreds : (length labels ≤ length preds)%nat)
    (Hedges : (length labels ≤ length edges)%nat)
    (Hends : ∀ e, e ∈ edges → in_bounds (length hits) e.1) :
  let c := default F_half cut in
  ∃ lines : list (list (artist F)),
    nb_utils.draw_triplets_xy hits edges preds labels cut
      = Ok (Scatter xi yi 2 "k" :: concat lines)
    ∧ length lines = length labels
    ∧ ∀ j p l e, preds !! j = Some p → labels !! j = Some l →
        edges !! j = Some e →
        ∃ d, doublet_at xi yi xo yo e.1 = Ok d
          ∧ lines !! j
            = Some ((if is_fn c p l then [Line2D d.1 d.2 "--" "b" None]
                     else [])
                    ++ (if is_fp c p l then [Line2D d.1 d.2 "-" "r" (Some p)]
                        else [])
                    ++ (if is_tp c p l then [Line2D d.1 d.2 "-" "k" (Some p)]
                        else [])).
Proof.
  intros c.
  destruct (doublet_ends_lengths _ _ _ _ _ Hcols) as (Hxi & Hyi & Hxo & Hyo).
  set (line j :=
    match preds !! j, labels !! j, edges !! j with
    | Some p, Some l, Some e =>
        match doublet_at xi yi xo yo e.1 with
        | Ok d =>
            (if is_fn c p l then [Line2D d.1 d.2 "--" "b" None] else [])
            ++ (if is_fp c p l then [Line2D d.1 d.2 "-" "r" (Some p)]
                else [])
            ++ (if is_tp c p l then [Line2D d.1 d.2 "-" "k" (Some p)]
                else [])
        | Raise _ => []
        end
    | _, _, _ => []
    end).
  exists (map line (range (length labels))). split; [|split].
  - unfold nb_utils.draw_triplets_xy. rewrite Hcols.
    cbn [mbind result_bind]. fold c.
    rewrite (for_each_range_lines _ line); [done|].
    intros ax0 j Hj.
    destruct (lookup_lt_is_Some_2 preds j ltac:(lia)) as [p Hp].
    destruct (lookup_lt_is_Some_2 labels j ltac:(lia)) as [l Hl].
    destruct (lookup_lt_is_Some_2 edges j ltac:(lia)) as [e He].
    destruct (doublet_at_in_bounds xi yi xo yo (length hits) e.1)
      as [d Hd]; [done..|by eapply Hends, list_elem_of_lookup_2|].
    rewrite (draw_triplet_lines _ _ _ _ _ _ _ _ _ _ p l e d) by done.
    unfold line. by rewrite Hp, Hl, He, Hd.
  - unfold range. by rewrite length_map, length_seq.
  - intros j p l e Hp Hl He.
    destruct (doublet_at_in_bounds xi yi xo yo (length hits) e.1)
      as [d Hd]; [done..|by eapply Hends, list_elem_of_lookup_2|].
    exists d. split; [done|].
    rewrite lookup_range_lines by by eapply lookup_lt_Some.
    unfold line. by rewrite Hp, Hl, He, Hd.
Qed.

Lemma np_get_same_first (edges edges' : list (Z * Z)) (i : Z) :
  edges.*1 = edges'.*1 →
  match np_get edges i, np_get edges' i with
  | Ok e, Ok e' => e.1 = e'.1
  | Raise a, Raise b => a = b
  | _, _ => False
  end.
Proof.
  intros Heq. unfold np_get.
  assert (Hlen : length edges = length edges').
  { by rewrite <- (length_fmap fst edges), Heq, length_fmap. }
  rewrite <- Hlen.
  destruct (np_index (length edges) i) as [k|]; [|done].
  cbn [mbind result_bind].
  assert (Hk : (edges.*1) !! k = (edges'.*1) !! k) by by rewrite Heq.
  rewrite !list_lookup_fmap in Hk.
  destruct (edges !! k), (edges' !! k); simplify_eq/=; done.
Qed.

(** [draw_triplets_xy] does not read the second end points of the
    edges: two edge arrays with the same first row give the same plot,
    or the same error. *)
Theorem draw_triplets_xy_second_row_unread (hits : list (list F))
    (edges edges' : list (Z * Z)) (preds labels : list F) (cut : option F)
    (Hfirst : edges.*1 = edges'.*1) :
  nb_utils.draw_triplets_xy hits edges preds labels cut
  = nb_utils.draw_triplets_xy hits edges' preds labels cut.
Proof.
  unfold nb_utils.draw_triplets_xy.
  destruct (nb_utils.doublet_ends hits) as [[[[xi yi] xo] yo]|]; [|done].
  cbn [mbind result_bind]. apply for_each_ext. intros ax0 j _.
  unfold nb_utils.draw_triplet.
  pose proof (np_get_same_first edges edges' (Z.of_nat j) Hfirst) as Hj.
  destruct (np_get preds (Z.of_nat j)) as [p|]; [|done].
  cbn [mbind result_bind].
  destruct (np_get labels (Z.of_nat j)) as [l|]; [|done].
  cbn [mbind result_bind].
  destruct (np_get edges (Z.of_nat j)) as [e|],
    (np_get edges' (Z.of_nat j)) as [e'|]; try done.
  - cbn [mbind result_bind]. by rewrite Hj.
  - subst. done.
Qed.

(** One pass of the loop of [draw_triplets_xy_score]. *)
Lemma draw_scored_triplet_lines (xi yi xo yo scores : list F)
    (edges : list (Z * Z)) (preds labels : list F) (cut : F)
    (ax0 : list (artist F)) (j : nat) (p l : F) (e : Z * Z)
    (d0 d1 : (F * F) * (F * F)) (s0 s1 : F) :
  preds !! j = Some p → labels !! j = Some l → edges !! j = Some e →
  doublet_at xi yi xo yo e.1 = Ok d0 → doublet_at xi yi xo yo e.2 = Ok d1 →
  np_get scores e.1 = Ok s0 → np_get scores e.2 = Ok s1 →
  nb_utils.draw_scored_triplet xi yi xo yo scores edges preds labels cut
    ax0 j
  = Ok (ax0
        ++ (if is_fn cut p l
            then [Line2D d0.1 d0.2 "--" "b" (Some s0);
                  Line2D d1.1 d1.2 "--" "b" (Some s1)]
            else [])
        ++ (if is_fp cut p l
            then [Line2D d0.1 d0.2 "-" "r" (Some p);
                  Line2D d1.1 d1.2 "-" "r" (Some p)]
            else [])
        ++ (if is_tp cut p l
            then [Line2D d0.1 d0.2 "-" "k" (Some s0);
                  Line2D d1.1 d1.2 "-" "k" (Some s1)]
            else [])).
Proof.
  intros Hp Hl He Hd0 Hd1 Hs0 Hs1.
  unfold nb_utils.draw_scored_triplet, is_fn, is_fp, is_tp.
  rewrite (np_get_nat _ _ _ Hp), (np_get_nat _ _ _ Hl),
    (np_get_nat _ _ _ He).
  cbn [mbind result_bind].
  rewrite !plot_doublet_at, !plot_scored_doublet_at, Hd0, Hd1.
  cbn [mbind result_bind]. rewrite Hs0, Hs1.
  destruct (F_lt p cut && F_gt l cut), (F_gt p cut && F_lt l cut),
    (F_gt p cut && F_gt l cut); cbn [mbind result_bind];
    by rewrite <- ?(assoc_L (++)), ?app_nil_r.
Qed.

(** [draw_triplets_xy_score]: with a doublet given, only the inner hits
    are drawn, whatever the edges are.  Without one, every false
    negative, false positive or true positive edge gives two lines, the
    doublets at its two end points: dashed blue or black with the score
    of the doublet as opacity, red with the prediction of the edge. *)
Theorem draw_triplets_xy_score_by_class {D} (hits : list (list F))
    (edges : list (Z * Z)) (preds labels : list F) (cut : option F)
    (xi yi xo yo scores : list F)
    (Hcols : nb_utils.doublet_ends hits = Ok (xi, yi, xo, yo))
    (Hscores : np_column hits 6 = Ok scores) :
  let c := default F_half cut in
  (∀ doublet : D,
     nb_utils.draw_triplets_xy_score hits edges preds labels (Some doublet)
       cut = Ok [Scatter xi yi 2 "k"])
  ∧ ((length labels ≤ length preds)%nat →
     (length labels ≤ length edges)%nat →
     (∀ e, e ∈ edges →
        in_bounds (length hits) e.1 ∧ in_bounds (length hits) e.2) →
     ∃ lines : list (list (artist F)),
       nb_utils.draw_triplets_xy_score (D := D) hits edges preds labels None
         cut = Ok (Scatter xi yi 2 "k" :: concat lines)
       ∧ length lines = length labels
       ∧ ∀ j p l e, preds !! j = Some p → labels !! j = Some l →
           edges !! j = Some e →
           ∃ d0 d1 s0 s1,
             doublet_at xi yi xo yo e.1 = Ok d0
             ∧ doublet_at xi yi xo yo e.2 = Ok d1
             ∧ np_get scores e.1 = Ok s0 ∧ np_get scores e.2 = Ok s1
             ∧ lines !! j
               = Some ((if is_fn c p l
                        then [Line2D d0.1 d0.2 "--" "b" (Some s0);
                              Line2D d1.1 d1.2 "--" "b" (Some s1)]
                        else [])
                       ++ (if is_fp c p l
                           then [Line2D d0.1 d0.2 "-" "r" (Some p);
                                 Line2D d1.1 d1.2 "-" "r" (Some p)]
                           else [])
                       ++ (if is_tp c p l
                           then [Line2D d0.1 d0.2 "-" "k" (Some s0);
                                 Line2D d1.1 d1.2 "-" "k" (Some s1)]
                           else []))).
Proof.
  intros c. split.
  { intros doublet. unfold nb_utils.draw_triplets_xy_score.
    by rewrite Hcols, Hscores. }
  intros Hpreds Hedges Hends.
  destruct (doublet_ends_lengths _ _ _ _ _ Hcols) as (Hxi & Hyi & Hxo & Hyo).
  assert (Hsc : length scores = length hits)
    by by apply collect_length in Hscores.
  assert (Hat : ∀ e, e ∈ edges → ∃ d0 d1 s0 s1,
    doublet_at xi yi xo yo e.1 = Ok d0 ∧ doublet_at xi yi xo yo e.2 = Ok d1
    ∧ np_get scores e.1 = Ok s0 ∧ np_get scores e.2 = Ok s1).
  { intros e [H1 H2]%Hends.
    destruct (doublet_at_in_bounds xi yi xo yo (length hits) e.1)
      as [d0 Hd0]; [done..|].
    destruct (doublet_at_in_bounds xi yi xo yo (length hits) e.2)
      as [d1 Hd1]; [done..|].
    destruct (np_get_in_bounds scores e.1) as [s0 Hs0]; [by rewrite Hsc|].
    destruct (np_get_in_bounds scores e.2) as [s1 Hs1]; [by rewrite Hsc|].
    by exists d0, d1, s0, s1. }
  set (line j :=
    match preds !! j, labels !! j, edges !! j with
    | Some p, Some l, Some e =>
        match doublet_at xi yi xo yo e.1, doublet_at xi yi xo yo e.2,
              np_get scores e.1, np_get scores e.2 with
        | Ok d0, Ok d1, Ok s0, Ok s1 =>
            (if is_fn c p l
             then [Line2D d0.1 d0.2 "--" "b" (Some s0);
                   Line2D d1.1 d1.2 "--" "b" (Some s1)]
             else [])
            ++ (if is_fp c p l
                then [Line2D d0.1 d0.2 "-" "r" (Some p);
                      Line2D d1.1 d1.2 "-" "r" (Some p)]
                else [])
            ++ (if is_tp c p l
                then [Line2D d0.1 d0.2 "-" "k" (Some s0);
                      Line2D d1.1 d1.2 "-" "k" (Some s1)]
                else [])
        | _, _, _, _ => []
        end
    | _, _, _ => []
    end).
  exists (map line (range (length labels))). split; [|split].
  - unfold nb_utils.draw_triplets_xy_score. rewrite Hcols, Hscores.
    cbn [mbind result_bind]. fold c.
    rewrite (for_each_range_lines _ line); [done|].
    intros ax0 j Hj.
    destruct (lookup_lt_is_Some_2 preds j ltac:(lia)) as [p Hp].
    destruct (lookup_lt_is_Some_2 labels j ltac:(lia)) as [l Hl].
    destruct (lookup_lt_is_Some_2 edges j ltac:(lia)) as [e He].
    destruct (Hat e) as (d0 & d1 & s0 & s1 & Hd0 & Hd1 & Hs0 & Hs1);
      [by eapply list_elem_of_lookup_2|].
    rewrite (draw_scored_triplet_lines _ _ _ _ _ _ _ _ _ _ _ p l e
               d0 d1 s0 s1) by done.
    unfold line. by rewrite Hp, Hl, He, Hd0, Hd1, Hs0, Hs1.
  - unfold range. by rewrite length_map, length_seq.
  - intros j p l e Hp Hl He.
    destruct (Hat e) as (d0 & d1 & s0 & s1 & Hd0 & Hd1 & Hs0 & Hs1);
      [by eapply list_elem_of_lookup_2|].
    exists d0, d1, s0, s1. do 4 (split; [done|]).
    rewrite lookup_range_lines by by eapply lookup_lt_Some.
    unfold line. by rewrite Hp, Hl, He, Hd0, Hd1, Hs0, Hs1.
Qed.
End triplet_facts.


(** ** The plots of the doublets by their counts *)

Section node_plot_facts.
Context `{Subtraction}.

(** One pass of the loop of [draw_triplets_mul_xy]. *)
Lemma draw_mul_node_line (xi yi xo yo scores : list F) (mul : list nat)
    (ax0 : list (node_artist F)) (j m : nat) (x0 x1 y0 y1 s : F) :
  mul !! j = Some m →
  xi !! j = Some x0 → xo !! j = Some x1 →
  yi !! j = Some y0 → yo !! j = Some y1 → scores !! j = Some s →
  nb_utils.draw_mul_node xi yi xo yo scores mul ax0 j
  = Ok (ax0 ++ if (m =? 1)%nat || (m =? 2)%nat
               then [NodeLine (x0, x1) (y0, y1) None
                              (Mapped "seismic" (F_sub F_one s)) None]
               else []).
Proof.
  intros Hm Hx0 Hx1 Hy0 Hy1 Hs. unfold nb_utils.draw_mul_node.
  rewrite (np_get_nat _ _ _ Hm). cbn [mbind result_bind].
  destruct ((m =? 1)%nat || (m =? 2)%nat); [|by rewrite app_nil_r].
  by rewrite (np_get_nat _ _ _ Hx0), (np_get_nat _ _ _ Hx1),
    (np_get_nat _ _ _ Hy0), (np_get_nat _ _ _ Hy1), (np_get_nat _ _ _ Hs).
Qed.

(** [draw_triplets_mul_xy]: after the two scatters of the inner and the
    outer hits, the line of doublet [j] is drawn, in the colour the map
    gives one minus its score, exactly when one or two end points of
    edges above the cut are at [j]; a doublet with none or with three
    or more is left out.  The colour bar comes last. *)
Theorem draw_triplets_mul_xy_nodes (hits : list (list F))
    (edges : list (Z * Z)) (preds labels : list F) (cut : option F)
    (xi yi xo yo scores : list F)
    (Hcols : nb_utils.doublet_ends hits = Ok (xi, yi, xo, yo))
    (Hscores : np_column hits 6 = Ok scores)
    (Hends : ∀ e p, (e, p) ∈ zip edges preds →
       F_gt p (default F_half cut) = true →
       in_bounds (length hits) e.1 ∧ in_bounds (length hits) e.2) :
  let c := default F_half cut in
  let n := length hits in
  ∃ lines : list (list (node_artist F)),
    nb_utils.draw_triplets_mul_xy hits edges preds labels cut
      = Ok ([NodeScatter xi yi 2 "k"; NodeScatter xo yo 2 "k"]
            ++ concat lines ++ [Colorbar])
    ∧ length lines = n
    ∧ ∀ j x0 x1 y0 y1 s,
        xi !! j = Some x0 → xo !! j = Some x1 →
        yi !! j = Some y0 → yo !! j = Some y1 → scores !! j = Some s →
        let m := length (incident_preds n j c edges preds) in
        (m = 1%nat ∨ m = 2%nat →
         lines !! j
         = Some [NodeLine (x0, x1) (y0, y1) None
                          (Mapped "seismic" (F_sub F_one s)) None])
        ∧ (m ≠ 1%nat → m ≠ 2%nat → lines !! j = Some []).
Proof.
  intros c n.
  destruct (doublet_ends_lengths _ _ _ _ _ Hcols) as (Hxi & Hyi & Hxo & Hyo).
  assert (Hsc : length scores = n) by by apply collect_length in Hscores.
  destruct (add_multiplicity_loop c n edges preds
              (np.zeros 0%nat n) (np.zeros F_zero n))
    as (mul & w_mul & Hrun & Hmul & Hw & Hat);
    [apply length_replicate|apply length_replicate|done|].
  assert (Hk : ∀ k, (k < n)%nat →
     mul !! k = Some (length (incident_preds n k c edges preds))).
  { intros k Hlt.
    apply (Hat k 0%nat F_zero); by apply lookup_replicate_2. }
  set (line j :=
    match xi !! j, xo !! j, yi !! j, yo !! j, scores !! j with
    | Some x0, Some x1, Some y0, Some y1, Some s =>
        let m := length (incident_preds n j c edges preds) in
        if (m =? 1)%nat || (m =? 2)%nat
        then [NodeLine (x0, x1) (y0, y1) None
                       (Mapped "seismic" (F_sub F_one s)) None]
        else []
    | _, _, _, _, _ => []
    end).
  exists (map line (range n)). split; [|split].
  - unfold nb_utils.draw_triplets_mul_xy. rewrite Hcols.
    cbn [mbind result_bind]. rewrite Hscores. cbn [mbind result_bind].
    unfold nb_utils.add_multiplicity.
    change (default F_half (Some (default F_half cut))) with c. fold n.
    rewrite Hrun. cbn [mbind result_bind].
    rewrite Hxi. fold n.
    rewrite (for_each_range_lines _ line).
    { cbn [mbind result_bind]. by rewrite <- (assoc_L (++)). }
    intros ax0 j Hj.
    destruct (lookup_lt_is_Some_2 xi j ltac:(lia)) as [x0 Hx0].
    destruct (lookup_lt_is_Some_2 xo j ltac:(lia)) as [x1 Hx1].
    destruct (lookup_lt_is_Some_2 yi j ltac:(lia)) as [y0 Hy0].
    destruct (lookup_lt_is_Some_2 yo j ltac:(lia)) as [y1 Hy1].
    destruct (lookup_lt_is_Some_2 scores j ltac:(lia)) as [s Hs].
    rewrite (draw_mul_node_line _ _ _ _ _ _ _ _ _ x0 x1 y0 y1 s (Hk j Hj))
      by done.
    unfold line. by rewrite Hx0, Hx1, Hy0, Hy1, Hs.
  - unfold range. by rewrite length_map, length_seq.
  - intros j x0 x1 y0 y1 s Hx0 Hx1 Hy0 Hy1 Hs m.
    assert (Hj : (j < n)%nat).
    { apply lookup_lt_Some in Hx0. unfold n. lia. }
    rewrite lookup_range_lines by done.
    unfold line. rewrite Hx0, Hx1, Hy0, Hy1, Hs. fold m. split.
    + intros [->| ->]; done.
    + intros H1%Nat.eqb_neq H2%Nat.eqb_neq. by rewrite H1, H2.
Qed.

(** One pass of the loop of [draw_triplets_tf_mul_xy]. *)
Lemma draw_tf_node_lines (xi yi xo yo : list F) (tf_mul : list (list nat))
    (lineWidth : Z) (ax0 : list (node_artist F)) (j : nat)
    (tp fp tn fn : nat) (x0 x1 y0 y1 : F) :
  tf_mul !! j = Some [tp; fp; tn; fn] →
  xi !! j = Some x0 → xo !! j = Some x1 →
  yi !! j = Some y0 → yo !! j = Some y1 →
  let line fmt c w := NodeLine (x0, x1) (y0, y1) (Some fmt) (Named c) w in
  nb_utils.draw_tf_node xi yi xo yo tf_mul lineWidth ax0 j
  = Ok (ax0
        ++ (if (0 <? tp)%nat && (fp =? 0)%nat && (fn =? 0)%nat
            then [line "-" "#ffc70f" (Some lineWidth)] else [])
        ++ (if (0 <? tp)%nat && (fp =? 0)%nat && (0 <? fn)%nat
            then [line "--" "#982e06" None] else [])
        ++ (if (0 <? tp)%nat && (0 <? fp)%nat
            then [line "-" "#adadad" None] else [])
        ++ (if (tp =? 0)%nat && (fp =? 0)%nat && (0 <? fn)%nat
            then [line "--" "b" None] else [])
        ++ (if (tp =? 0)%nat && (0 <? fp)%nat
            then [line "-" "r" None] else [])
        ++ (if (tp =? 0)%nat && (0 <? fp)%nat && (0 <? fn)%nat
            then [line ":" "g" None] else [])).
Proof.
  intros Hrow Hx0 Hx1 Hy0 Hy1 line. unfold nb_utils.draw_tf_node.
  rewrite (np_get_nat _ _ _ Hrow). cbn [mbind result_bind].
  change (np_get [tp; fp; tn; fn] 0) with (Ok tp).
  change (np_get [tp; fp; tn; fn] 1) with (Ok fp).
  change (np_get [tp; fp; tn; fn] 3) with (Ok fn).
  cbn [mbind result_bind].
  assert (Hline : ∀ fmt c w,
    nb_utils.plot_node xi yi xo yo j fmt c w = Ok (line fmt c w)).
  { intros fmt c w. unfold nb_utils.plot_node.
    by rewrite (np_get_nat _ _ _ Hx0), (np_get_nat _ _ _ Hx1),
      (np_get_nat _ _ _ Hy0), (np_get_nat _ _ _ Hy1). }
  rewrite !Hline.
  destruct tp as [|tp], fp as [|fp], fn as [|fn];
    cbn [Nat.ltb Nat.leb Nat.eqb andb mbind result_bind];
    by rewrite <- ?(assoc_L (++)), ?app_nil_r.
Qed.

(** [draw_triplets_tf_mul_xy]: after the two scatters, doublet [j] is
    drawn by the counts [tf_multiplicity] has for it.  With true
    positives: gold with the line width when it has neither false
    positives nor false negatives, dashed brown with false negatives
    only, grey with false positives.  Without true positives: dashed
    blue with false negatives only, red with false positives, and then
    dotted green as well when it also has false negatives.  A doublet
    with none of the three counts gets no line.  The false negatives
    are those counted at first end points. *)
Theorem draw_triplets_tf_mul_xy_nodes (hits : list (list F))
    (edges : list (Z * Z)) (preds labels : list F) (cut : option F)
    (lineWidth : option Z) (xi yi xo yo scores : list F)
    (Hcols : nb_utils.doublet_ends hits = Ok (xi, yi, xo, yo))
    (Hscores : np_column hits 6 = Ok scores)
    (Hends : ∀ e p l, (e, p, l) ∈ zip (zip edges preds) labels →
       in_bounds (length hits) e.1 ∧ in_bounds (length hits) e.2) :
  let c := default F_half cut in
  let w := default 2 lineWidth in
  let n := length hits in
  ∃ lines : list (list (node_artist F)),
    nb_utils.draw_triplets_tf_mul_xy hits edges preds labels cut lineWidth
      = Ok ([NodeScatter xi yi 2 "k"; NodeScatter xo yo 2 "k"]
            ++ concat lines)
    ∧ length lines = n
    ∧ ∀ j x0 x1 y0 y1,
        xi !! j = Some x0 → xo !! j = Some x1 →
        yi !! j = Some y0 → yo !! j = Some y1 →
        let tp := class_ends (is_tp c) (ends_at n j) edges preds labels in
        let fp := class_ends (is_fp c) (ends_at n j) edges preds labels in
        let fn := class_ends (is_fn c) (first_end_twice n j)
                             edges preds labels in
        let line fmt c w :=
          NodeLine (x0, x1) (y0, y1) (Some fmt) (Named c) w in
        ((0 < tp)%nat → fp = 0%nat → fn = 0%nat →
         lines !! j = Some [line "-" "#ffc70f" (Some w)])
        ∧ ((0 < tp)%nat → fp = 0%nat → (0 < fn)%nat →
           lines !! j = Some [line "--" "#982e06" None])
        ∧ ((0 < tp)%nat → (0 < fp)%nat →
           lines !! j = Some [line "-" "#adadad" None])
        ∧ (tp = 0%nat → fp = 0%nat → (0 < fn)%nat →
           lines !! j = Some [line "--" "b" None])
        ∧ (tp = 0%nat → (0 < fp)%nat → fn = 0%nat →
           lines !! j = Some [line "-" "r" None])
        ∧ (tp = 0%nat → (0 < fp)%nat → (0 < fn)%nat →
           lines !! j = Some [line "-" "r" None; line ":" "g" None])
        ∧ (tp = 0%nat → fp = 0%nat → fn = 0%nat → lines !! j = Some []).
Proof.
  intros c w n.
  destruct (doublet_ends_lengths _ _ _ _ _ Hcols) as (Hxi & Hyi & Hxo & Hyo).
  destruct (tf_multiplicity_loop c n (zip (zip edges preds) labels)
              (np.zeros (np.zeros 0%nat 4) n))
    as (tf_mul & Hrun & Hlen & Hat).
  { apply length_replicate. }
  { by apply Forall_replicate. }
  { apply Forall_forall. intros [[e p] l] Hin. by apply (Hends e p l). }
  assert (Hk : ∀ k, (k < n)%nat →
    tf_mul !! k
    = Some [class_ends (is_tp c) (ends_at n k) edges preds labels;
            class_ends (is_fp c) (ends_at n k) edges preds labels;
            class_ends (is_tn c) (ends_at n k) edges preds labels;
            class_ends (is_fn c) (first_end_twice n k) edges preds labels]).
  { intros k Hlt.
    by rewrite (Hat k 0 0 0 0)%nat by by apply lookup_replicate_2. }
  set (line j :=
    match xi !! j, xo !! j, yi !! j, yo !! j with
    | Some x0, Some x1, Some y0, Some y1 =>
        let tp := class_ends (is_tp c) (ends_at n j) edges preds labels in
        let fp := class_ends (is_fp c) (ends_at n j) edges preds labels in
        let fn := class_ends (is_fn c) (first_end_twice n j)
                             edges preds labels in
        let line fmt c w :=
          NodeLine (x0, x1) (y0, y1) (Some fmt) (Named c) w in
        (if (0 <? tp)%nat && (fp =? 0)%nat && (fn =? 0)%nat
         then [line "-" "#ffc70f" (Some w)] else [])
        ++ (if (0 <? tp)%nat && (fp =? 0)%nat && (0 <? fn)%nat
            then [line "--" "#982e06" None] else [])
        ++ (if (0 <? tp)%nat && (0 <? fp)%nat
            then [line "-" "#adadad" None] else [])
        ++ (if (tp =? 0)%nat && (fp =? 0)%nat && (0 <? fn)%nat
            then [line "--" "b" None] else [])
        ++ (if (tp =? 0)%nat && (0 <? fp)%nat
            then [line "-" "r" None] else [])
        ++ (if (tp =? 0)%nat && (0 <? fp)%nat && (0 <? fn)%nat
            then [line ":" "g" None] else [])
    | _, _, _, _ => []
    end).
  exists (map line (range n)). split; [|split].
  - unfold nb_utils.draw_triplets_tf_mul_xy. rewrite Hcols.
    cbn [mbind result_bind]. rewrite Hscores. cbn [mbind result_bind].
    unfold nb_utils.tf_multiplicity.
    change (default F_half (Some (default F_half cut))) with c. fold n w.
    rewrite Hrun. cbn [mbind result_bind].
    rewrite Hxi. fold n.
    rewrite (for_each_range_lines _ line); [done|].
    intros ax0 j Hj.
    destruct (lookup_lt_is_Some_2 xi j ltac:(lia)) as [x0 Hx0].
    destruct (lookup_lt_is_Some_2 xo j ltac:(lia)) as [x1 Hx1].
    destruct (lookup_lt_is_Some_2 yi j ltac:(lia)) as [y0 Hy0].
    destruct (lookup_lt_is_Some_2 yo j ltac:(lia)) as [y1 Hy1].
    rewrite (draw_tf_node_lines _ _ _ _ _ _ _ _ _ _ _ _ x0 x1 y0 y1
               (Hk j Hj)) by done.
    unfold line. by rewrite Hx0, Hx1, Hy0, Hy1.
  - unfold range. by rewrite length_map, length_seq.
  - intros j x0 x1 y0 y1 Hx0 Hx1 Hy0 Hy1 tp fp fn ln.
    assert (Hj : (j < n)%nat).
    { apply lookup_lt_Some in Hx0. unfold n. lia. }
    rewrite lookup_range_lines by done.
    unfold line. rewrite Hx0, Hx1, Hy0, Hy1. fold tp fp fn.
    destruct tp as [|tp'], fp as [|fp'], fn as [|fn'];
      cbn [Nat.ltb Nat.leb Nat.eqb andb app];
      repeat split; intros; try lia; done.
Qed.
End node_plot_facts.

Lemma demo_first_ends_in_bounds (e : Z * Z) :
  e ∈ demo.edges → in_bounds (length demo.doublets) e.1.
Proof. intros He. by apply demo_edges_in_bounds. Qed.

Lemma draw_triplets_xy_by_class_witness :
  ∃ lines d,
    (∃ scatter, nb_utils.draw_triplets_xy (H := demo.rationals)
       demo.doublets demo.edges demo.preds demo.labels None
       = Ok (scatter :: concat lines))
    ∧ length lines = 4%nat
    ∧ lines !! 0%nat = Some [Line2D d.1 d.2 "--" "b" None]
    ∧ lines !! 3%nat = Some [].
Proof.
  destruct (draw_triplets_xy_by_class (H := demo.rationals)
    demo.doublets demo.edges demo.preds demo.labels None _ _ _ _ eq_refl)
    as (lines & Hrun & Hlen & Hlines).
  - simpl. lia.
  - simpl. lia.
  - exact demo_first_ends_in_bounds.
  - destruct (Hlines 0%nat (1 # 5)%Q 1%Q (0, 1) eq_refl eq_refl eq_refl)
      as (d & _ & Hfn).
    destruct (Hlines 3%nat (1 # 10)%Q 0%Q (2, 0) eq_refl eq_refl eq_refl)
      as (d' & _ & Htn).
    exists lines, d. split; [by eexists|]. split; [exact Hlen|].
    split; [exact Hfn|exact Htn].
Defined.

Lemma draw_triplets_xy_second_row_unread_witness :
  nb_utils.draw_triplets_xy (H := demo.rationals)
    demo.doublets demo.edges demo.preds demo.labels None
  = nb_utils.draw_triplets_xy (H := demo.rationals)
      demo.doublets [(0, 0); (1, 0); (0, 7); (2, -9)]
      demo.preds demo.labels None.
Proof.
  apply (draw_triplets_xy_second_row_unread (H := demo.rationals)).
  reflexivity.
Defined.

Lemma draw_triplets_xy_score_by_class_witness :
  (∃ scatter, nb_utils.draw_triplets_xy_score (H := demo.rationals)
     demo.doublets [(7, 7)] [] demo.labels (Some tt) None = Ok [scatter])
  ∧ ∃ lines d0 d1,
      (∃ scatter, nb_utils.draw_triplets_xy_score (H := demo.rationals)
         (D := unit) demo.doublets demo.edges demo.preds demo.labels None
         None = Ok (scatter :: concat lines))
      ∧ lines !! 1%nat
        = Some [Line2D d0.1 d0.2 "-" "r" (Some (9 # 10)%Q);
                Line2D d1.1 d1.2 "-" "r" (Some (9 # 10)%Q)].
Proof.
  split.
  - destruct (draw_triplets_xy_score_by_class (H := demo.rationals)
      (D := unit) demo.doublets [(7, 7)] [] demo.labels None _ _ _ _ _
      eq_refl eq_refl) as [Hgiven _].
    eexists. apply (Hgiven tt).
  - destruct (draw_triplets_xy_score_by_class (H := demo.rationals)
      (D := unit) demo.doublets demo.edges demo.preds demo.labels None
      _ _ _ _ _ eq_refl eq_refl) as [_ Hnone].
    destruct Hnone as (lines & Hrun & _ & Hlines).
    + simpl. lia.
    + simpl. lia.
    + exact demo_edges_in_bounds.
    + destruct (Hlines 1%nat (9 # 10)%Q 0%Q (1, 2) eq_refl eq_refl eq_refl)
        as (d0 & d1 & s0 & s1 & _ & _ & _ & _ & Hfp).
      exists lines, d0, d1. split; [by eexists|exact Hfp].
Defined.

Lemma draw_triplets_mul_xy_nodes_witness :
  ∃ lines xs ys col,
    (∃ before, @nb_utils.draw_triplets_mul_xy demo.rationals
       demo.subtraction
       demo.doublets demo.edges demo.preds demo.labels None
       = Ok (before ++ concat lines ++ [Colorbar]))
    ∧ length lines = 3%nat
    ∧ lines !! 2%nat = Some [NodeLine xs ys None col None].
Proof.
  destruct (draw_triplets_mul_xy_nodes (H := demo.rationals)
    (H0 := demo.subtraction)
    demo.doublets demo.edges demo.preds demo.labels None _ _ _ _ _
    eq_refl eq_refl) as (lines & Hrun & Hlen & Hlines).
  - intros e p Hin%elem_of_zip_l _. by apply demo_edges_in_bounds.
  - destruct (Hlines 2%nat _ _ _ _ _ eq_refl eq_refl eq_refl eq_refl
                eq_refl) as [Hdrawn _].
    eexists lines, _, _, _. split; [by eexists|]. split; [exact Hlen|].
    apply Hdrawn. right. reflexivity.
Defined.

Lemma draw_triplets_tf_mul_xy_nodes_witness :
  ∃ lines xs ys,
    (∃ before, nb_utils.draw_triplets_tf_mul_xy (H := demo.rationals)
       demo.doublets demo.edges demo.preds demo.labels None None
       = Ok (before ++ concat lines))
    ∧ length lines = 3%nat
    ∧ lines !! 1%nat = Some [NodeLine xs ys (Some "-") (Named "r") None].
Proof.
  destruct (draw_triplets_tf_mul_xy_nodes (H := demo.rationals)
    demo.doublets demo.edges demo.preds demo.labels None None _ _ _ _ _
    eq_refl eq_refl) as (lines & Hrun & Hlen & Hlines).
  - intros e p l Hin%elem_of_zip_l%elem_of_zip_l.
    by apply demo_edges_in_bounds.
  - destruct (Hlines 1%nat _ _ _ _ eq_refl eq_refl eq_refl eq_refl)
      as (_ & _ & _ & _ & Hred & _).
    eexists lines, _, _. split; [by eexists|]. split; [exact Hlen|].
    apply Hred; [reflexivity|vm_compute; lia|reflexivity].
Defined.


(** ** The plots against the scores of the doublets *)

(** A loop whose passes commute with a map of its state. *)
Lemma for_each_map {A S} (g : S → S) (body body' : S → A → result S)
    (l : list A) :
  (∀ s a, body' (g s) a = s' ← body s a; Ok (g s')) →
  ∀ s, for_each body' l (g s) = s' ← for_each body l s; Ok (g s').
Proof.
  intros Hbody. induction l as [|a l IH]; intros s; [done|]. simpl.
  rewrite Hbody. destruct (body s a) as [s1|]; [|done]. simpl. apply IH.
Qed.

Section antiscore_facts.
Context `{Subtraction}.

Lemma plot_antiscored_doublet_at (xi yi xo yo scores : list F) (i : Z)
    (fmt c : string) :
  nb_utils.plot_antiscored_doublet xi yi xo yo scores i fmt c
  = d ← doublet_at xi yi xo yo i;
    a ← np_get scores i;
    Ok (Line2D d.1 d.2 fmt c (Some (F_sub F_one a))).
Proof.
  unfold nb_utils.plot_antiscored_doublet, doublet_at.
  destruct (np_get xi i); [|done]. cbn [mbind result_bind].
  destruct (np_get xo i); [|done]. cbn [mbind result_bind].
  destruct (np_get yi i); [|done]. cbn [mbind result_bind].
  by destruct (np_get yo i).
Qed.

(** [draw_triplets_xy_antiscore] draws what [draw_triplets_xy_score]
    draws, with one minus the score where that one has the score as
    opacity: on the blue and the black lines.  The red lines keep the
    prediction of the edge.  Where one of them raises, so does the
    other, and the same. *)
Theorem draw_triplets_xy_antiscore_of_score {D} (hits : list (list F))
    (edges : list (Z * Z)) (preds labels : list F) (doublet : option D)
    (cut : option F) :
  nb_utils.draw_triplets_xy_antiscore hits edges preds labels doublet cut
  = ax0 ← nb_utils.draw_triplets_xy_score hits edges preds labels doublet
            cut;
    Ok (map (map_opacity (F_sub F_one)) ax0).
Proof.
  unfold nb_utils.draw_triplets_xy_antiscore,
    nb_utils.draw_triplets_xy_score.
  destruct (nb_utils.doublet_ends hits) as [[[[xi yi] xo] yo]|]; [|done].
  cbn [mbind result_bind].
  destruct (np_column hits 6) as [scores|]; [|done].
  cbn [mbind result_bind].
  destruct doublet as [d|]; [done|].
  change [Scatter xi yi 2 "k"]
    with (map (map_opacity (F_sub F_one)) [Scatter xi yi 2 "k"]) at 1.
  apply for_each_map. intros ax0 j.
  unfold nb_utils.draw_antiscored_triplet, nb_utils.draw_scored_triplet.
  destruct (np_get preds (Z.of_nat j)) as [p|]; [|done].
  cbn [mbind result_bind].
  destruct (np_get labels (Z.of_nat j)) as [l|]; [|done].
  cbn [mbind result_bind].
  destruct (np_get edges (Z.of_nat j)) as [e|];
    [|by destruct (F_lt p (default F_half cut) && F_gt l (default F_half cut)),
         (F_gt p (default F_half cut) && F_lt l (default F_half cut)),
         (F_gt p (default F_half cut) && F_gt l (default F_half cut))].
  cbn [mbind result_bind].
  rewrite !plot_doublet_at, !plot_scored_doublet_at,
    !plot_antiscored_doublet_at.
  destruct (F_lt p (default F_half cut) && F_gt l (default F_half cut)),
    (F_gt p (default F_half cut) && F_lt l (default F_half cut)),
    (F_gt p (default F_half cut) && F_gt l (default F_half cut));
    destruct (doublet_at xi yi xo yo e.1) as [d0|]; try done;
    destruct (np_get scores e.1) as [s0|]; try done;
    destruct (doublet_at xi yi xo yo e.2) as [d1|]; try done;
    destruct (np_get scores e.2) as [s1|]; try done;
    cbn [mbind result_bind]; by rewrite ?map_app.
Qed.

(** One test of the loop of [draw_triplets_xy_antiscore_cut_edges]. *)
Lemma draw_cut_doublet_line (xi yi xo yo scores : list F)
    (edges : list (Z * Z)) (j : nat) (cls : bool) (pick : Z * Z → Z)
    (test : F → bool) (fmt c : string) (alpha : option F)
    (ax0 : list (artist F)) (e : Z * Z) (s : F) (d : (F * F) * (F * F)) :
  edges !! j = Some e → np_get scores (pick e) = Ok s →
  doublet_at xi yi xo yo (pick e) = Ok d →
  nb_utils.draw_cut_doublet xi yi xo yo scores edges j cls pick test fmt c
    alpha ax0
  = Ok (ax0 ++ if cls && test s then [Line2D d.1 d.2 fmt c alpha] else []).
Proof.
  intros He Hs Hd. unfold nb_utils.draw_cut_doublet.
  destruct cls; [|by rewrite app_nil_r].
  rewrite (np_get_nat _ _ _ He). cbn [mbind result_bind]. rewrite Hs.
  cbn [mbind result_bind andb].
  destruct (test s); [|by rewrite app_nil_r].
  by rewrite plot_doublet_at, Hd.
Qed.

(** [draw_triplets_xy_antiscore_cut_edges]: with a doublet given only
    the inner hits are drawn.  Without one, for every edge the doublets
    at its two end points are drawn where their score disagrees with
    the prediction of the edge: for an edge predicted below the cut the
    doublets that score above it, dashed, red when the label is above
    the cut and black when it is below; for an edge predicted above the
    cut the doublets that score below it, red with the prediction as
    opacity when the label is below the cut and black when it is
    above. *)
Theorem draw_triplets_xy_antiscore_cut_edges_by_class {D}
    (hits : list (list F)) (edges : list (Z * Z)) (preds labels : list F)
    (cut : option F) (xi yi xo yo scores : list F)
    (Hcols : nb_utils.doublet_ends hits = Ok (xi, yi, xo, yo))
    (Hscores : np_column hits 6 = Ok scores) :
  let c := default F_half cut in
  (∀ doublet : D,
     nb_utils.draw_triplets_xy_antiscore_cut_edges hits edges preds labels
       (Some doublet) cut = Ok [Scatter xi yi 2 "k"])
  ∧ ((length labels ≤ length preds)%nat →
     (length labels ≤ length edges)%nat →
     (∀ e, e ∈ edges →
        in_bounds (length hits) e.1 ∧ in_bounds (length hits) e.2) →
     ∃ lines : list (list (artist F)),
       nb_utils.draw_triplets_xy_antiscore_cut_edges (D := D) hits edges
         preds labels None cut = Ok (Scatter xi yi 2 "k" :: concat lines)
       ∧ length lines = length labels
       ∧ ∀ j p l e, preds !! j = Some p → labels !! j = Some l →
           edges !! j = Some e →
           ∃ d0 d1 s0 s1,
             doublet_at xi yi xo yo e.1 = Ok d0
             ∧ doublet_at xi yi xo yo e.2 = Ok d1
             ∧ np_get scores e.1 = Ok s0 ∧ np_get scores e.2 = Ok s1
             ∧ let shown (cls score : bool) (d : (F * F) * (F * F))
                     fmt col alpha :=
                 if cls && score then [Line2D d.1 d.2 fmt col alpha]
                 else [] in
               lines !! j
               = Some (shown (is_fn c p l) (F_gt s0 c) d0 "--" "r" None
                       ++ shown (is_fn c p l) (F_gt s1 c) d1 "--" "r" None
                       ++ shown (is_tn c p l) (F_gt s0 c) d0 "--" "k" None
                       ++ shown (is_tn c p l) (F_gt s1 c) d1 "--" "k" None
                       ++ shown (is_fp c p l) (F_lt s0 c) d0 "-" "r"
                            (Some p)
                       ++ shown (is_fp c p l) (F_lt s1 c) d1 "-" "r"
                            (Some p)
                       ++ shown (is_tp c p l) (F_lt s0 c) d0 "-" "k" None
                       ++ shown (is_tp c p l) (F_lt s1 c) d1 "-" "k"
                            None)).
Proof.
  intros c. split.
  { intros doublet. unfold nb_utils.draw_triplets_xy_antiscore_cut_edges.
    by rewrite Hcols, Hscores. }
  intros Hpreds Hedges Hends.
  destruct (doublet_ends_lengths _ _ _ _ _ Hcols) as (Hxi & Hyi & Hxo & Hyo).
  assert (Hsc : length scores = length hits)
    by by apply collect_length in Hscores.
  assert (Hat : ∀ e, e ∈ edges → ∃ d0 d1 s0 s1,
    doublet_at xi yi xo yo e.1 = Ok d0 ∧ doublet_at xi yi xo yo e.2 = Ok d1
    ∧ np_get scores e.1 = Ok s0 ∧ np_get scores e.2 = Ok s1).
  { intros e [H1 H2]%Hends.
    destruct (doublet_at_in_bounds xi yi xo yo (length hits) e.1)
      as [d0 Hd0]; [done..|].
    destruct (doublet_at_in_bounds xi yi xo yo (length hits) e.2)
      as [d1 Hd1]; [done..|].
    destruct (np_get_in_bounds scores e.1) as [s0 Hs0]; [by rewrite Hsc|].
    destruct (np_get_in_bounds scores e.2) as [s1 Hs1]; [by rewrite Hsc|].
    by exists d0, d1, s0, s1. }
  set (shown := λ (cls score : bool) (d : (F * F) * (F * F))
                  fmt col alpha,
         if cls && score then [Line2D d.1 d.2 fmt col alpha] else []).
  set (line j :=
    match preds !! j, labels !! j, edges !! j with
    | Some p, Some l, Some e =>
        match doublet_at xi yi xo yo e.1, doublet_at xi yi xo yo e.2,
              np_get scores e.1, np_get scores e.2 with
        | Ok d0, Ok d1, Ok s0, Ok s1 =>
            shown (is_fn c p l) (F_gt s0 c) d0 "--" "r" None
            ++ shown (is_fn c p l) (F_gt s1 c) d1 "--" "r" None
            ++ shown (is_tn c p l) (F_gt s0 c) d0 "--" "k" None
            ++ shown (is_tn c p l) (F_gt s1 c) d1 "--" "k" None
            ++ shown (is_fp c p l) (F_lt s0 c) d0 "-" "r" (Some p)
            ++ shown (is_fp c p l) (F_lt s1 c) d1 "-" "r" (Some p)
            ++ shown (is_tp c p l) (F_lt s0 c) d0 "-" "k" None
            ++ shown (is_tp c p l) (F_lt s1 c) d1 "-" "k" None
        | _, _, _, _ => []
        end
    | _, _, _ => []
    end).
  exists (map line (range (length labels))). split; [|split].
  - unfold nb_utils.draw_triplets_xy_antiscore_cut_edges.
    rewrite Hcols, Hscores. cbn [mbind result_bind]. fold c.
    rewrite (for_each_range_lines _ line); [done|].
    intros ax0 j Hj.
    destruct (lookup_lt_is_Some_2 preds j ltac:(lia)) as [p Hp].
    destruct (lookup_lt_is_Some_2 labels j ltac:(lia)) as [l Hl].
    destruct (lookup_lt_is_Some_2 edges j ltac:(lia)) as [e He].
    destruct (Hat e) as (d0 & d1 & s0 & s1 & Hd0 & Hd1 & Hs0 & Hs1);
      [by eapply list_elem_of_lookup_2|].
    unfold line. rewrite Hp, Hl, He, Hd0, Hd1, Hs0, Hs1.
    unfold nb_utils.draw_cut_triplet.
    rewrite (np_get_nat _ _ _ Hp), (np_get_nat _ _ _ Hl).
    cbn [mbind result_bind].
    do 7 (first
      [rewrite (draw_cut_doublet_line _ _ _ _ _ _ _ _ fst _ _ _ _ _
                  e s0 d0) by done
      |rewrite (draw_cut_doublet_line _ _ _ _ _ _ _ _ snd _ _ _ _ _
                  e s1 d1) by done];
      cbn [mbind result_bind]).
    rewrite (draw_cut_doublet_line _ _ _ _ _ _ _ _ snd _ _ _ _ _
               e s1 d1) by done.
    unfold shown, is_fn, is_tn, is_fp, is_tp.
    by rewrite <- !(assoc_L (++)).
  - unfold range. by rewrite length_map, length_seq.
  - intros j p l e Hp Hl He.
    destruct (Hat e) as (d0 & d1 & s0 & s1 & Hd0 & Hd1 & Hs0 & Hs1);
      [by eapply list_elem_of_lookup_2|].
    exists d0, d1, s0, s1. do 4 (split; [done|]). cbn zeta.
    rewrite lookup_range_lines by by eapply lookup_lt_Some.
    unfold line. by rewrite Hp, Hl, He, Hd0, Hd1, Hs0, Hs1.
Qed.
End antiscore_facts.

Lemma draw_triplets_xy_antiscore_cut_edges_by_class_witness :
  (∃ scatter, nb_utils.draw_triplets_xy_antiscore_cut_edges
     (H := demo.rationals) demo.doublets [(7, 7)] [] demo.labels (Some tt)
     None = Ok [scatter])
  ∧ ∃ lines d0,
      (∃ scatter, nb_utils.draw_triplets_xy_antiscore_cut_edges
         (H := demo.rationals) (D := unit) demo.doublets demo.edges
         demo.preds demo.labels None None
         = Ok (scatter :: concat lines))
      ∧ lines !! 0%nat = Some [Line2D d0.1 d0.2 "--" "r" None]
      ∧ lines !! 2%nat = Some [].
Proof.
  split.
  - destruct (draw_triplets_xy_antiscore_cut_edges_by_class
      (H := demo.rationals) (D := unit) demo.doublets [(7, 7)] []
      demo.labels None _ _ _ _ _ eq_refl eq_refl) as [Hgiven _].
    eexists. apply (Hgiven tt).
  - destruct (draw_triplets_xy_antiscore_cut_edges_by_class
      (H := demo.rationals) (D := unit) demo.doublets demo.edges
      demo.preds demo.labels None _ _ _ _ _ eq_refl eq_refl)
      as [_ Hnone].
    destruct Hnone as (lines & Hrun & _ & Hlines).
    + simpl. lia.
    + simpl. lia.
    + exact demo_edges_in_bounds.
    + destruct (Hlines 0%nat (1 # 5)%Q 1%Q (0, 1) eq_refl eq_refl eq_refl)
        as (d0 & d1 & s0 & s1 & _ & _ & Hs0 & Hs1 & Hfn).
      destruct (Hlines 2%nat (4 # 5)%Q 1%Q (0, 2) eq_refl eq_refl eq_refl)
        as (d0' & d1' & s0' & s1' & _ & _ & Hs0' & Hs1' & Htp).
      injection Hs0 as <-. injection Hs1 as <-.
      injection Hs0' as <-. injection Hs1' as <-.
      exists lines, d0. split; [by eexists|].
      split; [exact Hfn|exact Htp].
Defined.


(** ** The plot of the doublets the scores and the edges disagree on *)

Section counted_loops.
Context {Art : Type}.

(** A loop over [range(m)] whose pass [j] appends [line j] and adds what
    two measures of the lines give to two counters. *)
Lemma for_each_range_counted
    (body : list Art * nat * nat → nat → result (list Art * nat * nat))
    (line : nat → list Art) (cw cl : list Art → nat) (m : nat) :
  (∀ a b, cw (a ++ b) = (cw a + cw b)%nat) →
  (∀ a b, cl (a ++ b) = (cl a + cl b)%nat) →
  (∀ ax w l j, (j < m)%nat →
     body (ax, w, l) j
     = Ok (ax ++ line j, (w + cw (line j))%nat, (l + cl (line j))%nat)) →
  ∀ ax w l,
    for_each body (range m) (ax, w, l)
    = Ok (ax ++ concat (map line (range m)),
          (w + cw (concat (map line (range m))))%nat,
          (l + cl (concat (map line (range m))))%nat).
Proof.
  intros Hcw Hcl Hbody. unfold range.
  assert (Hw0 : cw [] = 0%nat).
  { pose proof (Hcw [] []) as Hnil. simpl in Hnil. lia. }
  assert (Hl0 : cl [] = 0%nat).
  { pose proof (Hcl [] []) as Hnil. simpl in Hnil. lia. }
  assert (Hseq : ∀ n k ax w l, (k + n ≤ m)%nat →
    for_each body (seq k n) (ax, w, l)
    = Ok (ax ++ concat (map line (seq k n)),
          (w + cw (concat (map line (seq k n))))%nat,
          (l + cl (concat (map line (seq k n))))%nat)).
  { induction n as [|n IH]; intros k ax w l Hk; simpl.
    - by rewrite app_nil_r, Hw0, Hl0, !Nat.add_0_r.
    - rewrite Hbody by lia. simpl. rewrite IH by lia.
      by rewrite Hcw, Hcl, (assoc_L (++)), !(assoc_L Nat.add). }
  intros ax w l. apply Hseq. lia.
Qed.
End counted_loops.

Lemma lines_of_colour_app {A} (c : string) (a b : list (node_artist A)) :
  lines_of_colour c (a ++ b)
  = (lines_of_colour c a + lines_of_colour c b)%nat.
Proof. unfold lines_of_colour. by rewrite filter_app, length_app. Qed.

Section cut_node_facts.
Context `{Scalar}.

(** One pass of the loop of [draw_triplets_xy_antiscore_cut]. *)
Lemma draw_cut_node_lines (xi yi xo yo scores : list F)
    (tf_mul : list (list nat)) (cut : F) (ax0 : list (node_artist F))
    (w l j : nat) (tp fp tn fn : nat) (x0 x1 y0 y1 s : F) :
  tf_mul !! j = Some [tp; fp; tn; fn] →
  xi !! j = Some x0 → xo !! j = Some x1 →
  yi !! j = Some y0 → yo !! j = Some y1 → scores !! j = Some s →
  let line fmt c := NodeLine (x0, x1) (y0, y1) (Some fmt) (Named c) None in
  let drawn :=
    (if (0 <? tp)%nat && (fp =? 0)%nat && (fn =? 0)%nat && F_lt s cut
     then [line "-" "k"] else [])
    ++ (if (0 <? tp)%nat && (fp =? 0)%nat && (0 <? fn)%nat && F_lt s cut
        then [line "--" "k"] else [])
    ++ (if (0 <? tp)%nat && (0 <? fp)%nat && F_lt s cut
        then [line "-." "k"] else [])
    ++ (if (tp =? 0)%nat && (fp =? 0)%nat && (0 <? fn)%nat && F_gt s cut
        then [line "--" "r"] else [])
    ++ (if (tp =? 0)%nat && (0 <? fp)%nat && F_lt s cut
        then [line "-" "r"] else [])
    ++ (if (tp =? 0)%nat && (fp =? 0)%nat && (0 <? tn)%nat && (fn =? 0)%nat
           && F_gt s cut
        then [line ":" "k"] else []) in
  nb_utils.draw_cut_node xi yi xo yo scores tf_mul cut (ax0, w, l) j
  = Ok (ax0 ++ drawn, (w + lines_of_colour "k" drawn)%nat,
        (l + lines_of_colour "r" drawn)%nat)
  ∧ (length drawn ≤ 1)%nat.
Proof.
  intros Hrow Hx0 Hx1 Hy0 Hy1 Hs line drawn. unfold nb_utils.draw_cut_node.
  rewrite (np_get_nat _ _ _ Hrow). cbn [mbind result_bind].
  change (np_get [tp; fp; tn; fn] 0) with (Ok tp).
  change (np_get [tp; fp; tn; fn] 1) with (Ok fp).
  change (np_get [tp; fp; tn; fn] 2) with (Ok tn).
  change (np_get [tp; fp; tn; fn] 3) with (Ok fn).
  rewrite (np_get_nat _ _ _ Hs). cbn [mbind result_bind].
  assert (Hline : ∀ fmt c,
    nb_utils.plot_node xi yi xo yo j fmt c None = Ok (line fmt c)).
  { intros fmt c. unfold nb_utils.plot_node.
    by rewrite (np_get_nat _ _ _ Hx0), (np_get_nat _ _ _ Hx1),
      (np_get_nat _ _ _ Hy0), (np_get_nat _ _ _ Hy1). }
  rewrite !Hline. unfold drawn.
  destruct tp as [|tp], fp as [|fp], tn as [|tn], fn as [|fn],
    (F_lt s cut), (F_gt s cut);
    cbn [Nat.ltb Nat.leb Nat.eqb andb mbind result_bind app length];
    (split; [|lia]);
    rewrite ?app_nil_r, ?Nat.add_0_r; reflexivity.
Qed.

(** [draw_triplets_xy_antiscore_cut]: after the two scatters every
    doublet gets at most one line, black or red, by its counts and its
    score against the cut, and the two numbers that are printed are the
    number of black lines and the number of red lines; together they are
    the number of lines drawn. *)
Theorem draw_triplets_xy_antiscore_cut_counts (hits : list (list F))
    (edges : list (Z * Z)) (preds labels : list F) (cut : option F)
    (xi yi xo yo scores : list F)
    (Hcols : nb_utils.doublet_ends hits = Ok (xi, yi, xo, yo))
    (Hscores : np_column hits 6 = Ok scores)
    (Hends : ∀ e p l, (e, p, l) ∈ zip (zip edges preds) labels →
       in_bounds (length hits) e.1 ∧ in_bounds (length hits) e.2) :
  let c := default F_half cut in
  let n := length hits in
  ∃ (lines : list (list (node_artist F))) (w l : nat),
    nb_utils.draw_triplets_xy_antiscore_cut hits edges preds labels cut
      = Ok ([NodeScatter xi yi 2 "k"; NodeScatter xo yo 2 "k"]
            ++ concat lines,
            [PStr "Overperforms by: "; PInt w;
             PStr ", underperforms by: "; PInt l; PStr "."])
    ∧ length lines = n
    ∧ w = lines_of_colour "k" (concat lines)
    ∧ l = lines_of_colour "r" (concat lines)
    ∧ (w + l)%nat = length (concat lines)
    ∧ (w + l ≤ n)%nat
    ∧ ∀ j x0 x1 y0 y1 s,
        xi !! j = Some x0 → xo !! j = Some x1 →
        yi !! j = Some y0 → yo !! j = Some y1 → scores !! j = Some s →
        let tp := class_ends (is_tp c) (ends_at n j) edges preds labels in
        let fp := class_ends (is_fp c) (ends_at n j) edges preds labels in
        let tn := class_ends (is_tn c) (ends_at n j) edges preds labels in
        let fn := class_ends (is_fn c) (first_end_twice n j)
                             edges preds labels in
        let line fmt c :=
          NodeLine (x0, x1) (y0, y1) (Some fmt) (Named c) None in
        lines !! j
        = Some
            ((if (0 <? tp)%nat && (fp =? 0)%nat && (fn =? 0)%nat
                 && F_lt s c
              then [line "-" "k"] else [])
             ++ (if (0 <? tp)%nat && (fp =? 0)%nat && (0 <? fn)%nat
                    && F_lt s c
                 then [line "--" "k"] else [])
             ++ (if (0 <? tp)%nat && (0 <? fp)%nat && F_lt s c
                 then [line "-." "k"] else [])
             ++ (if (tp =? 0)%nat && (fp =? 0)%nat && (0 <? fn)%nat
                    && F_gt s c
                 then [line "--" "r"] else [])
             ++ (if (tp =? 0)%nat && (0 <? fp)%nat && F_lt s c
                 then [line "-" "r"] else [])
             ++ (if (tp =? 0)%nat && (fp =? 0)%nat && (0 <? tn)%nat
                    && (fn =? 0)%nat && F_gt s c
                 then [line ":" "k"] else [])).
Proof.
  intros c n.
  destruct (doublet_ends_lengths _ _ _ _ _ Hcols) as (Hxi & Hyi & Hxo & Hyo).
  assert (Hsc : length scores = n) by by apply collect_length in Hscores.
  destruct (tf_multiplicity_loop c n (zip (zip edges preds) labels)
              (np.zeros (np.zeros 0%nat 4) n))
    as (tf_mul & Hrun & Hlen & Hat).
  { apply length_replicate. }
  { by apply Forall_replicate. }
  { apply Forall_forall. intros [[e p] l] Hin. by apply (Hends e p l). }
  assert (Hk : ∀ k, (k < n)%nat →
    tf_mul !! k
    = Some [class_ends (is_tp c) (ends_at n k) edges preds labels;
            class_ends (is_fp c) (ends_at n k) edges preds labels;
            class_ends (is_tn c) (ends_at n k) edges preds labels;
            class_ends (is_fn c) (first_end_twice n k) edges preds labels]).
  { intros k Hlt.
    by rewrite (Hat k 0 0 0 0)%nat by by apply lookup_replicate_2. }
  set (line j :=
    match xi !! j, xo !! j, yi !! j, yo !! j, scores !! j with
    | Some x0, Some x1, Some y0, Some y1, Some s =>
        let tp := class_ends (is_tp c) (ends_at n j) edges preds labels in
        let fp := class_ends (is_fp c) (ends_at n j) edges preds labels in
        let tn := class_ends (is_tn c) (ends_at n j) edges preds labels in
        let fn := class_ends (is_fn c) (first_end_twice n j)
                             edges preds labels in
        let line fmt c :=
          NodeLine (x0, x1) (y0, y1) (Some fmt) (Named c) None in
        (if (0 <? tp)%nat && (fp =? 0)%nat && (fn =? 0)%nat && F_lt s c
         then [line "-" "k"] else [])
        ++ (if (0 <? tp)%nat && (fp =? 0)%nat && (0 <? fn)%nat && F_lt s c
            then [line "--" "k"] else [])
        ++ (if (0 <? tp)%nat && (0 <? fp)%nat && F_lt s c
            then [line "-." "k"] else [])
        ++ (if (tp =? 0)%nat && (fp =? 0)%nat && (0 <? fn)%nat && F_gt s c
            then [line "--" "r"] else [])
        ++ (if (tp =? 0)%nat && (0 <? fp)%nat && F_lt s c
            then [line "-" "r"] else [])
        ++ (if (tp =? 0)%nat && (fp =? 0)%nat && (0 <? tn)%nat
               && (fn =? 0)%nat && F_gt s c
            then [line ":" "k"] else [])
    | _, _, _, _, _ => []
    end).
  assert (Hpass : ∀ j, (j < n)%nat →
    (∀ ax w l,
       nb_utils.draw_cut_node xi yi xo yo scores tf_mul c (ax, w, l) j
       = Ok (ax ++ line j, (w + lines_of_colour "k" (line j))%nat,
             (l + lines_of_colour "r" (line j))%nat))
    ∧ (length (line j) ≤ 1)%nat
    ∧ (lines_of_colour "k" (line j) + lines_of_colour "r" (line j))%nat
      = length (line j)).
  { intros j Hj.
    destruct (lookup_lt_is_Some_2 xi j ltac:(lia)) as [x0 Hx0].
    destruct (lookup_lt_is_Some_2 xo j ltac:(lia)) as [x1 Hx1].
    destruct (lookup_lt_is_Some_2 yi j ltac:(lia)) as [y0 Hy0].
    destruct (lookup_lt_is_Some_2 yo j ltac:(lia)) as [y1 Hy1].
    destruct (lookup_lt_is_Some_2 scores j ltac:(lia)) as [s Hs].
    unfold line. rewrite Hx0, Hx1, Hy0, Hy1, Hs. cbn zeta.
    split; [|split].
    - intros ax w l.
      by destruct (draw_cut_node_lines xi yi xo yo scores tf_mul c ax w l j
                     _ _ _ _ x0 x1 y0 y1 s (Hk j Hj) Hx0 Hx1 Hy0 Hy1 Hs)
        as [-> _].
    - by destruct (draw_cut_node_lines xi yi xo yo scores tf_mul c [] 0 0 j
                     _ _ _ _ x0 x1 y0 y1 s (Hk j Hj) Hx0 Hx1 Hy0 Hy1 Hs)
        as [_ ?].
    - destruct (class_ends (is_tp c) (ends_at n j) edges preds labels),
        (class_ends (is_fp c) (ends_at n j) edges preds labels),
        (class_ends (is_tn c) (ends_at n j) edges preds labels),
        (class_ends (is_fn c) (first_end_twice n j) edges preds labels),
        (F_lt s c), (F_gt s c); reflexivity. }
  assert (Hsum : ∀ m, (m ≤ n)%nat →
    (lines_of_colour "k" (concat (map line (seq 0 m)))
     + lines_of_colour "r" (concat (map line (seq 0 m))))%nat
    = length (concat (map line (seq 0 m)))
    ∧ (length (concat (map line (seq 0 m))) ≤ m)%nat).
  { induction m as [|m IH]; intros Hm; [done|].
    rewrite seq_S, map_app, concat_app, !lines_of_colour_app, length_app.
    simpl. rewrite app_nil_r.
    destruct (IH ltac:(lia)) as [IH1 IH2].
    destruct (Hpass m ltac:(lia)) as (_ & Hle & Hcol). lia. }
  exists (map line (range n)), (lines_of_colour "k" (concat (map line (range n)))),
    (lines_of_colour "r" (concat (map line (range n)))).
  split; [|split; [|split; [done|split; [done|split; [|split]]]]].
  - unfold nb_utils.draw_triplets_xy_antiscore_cut. rewrite Hcols.
    cbn [mbind result_bind]. rewrite Hscores. cbn [mbind result_bind].
    unfold nb_utils.tf_multiplicity.
    change (default F_half (Some (default F_half cut))) with c. fold n.
    rewrite Hrun. cbn [mbind result_bind].
    rewrite Hxi. fold n.
    rewrite (for_each_range_counted _ line (lines_of_colour "k")
               (lines_of_colour "r")).
    + reflexivity.
    + apply lines_of_colour_app.
    + apply lines_of_colour_app.
    + intros ax w l j Hj. by destruct (Hpass j Hj) as [-> _].
  - unfold range. by rewrite length_map, length_seq.
  - by destruct (Hsum n ltac:(lia)) as [? _].
  - destruct (Hsum n ltac:(lia)) as [Heq Hle]. unfold range. lia.
  - intros j x0 x1 y0 y1 s Hx0 Hx1 Hy0 Hy1 Hs tp fp tn fn ln.
    assert (Hj : (j < n)%nat).
    { apply lookup_lt_Some in Hx0. unfold n. lia. }
    rewrite lookup_range_lines by done.
    unfold line. by rewrite Hx0, Hx1, Hy0, Hy1, Hs.
Qed.
End cut_node_facts.

Lemma draw_triplets_xy_antiscore_cut_counts_witness :
  ∃ lines w l,
    (∃ before, nb_utils.draw_triplets_xy_antiscore_cut (H := demo.rationals)
       demo.doublets demo.edges demo.preds demo.labels None
       = Ok (before ++ concat lines,
             [PStr "Overperforms by: "; PInt w;
              PStr ", underperforms by: "; PInt l; PStr "."]))
    ∧ (w + l)%nat = length (concat lines)
    ∧ (w + l ≤ 3)%nat.
Proof.
  destruct (draw_triplets_xy_antiscore_cut_counts (H := demo.rationals)
    demo.doublets demo.edges demo.preds demo.labels None _ _ _ _ _
    eq_refl eq_refl) as (lines & w & l & Hrun & _ & _ & _ & Hsum & Hle & _).
  - intros e p l Hin%elem_of_zip_l%elem_of_zip_l.
    by apply demo_edges_in_bounds.
  - exists lines, w, l. split; [by eexists|]. split; [exact Hsum|exact Hle].
Defined.


(** ** [draw_sample]: the segments of a graph given by incidence matrices *)

Section incidence_facts.
Context {A : Type}.
Implicit Types (test : A → bool) (row : list A) (a : list (list A)).

Lemma nonzero_from_none test (k0 : nat) row :
  (∀ i v, row !! i = Some v → test v = false) →
  ndarray.nonzero_from test k0 row = [].
Proof.
  revert k0. induction row as [|v row IH]; intros k0 Hnone; [done|].
  simpl. rewrite (Hnone 0%nat v eq_refl). simpl. apply IH.
  intros i v' Hi. by apply (Hnone (S i)).
Qed.

(** A row with its only nonzero entry at position [k]. *)
Lemma nonzero_from_one_hot test (k0 : nat) row (k : nat) :
  (k < length row)%nat →
  (∀ i v, row !! i = Some v → (test v = true ↔ i = k)) →
  ndarray.nonzero_from test k0 row = [Z.of_nat (k0 + k)].
Proof.
  revert k0 k. induction row as [|v row IH]; intros k0 k Hk Hone;
    [simpl in Hk; lia|].
  simpl. destruct k as [|k].
  - rewrite (proj2 (Hone 0%nat v eq_refl) eq_refl). simpl.
    rewrite nonzero_from_none; [by rewrite Nat.add_0_r|].
    intros i v' Hi. apply not_true_is_false. intros Ht.
    by apply (Hone (S i) v' Hi) in Ht.
  - destruct (test v) eqn:Hv.
    { by apply (Hone 0%nat v eq_refl) in Hv. }
    simpl. rewrite (IH (S k0) k); [f_equal; lia|simpl in Hk; lia|].
    intros i v' Hi. rewrite (Hone (S i) v' Hi). lia.
Qed.

(** Column [c] of an array whose rows all have it. *)
Lemma column_lookup a (c : nat) :
  Forall (λ row, (c < length row)%nat) a →
  length (omap (λ row : list A, row !! c) a) = length a
  ∧ ∀ k v, omap (λ row : list A, row !! c) a !! k = Some v
           ↔ ∃ row, a !! k = Some row ∧ row !! c = Some v.
Proof.
  induction 1 as [|row a Hrow Ha [IHlen IH]].
  { split; [done|]. intros k v. split; [done|]. by intros (? & ? & _). }
  destruct (lookup_lt_is_Some_2 row c Hrow) as [v0 Hv0].
  cbn [omap list_omap]. rewrite Hv0. split; [simpl; by rewrite IHlen|].
  intros [|k] v; simpl.
  - split.
    + intros [= <-]. by exists row.
    + intros (row' & [= <-] & Hv). congruence.
  - apply IH.
Qed.

Lemma concat_singletons {B} (f : B → Z) (l : list B) :
  concat (map (λ b, [f b]) l) = map f l.
Proof. induction l as [|b l IH]; [done|]. simpl. by rewrite IH. Qed.

(** The nodes [np.where(a.T)[1]] gives for an incidence matrix of [E]
    columns each of which has its only nonzero entry at node [node e]. *)
Lemma where_columns_one_hot test a (E : nat) (node : nat → nat) :
  Forall (λ row, length row = E) a →
  (∀ e, (e < E)%nat →
     (node e < length a)%nat
     ∧ ∀ k row v, a !! k = Some row → row !! e = Some v →
         (test v = true ↔ k = node e)) →
  ndarray.where_columns test (ndarray.T a)
  = map (λ e, Z.of_nat (node e)) (seq 0 E).
Proof.
  intros Hshape Hone. unfold ndarray.where_columns, ndarray.T.
  assert (Hcols : default 0%nat (length <$> head a) = E).
  { destruct a as [|row a]; simpl.
    - destruct E as [|E]; [done|].
      destruct (Hone 0%nat ltac:(lia)) as [Hlt _]. simpl in Hlt. lia.
    - by apply Forall_cons in Hshape as [-> _]. }
  rewrite Hcols, <- list_fmap_compose, <- concat_singletons.
  f_equal. apply list_fmap_ext. intros i e Hie. simpl.
  assert (He : (e < E)%nat) by (apply lookup_seq in Hie; lia).
  destruct (Hone e He) as [Hlt Hnode].
  destruct (column_lookup a e) as [Hlen Hcol].
  { eapply Forall_impl; [exact Hshape|]. simpl. intros row ->. done. }
  rewrite (nonzero_from_one_hot test 0 _ (node e)); [done|by rewrite Hlen|].
  intros k v [row [Hk Hv]]%Hcol. by apply (Hnode k row v).
Qed.
End incidence_facts.

Section pair_loops.
Context {Art : Type}.

(** A loop over [range(m)] whose pass [j] appends one artist to each of
    two axes. *)
Lemma for_each_range_pairs
    (body : list Art * list Art → nat → result (list Art * list Art))
    (line0 line1 : nat → Art) (m : nat) :
  (∀ ax0 ax1 j, (j < m)%nat →
     body (ax0, ax1) j = Ok (ax0 ++ [line0 j], ax1 ++ [line1 j])) →
  ∀ ax0 ax1,
    for_each body (range m) (ax0, ax1)
    = Ok (ax0 ++ map line0 (range m), ax1 ++ map line1 (range m)).
Proof.
  intros Hbody. unfold range.
  assert (Hseq : ∀ n k ax0 ax1, (k + n ≤ m)%nat →
    for_each body (seq k n) (ax0, ax1)
    = Ok (ax0 ++ map line0 (seq k n), ax1 ++ map line1 (seq k n))).
  { induction n as [|n IH]; intros k ax0 ax1 Hk; simpl.
    - by rewrite !app_nil_r.
    - rewrite Hbody by lia. simpl. rewrite IH by lia.
      by rewrite <- !(assoc_L (++)). }
  intros ax0 ax1. apply Hseq. lia.
Qed.
End pair_loops.

Section draw_sample_facts.
Context `{Truth} `{Colormaps}.

Lemma take_nodes (X : list (list F)) (node : nat → nat) (E : nat) :
  (∀ e, (e < E)%nat → (node e < length X)%nat) →
  ndarray.take X (map (λ e, Z.of_nat (node e)) (seq 0 E))
  = Ok (map (λ e, default [] (X !! node e)) (seq 0 E)).
Proof.
  intros Hnode. unfold ndarray.take. rewrite collect_map, <- collect_Ok.
  apply collect_ext. intros e [_ He]%elem_of_seq.
  destruct (lookup_lt_is_Some_2 X (node e) (Hnode e ltac:(lia)))
    as [row Hrow].
  by rewrite (np_get_nat _ _ _ Hrow), Hrow.
Qed.

Lemma get2_node (X : list (list F)) (node : nat → nat) (E j : nat)
    (row : list F) (c : Z) :
  (j < E)%nat → X !! node j = Some row →
  ndarray.get2 (map (λ e, default [] (X !! node e)) (seq 0 E))
               (Z.of_nat j) c
  = np_get row c.
Proof.
  intros Hj Hrow. unfold ndarray.get2.
  rewrite (np_get_nat _ j row); [done|].
  rewrite list_lookup_fmap, lookup_seq_lt by done. simpl. by rewrite Hrow.
Qed.

(** On a graph of [E] edges given by two incidence matrices in which
    every edge has one hit marked in [Ri] and one in [Ro], with three
    features per hit, the axes of [draw_sample] hold the scatter of the
    hits and one line per label: line [j] joins the hit marked for edge
    [j] in [Ri] with the hit marked for it in [Ro], by the third and the
    first feature on the first axes and by the second and the first on
    the second.  The lines are black with the label as opacity, or, with
    [alpha_labels] off, in the colour the map gives the label. *)
Theorem draw_sample_segments (X Ri Ro : list (list F)) (y : list F)
    (cmap : option string) (alpha_labels : option bool)
    (E : nat) (ri ro : nat → nat) (cm : colormap)
    (Hfeatures : Forall (λ hit, (3 ≤ length hit)%nat) X)
    (HRi : Forall (λ row, length row = E) Ri)
    (HRo : Forall (λ row, length row = E) Ro)
    (Hin : ∀ e, (e < E)%nat →
       (ri e < length Ri)%nat
       ∧ ∀ k row v, Ri !! k = Some row → row !! e = Some v →
           (F_bool v = true ↔ k = ri e))
    (Hout : ∀ e, (e < E)%nat →
       (ro e < length Ro)%nat
       ∧ ∀ k row v, Ro !! k = Some row → row !! e = Some v →
           (F_bool v = true ↔ k = ro e))
    (Hhits_i : (length Ri ≤ length X)%nat)
    (Hhits_o : (length Ro ≤ length X)%nat)
    (Hlabels : (length y ≤ E)%nat)
    (Hcmap : plt_get_cmap (default "bwr_r" cmap) = Ok cm) :
  ∃ z r phi lines0 lines1,
    nb_utils.draw_sample X Ri Ro y cmap alpha_labels
      = Ok (SampleScatter z r "k" :: lines0,
            SampleScatter phi r "k" :: lines1)
    ∧ np_column X 2 = Ok z ∧ np_column X 0 = Ok r
    ∧ np_column X 1 = Ok phi
    ∧ length lines0 = length y ∧ length lines1 = length y
    ∧ ∀ j yj, y !! j = Some yj →
        ∃ hit_o hit_i o0 o1 o2 i0 i1 i2,
          X !! ri j = Some hit_o ∧ X !! ro j = Some hit_i
          ∧ hit_o !! 0%nat = Some o0 ∧ hit_o !! 1%nat = Some o1
          ∧ hit_o !! 2%nat = Some o2
          ∧ hit_i !! 0%nat = Some i0 ∧ hit_i !! 1%nat = Some i1
          ∧ hit_i !! 2%nat = Some i2
          ∧ let col := if default true alpha_labels then SNamed "k"
                       else SMapped cm yj in
            let alpha := if default true alpha_labels then Some yj
                         else None in
            lines0 !! j = Some (SampleLine (o2, i2) (o0, i0) "-" col alpha)
            ∧ lines1 !! j
              = Some (SampleLine (o1, i1) (o0, i0) "-" col alpha).
Proof.
  assert (Hcol : ∀ c : nat, (c < 3)%nat →
    ∃ col, np_column X (Z.of_nat c) = Ok col).
  { intros c Hc. exists (map (λ hit, default F_zero (hit !! c)) X).
    unfold np_column. rewrite <- collect_Ok. apply collect_ext.
    intros hit Hhit. rewrite Forall_forall in Hfeatures.
    specialize (Hfeatures hit Hhit).
    destruct (lookup_lt_is_Some_2 hit c ltac:(lia)) as [v Hv].
    by rewrite (np_get_nat _ _ _ Hv), Hv. }
  destruct (Hcol 2%nat ltac:(lia)) as [z Hz].
  destruct (Hcol 0%nat ltac:(lia)) as [r Hr].
  destruct (Hcol 1%nat ltac:(lia)) as [phi Hphi].
  change (Z.of_nat 2) with 2 in Hz. change (Z.of_nat 0) with 0 in Hr.
  change (Z.of_nat 1) with 1 in Hphi.
  assert (Hhit : ∀ node : nat → nat, ∀ n j,
    (n ≤ length X)%nat → (node j < n)%nat →
    ∃ hit v0 v1 v2, X !! node j = Some hit
      ∧ hit !! 0%nat = Some v0 ∧ hit !! 1%nat = Some v1
      ∧ hit !! 2%nat = Some v2).
  { intros node n j Hn Hj.
    destruct (lookup_lt_is_Some_2 X (node j) ltac:(lia)) as [hit Hhit].
    rewrite Forall_lookup in Hfeatures. specialize (Hfeatures _ _ Hhit).
    destruct (lookup_lt_is_Some_2 hit 0 ltac:(lia)) as [v0 Hv0].
    destruct (lookup_lt_is_Some_2 hit 1 ltac:(lia)) as [v1 Hv1].
    destruct (lookup_lt_is_Some_2 hit 2 ltac:(lia)) as [v2 Hv2].
    by exists hit, v0, v1, v2. }
  set (feature (node : nat → nat) (j c : nat) :=
         default F_zero (default [] (X !! node j) !! c)).
  set (style (yj : F) :=
         ((if default true alpha_labels then SNamed "k" else SMapped cm yj)
            : sample_colour F colormap,
          if default true alpha_labels then Some yj else None)).
  set (line0 j :=
         let yj := default F_zero (y !! j) in
         SampleLine (feature ri j 2%nat, feature ro j 2%nat)
                    (feature ri j 0%nat, feature ro j 0%nat) "-"
                    (style yj).1 (style yj).2).
  set (line1 j :=
         let yj := default F_zero (y !! j) in
         SampleLine (feature ri j 1%nat, feature ro j 1%nat)
                    (feature ri j 0%nat, feature ro j 0%nat) "-"
                    (style yj).1 (style yj).2).
  exists z, r, phi, (map line0 (range (length y))),
    (map line1 (range (length y))).
  split; [|do 3 (split; [done|]); split; [|split]].
  - unfold nb_utils.draw_sample.
    rewrite (where_columns_one_hot F_bool Ri E ri HRi Hin),
      (where_columns_one_hot F_bool Ro E ro HRo Hout).
    rewrite (take_nodes X ri E), (take_nodes X ro E).
    2:{ intros e He. destruct (Hout e He) as [? _]. lia. }
    2:{ intros e He. destruct (Hin e He) as [? _]. lia. }
    cbn [mbind result_bind]. rewrite Hcmap. cbn [mbind result_bind].
    rewrite Hz, Hr, Hphi. cbn [mbind result_bind].
    rewrite (for_each_range_pairs _ line0 line1); [done|].
    intros ax0 ax1 j Hj. unfold nb_utils.draw_sample_segment.
    destruct (lookup_lt_is_Some_2 y j Hj) as [yj Hyj].
    rewrite (np_get_nat _ _ _ Hyj). cbn [mbind result_bind].
    destruct (Hhit ri (length Ri) j Hhits_i)
      as (hit_o & o0 & o1 & o2 & Ho & Ho0 & Ho1 & Ho2).
    { destruct (Hin j ltac:(lia)) as [? _]. lia. }
    destruct (Hhit ro (length Ro) j Hhits_o)
      as (hit_i & i0 & i1 & i2 & Hi & Hi0 & Hi1 & Hi2).
    { destruct (Hout j ltac:(lia)) as [? _]. lia. }
    rewrite !(get2_node X ri E j hit_o) by (done || lia).
    rewrite !(get2_node X ro E j hit_i) by (done || lia).
    change 2 with (Z.of_nat 2). change 1 with (Z.of_nat 1).
    change 0 with (Z.of_nat 0).
    rewrite (np_get_nat _ _ _ Ho0), (np_get_nat _ _ _ Ho1),
      (np_get_nat _ _ _ Ho2), (np_get_nat _ _ _ Hi0),
      (np_get_nat _ _ _ Hi1), (np_get_nat _ _ _ Hi2).
    unfold line0, line1, feature, style, nb_utils.seg_args.
    rewrite Hyj, Ho, Hi. cbn [default from_option id].
    rewrite Ho0, Ho1, Ho2, Hi0, Hi1, Hi2.
    by destruct (from_option id true alpha_labels).
  - unfold range. by rewrite length_map, length_seq.
  - unfold range. by rewrite length_map, length_seq.
  - intros j yj Hyj.
    assert (Hj : (j < length y)%nat) by by eapply lookup_lt_Some.
    destruct (Hhit ri (length Ri) j Hhits_i)
      as (hit_o & o0 & o1 & o2 & Ho & Ho0 & Ho1 & Ho2).
    { destruct (Hin j ltac:(lia)) as [? _]. lia. }
    destruct (Hhit ro (length Ro) j Hhits_o)
      as (hit_i & i0 & i1 & i2 & Hi & Hi0 & Hi1 & Hi2).
    { destruct (Hout j ltac:(lia)) as [? _]. lia. }
    exists hit_o, hit_i, o0, o1, o2, i0, i1, i2.
    do 8 (split; [done|]). cbn zeta.
    unfold range. rewrite !list_lookup_fmap, !lookup_seq_lt by done.
    unfold line0, line1, feature, style. simpl.
    rewrite Hyj, Ho, Hi. simpl. rewrite Ho0, Ho1, Ho2, Hi0, Hi1, Hi2.
    done.
Qed.
End draw_sample_facts.

Lemma demo_sample_one_hot (M : list (list Q)) (node : nat → nat) :
  (M = demo.sample_Ri ∧ node = S) ∨ (M = demo.sample_Ro ∧ node = id) →
  ∀ e, (e < 2)%nat →
    (node e < length M)%nat
    ∧ ∀ k row v, M !! k = Some row → row !! e = Some v →
        (F_bool (Truth := demo.truth) v = true ↔ k = node e).
Proof.
  intros [[-> ->]|[-> ->]] e He;
    (destruct e as [|[|e]]; [| |lia]);
    (split; [simpl; lia|]);
    intros [|[|[|k]]] row v Hk Hv; simplify_eq/=; by split.
Qed.

Lemma draw_sample_segments_witness :
  ∃ scatter0 scatter1 lines0 lines1,
    nb_utils.draw_sample (H0 := demo.truth) (H1 := demo.colormaps)
      demo.doublets demo.sample_Ri demo.sample_Ro demo.sample_y None None
    = Ok (scatter0 :: lines0, scatter1 :: lines1)
    ∧ lines0 !! 0%nat
      = Some (SampleLine (0, 0)%Q (2, 1)%Q "-" (SNamed "k") (Some 1%Q))
    ∧ length lines1 = 2%nat.
Proof.
  destruct (draw_sample_segments (H0 := demo.truth) (H1 := demo.colormaps)
    demo.doublets demo.sample_Ri demo.sample_Ro demo.sample_y None None
    2%nat S id "bwr_r"%string)
    as (z & r & phi & lines0 & lines1 & Hrun & _ & _ & _ & _ & Hlen
        & Hlines).
  - repeat constructor; simpl; lia.
  - by repeat constructor.
  - by repeat constructor.
  - apply demo_sample_one_hot. by left.
  - apply demo_sample_one_hot. by right.
  - simpl. lia.
  - simpl. lia.
  - simpl. lia.
  - reflexivity.
  - destruct (Hlines 0%nat 1%Q eq_refl)
      as (hit_o & hit_i & o0 & o1 & o2 & i0 & i1 & i2 & Ho & Hi
          & Ho0 & _ & Ho2 & Hi0 & _ & Hi2 & Hline0 & _).
    injection Ho as <-. injection Hi as <-.
    injection Ho0 as <-. injection Ho2 as <-.
    injection Hi0 as <-. injection Hi2 as <-.
    eexists _, _, lines0, lines1. split; [exact Hrun|].
    split; [exact Hline0|exact Hlen].
Defined.
